(** * Call Session Orchestrator: a shallow embedding of the voicebot backend

    The development follows the two variants of the orchestrator that the
    repository ships:
    - [voicebot/app/main.py] (the unified backend; module [Main]),
    - [voicebot/services/stt_translate.py] (the micro-service variant;
      module [SttTranslate]),
    together with the chat service of [voicebot/app/services/response.py]
    (module [Response]).

    Stateful Python code is written in a state-and-exception monad over a
    [World] that holds the call-record table, the process-wide globals and
    the caller-facing channel.  Answers of external collaborators (speech to
    text, routing, dialogue generation, translation, synthesis) are inputs:
    every inbound audio unit carries the answers the collaborators give
    during that turn. *)

From Stdlib Require Import ZArith List Ascii String Bool Lia.
From stdpp Require Import base option gmap strings list fin_maps sorting.

Local Open Scope string_scope.
Local Open Scope Z_scope.

(** ** Data model *)

(** [status] column of [active_calls]; the code writes the three literals
    ['Active'], ['Ended'], ['Error'] and nothing else. *)
Inductive Status := Active | Ended | Error.

(** [handled_by] column; the code writes ['AI'] and ['Human']. *)
Inductive Handler := AI | Human.

#[global] Instance Status_eq_dec : EqDecision Status.
Proof. solve_decision. Defined.
#[global] Instance Handler_eq_dec : EqDecision Handler.
Proof. solve_decision. Defined.

(** One row of the table [active_calls], keyed by [session_id]. *)
Record Row := mkRow {
  caller_name : string;
  caller_number : option string;
  location : string;
  status : Status;
  routing_label : string;
  priority : string;
  detected_language : option string;
  last_transcript : option string;
  confirmation_given : bool;
  handled_by : Handler;
  start_time : Z;
  last_update_time : Z
}.

(** A [key = value] pair of the dictionary handed to [update_call_data];
    the dictionary is kept as the list of its items in insertion order. *)
Inductive Assign :=
| set_status (v : Status)
| set_last_transcript (v : string)
| set_detected_language (v : string)
| set_caller_name (v : string)
| set_routing_label (v : string)
| set_confirmation_given (v : bool)
| set_handled_by (v : Handler)
| set_last_update_time (v : Z).

(** Effect of one [SET column = value] clause on a row. *)
Definition assign (r : Row) (a : Assign) : Row :=
  match a with
  | set_status v =>
      mkRow r.(caller_name) r.(caller_number) r.(location) v r.(routing_label)
            r.(priority) r.(detected_language) r.(last_transcript)
            r.(confirmation_given) r.(handled_by) r.(start_time) r.(last_update_time)
  | set_last_transcript v =>
      mkRow r.(caller_name) r.(caller_number) r.(location) r.(status) r.(routing_label)
            r.(priority) r.(detected_language) (Some v)
            r.(confirmation_given) r.(handled_by) r.(start_time) r.(last_update_time)
  | set_detected_language v =>
      mkRow r.(caller_name) r.(caller_number) r.(location) r.(status) r.(routing_label)
            r.(priority) (Some v) r.(last_transcript)
            r.(confirmation_given) r.(handled_by) r.(start_time) r.(last_update_time)
  | set_caller_name v =>
      mkRow v r.(caller_number) r.(location) r.(status) r.(routing_label)
            r.(priority) r.(detected_language) r.(last_transcript)
            r.(confirmation_given) r.(handled_by) r.(start_time) r.(last_update_time)
  | set_routing_label v =>
      mkRow r.(caller_name) r.(caller_number) r.(location) r.(status) v
            r.(priority) r.(detected_language) r.(last_transcript)
            r.(confirmation_given) r.(handled_by) r.(start_time) r.(last_update_time)
  | set_confirmation_given v =>
      mkRow r.(caller_name) r.(caller_number) r.(location) r.(status) r.(routing_label)
            r.(priority) r.(detected_language) r.(last_transcript)
            v r.(handled_by) r.(start_time) r.(last_update_time)
  | set_handled_by v =>
      mkRow r.(caller_name) r.(caller_number) r.(location) r.(status) r.(routing_label)
            r.(priority) r.(detected_language) r.(last_transcript)
            r.(confirmation_given) v r.(start_time) r.(last_update_time)
  | set_last_update_time v =>
      mkRow r.(caller_name) r.(caller_number) r.(location) r.(status) r.(routing_label)
            r.(priority) r.(detected_language) r.(last_transcript)
            r.(confirmation_given) r.(handled_by) r.(start_time) v
  end.

(** [{"role": ..., "content": ...}] entries of a conversation history. *)
Inductive Role := user | assistant | system.

#[global] Instance Role_eq_dec : EqDecision Role.
Proof. solve_decision. Defined.

Record ChatMessage := mkMsg { role : Role; content : string }.

(** Outbound JSON events of the caller-facing channel. *)
Inductive Event :=
| transcript (payload : string)
| routing_info (department : string)
| ai_audio_response (text_content audio_base64 language_code : string)
| ai_response (response : string)
| stt_error (status_code : nat)      (* message [STT Error <status_code>] *)
| error (message : string).

(** What the WebSocket has carried towards the caller. *)
Inductive Frame :=
| accept
| send_json (e : Event)
| close (code : nat).

(** Exceptions the code distinguishes in its [except] clauses. *)
Inductive exn :=
| RequestException
| WebSocketDisconnect
| HTTPException (status_code : nat)
| PostgresError
| Exception.

Inductive result (A : Type) :=
| Ok (a : A)
| Raise (e : exn).
Arguments Ok {A} a.
Arguments Raise {A} e.

(** Lines written with [logger.error] by the store helper. *)
Inductive LogLine :=
| log_pool_unavailable (session_id : string)
| log_update_failed (session_id : string).

(** What is asked of the dialogue service: the [messages] of a call of
    [chat.completions.create] (main.py, response.py), or the JSON payload
    posted to [LLAMA_SERVICE_URL] (stt_translate.py). *)
Inductive DialogueRequest :=
| completion (messages : list ChatMessage)
| llama_payload (session_id input_text system_prompt_override : string).

(** The process state shared by all handlers. *)
Record World := mkWorld {
  db_pool : bool;                           (* the global [db_pool] is not [None] *)
  db_faults : list bool;                    (* upcoming store operations: [true] raises *)
  rows : gmap string Row;                   (* table [active_calls] *)
  clock : Z;                                (* wall clock *)
  chat_memory : gmap string (list ChatMessage);
  ws_faults : list (option exn);            (* upcoming channel operations *)
  sent : list Frame;                        (* frames delivered, oldest first *)
  log : list LogLine;
  dialogue_requests : list DialogueRequest  (* requests made, oldest first *)
}.

Definition with_rows (f : gmap string Row -> gmap string Row) (w : World) : World :=
  mkWorld w.(db_pool) w.(db_faults) (f w.(rows)) w.(clock) w.(chat_memory)
          w.(ws_faults) w.(sent) w.(log) w.(dialogue_requests).
Definition with_db_faults (l : list bool) (w : World) : World :=
  mkWorld w.(db_pool) l w.(rows) w.(clock) w.(chat_memory)
          w.(ws_faults) w.(sent) w.(log) w.(dialogue_requests).
Definition with_clock (t : Z) (w : World) : World :=
  mkWorld w.(db_pool) w.(db_faults) w.(rows) t w.(chat_memory)
          w.(ws_faults) w.(sent) w.(log) w.(dialogue_requests).
Definition with_chat_memory
    (f : gmap string (list ChatMessage) -> gmap string (list ChatMessage))
    (w : World) : World :=
  mkWorld w.(db_pool) w.(db_faults) w.(rows) w.(clock) (f w.(chat_memory))
          w.(ws_faults) w.(sent) w.(log) w.(dialogue_requests).
Definition with_ws_faults (l : list (option exn)) (w : World) : World :=
  mkWorld w.(db_pool) w.(db_faults) w.(rows) w.(clock) w.(chat_memory)
          l w.(sent) w.(log) w.(dialogue_requests).
Definition with_sent (l : list Frame) (w : World) : World :=
  mkWorld w.(db_pool) w.(db_faults) w.(rows) w.(clock) w.(chat_memory)
          w.(ws_faults) l w.(log) w.(dialogue_requests).
Definition with_log (l : list LogLine) (w : World) : World :=
  mkWorld w.(db_pool) w.(db_faults) w.(rows) w.(clock) w.(chat_memory)
          w.(ws_faults) w.(sent) l w.(dialogue_requests).
Definition with_dialogue_requests (l : list DialogueRequest) (w : World) : World :=
  mkWorld w.(db_pool) w.(db_faults) w.(rows) w.(clock) w.(chat_memory)
          w.(ws_faults) w.(sent) w.(log) l.

(** ** The monad of handlers: state passing with exceptions *)

Definition M (A : Type) : Type := World -> World * result A.

Definition ret {A} (a : A) : M A := fun w => (w, Ok a).
Definition raise {A} (e : exn) : M A := fun w => (w, Raise e).
Definition bind {A B} (c : M A) (k : A -> M B) : M B :=
  fun w => match c w with
           | (w', Ok a) => k a w'
           | (w', Raise e) => (w', Raise e)
           end.
(** [try: c except e: h e] *)
Definition try_except {A} (c : M A) (h : exn -> M A) : M A :=
  fun w => match c w with
           | (w', Ok a) => (w', Ok a)
           | (w', Raise e) => h e w'
           end.
(** [try: c finally: f] *)
Definition try_finally {A} (c : M A) (f : M unit) : M A :=
  fun w => match c w with
           | (w', r) => match f w' with
                        | (w'', Ok _) => (w'', r)
                        | (w'', Raise e) => (w'', Raise e)
                        end
           end.
Definition modify (f : World -> World) : M unit := fun w => (f w, Ok tt).
Definition gets {A} (f : World -> A) : M A := fun w => (w, Ok (f w)).

Notation "x <- c ;; k" := (bind c (fun x => k))
  (at level 100, c at next level, right associativity).
Notation "c ;; k" := (bind c (fun _ => k))
  (at level 100, right associativity).

(** ** Primitive effects *)

(** [datetime.now(timezone.utc)] and SQL [CURRENT_TIMESTAMP]: every reading
    is a later instant than the one before. *)
Definition datetime_now : M Z :=
  fun w => (with_clock (w.(clock) + 1) w, Ok w.(clock)).

(** [async with db_pool.acquire() as conn: await conn.<op>(...)]: the
    operation either raises or runs [f] atomically on the table. *)
Definition db_run {A} (f : gmap string Row -> gmap string Row * A) : M A :=
  fun w =>
    if negb w.(db_pool) then (w, Raise Exception)
    else match w.(db_faults) with
         | true :: rest => (with_db_faults rest w, Raise PostgresError)
         | false :: rest =>
             let '(t, a) := f w.(rows) in
             (with_rows (fun _ => t) (with_db_faults rest w), Ok a)
         | [] =>
             let '(t, a) := f w.(rows) in
             (with_rows (fun _ => t) w, Ok a)
         end.

(** [UPDATE active_calls SET ... WHERE session_id = $i] *)
Definition sql_update (session_id : string) (sets : list Assign)
    (t : gmap string Row) : gmap string Row * unit :=
  match t !! session_id with
  | Some r => (<[session_id := fold_left assign sets r]> t, tt)
  | None => (t, tt)
  end.

(** [SELECT col FROM active_calls WHERE session_id = $1] through
    [fetchval] / [fetchrow]: [None] when no row matches. *)
Definition sql_fetch {A} (session_id : string) (col : Row -> A)
    (t : gmap string Row) : gmap string Row * option A :=
  (t, col <$> t !! session_id).

(** An operation on the WebSocket: it raises, or the frame goes out. *)
Definition ws_op (f : Frame) : M unit :=
  fun w => match w.(ws_faults) with
           | Some x :: rest => (with_ws_faults rest w, Raise x)
           | None :: rest =>
               (with_sent (w.(sent) ++ [f])%list (with_ws_faults rest w), Ok tt)
           | [] => (with_sent (w.(sent) ++ [f])%list w, Ok tt)
           end.

(** [await websocket.accept()] *)
Definition ws_accept : M unit := ws_op accept.
(** [await websocket.send_json(e)] / [send_text(json.dumps(e))] *)
Definition ws_send (e : Event) : M unit := ws_op (send_json e).
(** [await websocket.close(code=...)] *)
Definition ws_close (code : nat) : M unit := ws_op (close code).

Definition logger_error (l : LogLine) : M unit :=
  modify (fun w => with_log (w.(log) ++ [l])%list w).

(** A request goes out to the dialogue service. *)
Definition ask_dialogue (q : DialogueRequest) : M unit :=
  modify (fun w => with_dialogue_requests (w.(dialogue_requests) ++ [q])%list w).

(** ** [update_call_data] (main.py 216-240, stt_translate.py 125-158) *)

Definition update_call_data (session_id : string) (data_to_update : list Assign)
    : M unit :=
  fun w =>
    if negb w.(db_pool) || bool_decide (data_to_update = [])
    then (if negb w.(db_pool)
          then logger_error (log_pool_unavailable session_id)
          else ret tt) w
    else (now <- datetime_now ;;
          let data_to_update := (data_to_update ++ [set_last_update_time now])%list in
          try_except
            (db_run (sql_update session_id data_to_update))
            (fun _ => logger_error (log_update_failed session_id))) w.

(** ** Python string helpers *)

(** Texts are kept as their UTF-8 encoding.  A character is a byte that is
    not a continuation byte ([10xxxxxx]) together with the continuation
    bytes that follow it; [len] and slicing count characters, as Python
    does. *)
Definition is_continuation (c : ascii) : bool :=
  let n := nat_of_ascii c in ((128 <=? n) && (n <? 192))%nat.

(** [len(s)] *)
Fixpoint len (s : string) : nat :=
  match s with
  | EmptyString => 0%nat
  | String c s' => if is_continuation c then len s' else S (len s')
  end.

(** [s[:n]]: a continuation byte stays with the character it belongs to. *)
Fixpoint slice_to (n : nat) (s : string) : string :=
  match s with
  | EmptyString => EmptyString
  | String c s' =>
      if is_continuation c then String c (slice_to n s')
      else match n with
           | O => EmptyString
           | S n' => String c (slice_to n' s')
           end
  end.

(** [str.isspace] on the characters of the model, and the class [\s] of
    [re]: tab, line feed, vertical tab, form feed, carriage return, the four
    separators 28-31 and the space.  The white space outside ASCII that
    Python knows as well (U+0085, U+00A0, U+2000 and the like) is not
    modelled: the texts of the model hold ASCII white space only. *)
Definition isspace (c : ascii) : bool :=
  let n := nat_of_ascii c in
  ((9 <=? n) && (n <=? 13) || (28 <=? n) && (n <=? 32))%nat.

Fixpoint lstrip (s : list ascii) : list ascii :=
  match s with
  | c :: s' => if isspace c then lstrip s' else s
  | [] => []
  end.
Definition rstrip (s : list ascii) : list ascii := rev (lstrip (rev s)).

(** [s.strip()] *)
Definition strip (s : string) : string :=
  string_of_list_ascii (rstrip (lstrip (list_ascii_of_string s))).

Definition lower_char (c : ascii) : ascii :=
  let n := nat_of_ascii c in
  if ((65 <=? n) && (n <=? 90))%nat then ascii_of_nat (n + 32) else c.

(** [s.lower()] *)
Fixpoint lower (s : string) : string :=
  match s with
  | EmptyString => EmptyString
  | String c s' => String (lower_char c) (lower s')
  end.

(** Truth value of a string: [if s:] holds for every non-empty string. *)
Definition truthy (s : string) : bool := negb (String.eqb s "").

(** [d.get(key, default)] for a key that may be absent. *)
Definition get_default {A} (o : option A) (default : A) : A :=
  match o with Some v => v | None => default end.

Definition dq : string := String "034"%char EmptyString.
Definition nl : string := String "010"%char EmptyString.

(** ** Prompts shared by both orchestrators *)

Definition INITIAL_SYSTEM_PROMPT : string :=
  "You are an AI assistant in a real-time emergency call center in Kerala, India. "
  ++ "Your FIRST task is to calmly ask the caller for their name. "
  ++ "Say EXACTLY this: " ++ dq
  ++ "This is the emergency line. Could I please get your name?" ++ dq ++ " "
  ++ "Do not ask any other questions or add any other text in this first turn. "
  ++ "Wait for their response.".

Definition STANDARD_SYSTEM_PROMPT : string :=
  "You are an AI assistant in a real-time emergency call center in Kerala, India. "
  ++ "Speak calmly, ask only one question at a time, and never refer them to 911. "
  ++ "Never redirect to any other service. Always remain the official emergency contact. "
  ++ "The user may have already provided their name.".

Definition NON_SPECIFIC_ROUTING_LABELS : list string := ["Unknown"; "General Inquiry"].

(** [label not in NON_SPECIFIC_ROUTING_LABELS] *)
Definition not_in_labels (label : string) : bool :=
  negb (existsb (String.eqb label) NON_SPECIFIC_ROUTING_LABELS).

Definition confirmation_phrase (department_name : string) : string :=
  "Understood. I am recording the details for the " ++ department_name
  ++ ". Please be assured that someone from that department will contact you shortly.".

(** ** Traffic of one connection *)

(** Answer to [requests.post(SARVAM_STT_URL, ...)]: the request raises, or
    it yields a status code and a body.  The body is [None] when reading it
    raises ([.json()] fails, or [transcript] is no string). *)
Record SttBody := mkSttBody {
  stt_transcript : option string;        (* key [transcript], may be absent *)
  stt_language_code : option string      (* key [language_code], may be absent *)
}.
Inductive SttOutcome :=
| stt_raises (e : exn)                             (* the request raises *)
| stt_http (status_code : nat) (body : option SttBody).
    (* [None]: the body is not JSON and [.json()] raises
       [requests.exceptions.JSONDecodeError], a [RequestException]
       (requests 2.27 and later) *)

(** What [await websocket.receive()] yields; [E] is the record of the
    collaborators' answers during the turn that an audio unit starts. *)
Inductive Incoming (E : Type) :=
| recv_raises (e : exn)
| recv_disconnect                 (* type [websocket.disconnect] *)
| recv_bytes (env : E)            (* type [websocket.receive] with key [bytes] *)
| recv_text                       (* type [websocket.receive] without [bytes] *)
| recv_other.                     (* any other type *)
Arguments recv_raises {E} e.
Arguments recv_disconnect {E}.
Arguments recv_bytes {E} env.
Arguments recv_text {E}.
Arguments recv_other {E}.

(** Local variables of one run of [call_endpoint]. *)
Record Session := mkSession {
  confirmation_given_this_session : bool;
  awaiting_name : bool;
  caller_name_known : bool;
  current_handler : Handler;
  chat_history : list ChatMessage           (* stt_translate.py only *)
}.

(** How an iteration of [while True] leaves the loop body. *)
Inductive Control := Continue | Break.

(** The three dialogue phases, as the prompt that was selected. *)
Inductive Phase := NameCapture | Confirmation | Standard.

#[global] Instance Phase_eq_dec : EqDecision Phase.
Proof. solve_decision. Defined.

(** [INSERT ... ON CONFLICT (session_id) DO UPDATE SET ...] of
    [call_endpoint].  Modelled from the spec: the table definition is not
    part of the sources; a fresh row takes [start_time] and
    [last_update_time] from the clock and has no [last_transcript]. *)
Definition sql_init_call (now : Z) (session_id : string)
    (t : gmap string Row) : gmap string Row * unit :=
  match t !! session_id with
  | None =>
      (<[session_id :=
           mkRow "Unknown" None "Unknown" Active "Unknown" "Normal" None None
                 false AI now now]> t, tt)
  | Some r =>
      (<[session_id :=
           mkRow "Unknown" None "Unknown" Active "Unknown" "Normal" None
                 r.(last_transcript) false AI
                 (if bool_decide (r.(status) <> Active) then now else r.(start_time))
                 now]> t, tt)
  end.

(** [takeover_call_endpoint] (main.py 681-705, stt_translate.py 500-522);
    the two files agree.  The returned message is not modelled. *)
Definition takeover_call_endpoint (session_id : string) : M unit :=
  fun w =>
    if negb w.(db_pool) then (w, Raise (HTTPException 503))
    else
      try_except
        (current_status <- db_run (sql_fetch session_id status) ;;
         match current_status with
         | None => raise (HTTPException 404)
         | Some st =>
             if bool_decide (st <> Active) then raise (HTTPException 400)
             else update_call_data session_id [set_handled_by Human]
         end)
        (fun e => match e with
                  | HTTPException c => raise (HTTPException c)
                  | _ => raise (HTTPException 500)
                  end) w.

(** ** Operator queries *)

(** An item of the answer of the call lists.  The columns copied from the
    record ([start_time], [caller_name], ..., [routing_label] as [callType],
    ..., [handled_by]) are kept as the record itself. *)
Record ActiveCallResponse := mkActiveCallResponse {
  id : string;
  record : Row;
  durationSeconds : Z
}.

(** Timestamps count microseconds, the resolution of [datetime];
    [int(delta.total_seconds())] drops the fraction of a second. *)
Definition total_seconds_int (delta : Z) : Z := Z.quot delta 1000000.

(** [ORDER BY start_time ASC] *)
Definition by_start_time (a b : string * Row) : Prop :=
  a.2.(start_time) <= b.2.(start_time).

#[global] Instance by_start_time_dec : RelDecision by_start_time.
Proof. intros a b. unfold by_start_time. apply _. Defined.

(** [SELECT ... FROM active_calls WHERE status = 'Active' ORDER BY start_time
    ASC]; rows with equal start times come in the order of the table scan. *)
Definition sql_select_active (t : gmap string Row)
    : gmap string Row * list (string * Row) :=
  (t, merge_sort by_start_time
        (filter (fun kr => kr.2.(status) = Active) (map_to_list t))).

(** [get_active_calls] (main.py 632-679, stt_translate.py 451-496); the two
    files agree. *)
Definition get_active_calls : M (list ActiveCallResponse) :=
  fun w =>
    if negb w.(db_pool) then (w, Raise (HTTPException 503))
    else
      try_except
        (records <- db_run sql_select_active ;;
         current_time <- datetime_now ;;
         ret (map (fun kr : string * Row =>
                     mkActiveCallResponse kr.1 kr.2
                       (total_seconds_int (current_time - kr.2.(start_time))))
                  records))
        (fun _ => raise (HTTPException 500)) w.

(** ** voicebot/app/main.py *)
Module Main.

Definition create_confirmation_system_prompt (department_name : string) : string :=
  "You are an AI assistant in a real-time emergency call center in Kerala, India." ++ nl
  ++ "A specific department has been identified for this user's issue: "
  ++ department_name ++ "." ++ nl
  ++ "Your primary task now is to FIRST acknowledge this and give the confirmation. State clearly: "
  ++ dq ++ confirmation_phrase department_name ++ dq ++ nl
  ++ "AFTER giving that exact confirmation, you MUST then ask the NEXT single, most important question calmly to gather necessary details. Do not ask multiple questions."
  ++ nl
  ++ "Speak calmly. Never refer them to 911 or other services. Always remain the official emergency contact.".

Record ChatRequest := mkChatRequest {
  session_id : string;
  input_text : string;
  system_prompt_override : option string
}.

Record ChatResponse := mkChatResponse {
  response_text : string;
  emotion : string
}.

(** Answers of [groq_client.chat.completions.create] during one call of
    [chat]: the message content of the first choice, [None] when the call
    (or reading its content) raises. *)
Record Groq := mkGroq {
  chat_completion : option string;
  emotion_completion : option string
}.

Definition completions_create (messages : list ChatMessage) (answer : option string)
    : M string :=
  ask_dialogue (completion messages) ;;
  match answer with
  | Some text => ret text
  | None => raise Exception
  end.

Definition EMOTION_PROMPT : string :=
  "You are an AI that detects the emotion of a caller in a disaster helpline. "
  ++ "Return the dominant emotion in **one word** from this list only: "
  ++ "calm, confused, urgent, panicked, scared, distressed, angry, hopeless, sad, uncertain.".

Definition valid_emotions : list string :=
  ["calm"; "confused"; "urgent"; "panicked"; "scared"; "distressed"; "angry";
   "hopeless"; "sad"; "uncertain"].

Definition memory_append (session_id : string) (m : ChatMessage) : M unit :=
  modify (with_chat_memory
            (fun mem => <[session_id := (get_default (mem !! session_id) [] ++ [m])%list]> mem)).

(** [chat] (main.py 300-373) *)
Definition chat (groq : Groq) (request : ChatRequest) : M ChatResponse :=
  let session_id := request.(session_id) in
  let user_text := strip request.(input_text) in
  modify (with_chat_memory
            (fun mem => match mem !! session_id with
                        | None => <[session_id := []]> mem
                        | Some _ => mem
                        end)) ;;
  (if truthy user_text
   then memory_append session_id (mkMsg user user_text)
   else ret tt) ;;
  try_except
    (let system_content :=
       match request.(system_prompt_override) with
       | Some p => if truthy p then p else STANDARD_SYSTEM_PROMPT
       | None => STANDARD_SYSTEM_PROMPT
       end in
     mem <- gets chat_memory ;;
     let messages := mkMsg system system_content :: get_default (mem !! session_id) [] in
     generated <- completions_create messages groq.(chat_completion) ;;
     let generated_response := strip generated in
     (if truthy generated_response
      then memory_append session_id (mkMsg assistant generated_response)
      else ret tt) ;;
     emotion <-
       (if truthy user_text
        then try_except
               (detected <- completions_create
                              [mkMsg system EMOTION_PROMPT;
                               mkMsg user ("Identify emotion in: '" ++ user_text ++ "'")]
                              groq.(emotion_completion) ;;
                let detected_emotion := lower (strip detected) in
                if existsb (String.eqb detected_emotion) valid_emotions
                then ret detected_emotion
                else ret "unknown")
               (fun _ => ret "error")
        else ret "unknown") ;;
     ret (mkChatResponse generated_response emotion))
    (fun _ => raise (HTTPException 500)).

(** Answer of the synthesis provider to [http_client.post(SARVAM_TTS_URL)]. *)
Inductive TtsHttp :=
| tts_request_error                         (* [httpx.RequestError] *)
| tts_status_error (status_code : nat)      (* [raise_for_status] raises *)
| tts_body (audios : option (list string)). (* key [audios]; [None]: absent or no list *)

(** [synthesize_speech] (main.py 246-292); yields [audio_base64]. *)
Definition synthesize_speech (provider : TtsHttp) : M string :=
  match provider with
  | tts_request_error => raise (HTTPException 503)
  | tts_status_error c => raise (HTTPException c)
  | tts_body audios_base64 =>
      match audios_base64 with
      | Some (audio_base64 :: _) => ret audio_base64
      | _ => raise (HTTPException 500)
      end
  end.

(** [TTSRequest(text_to_speak=...)]: the field has [max_length=500], a
    bound on the number of characters. *)
Definition TTSRequest (text_to_speak : string) : M string :=
  if (500 <? len text_to_speak)%nat then raise Exception
  else ret text_to_speak.

(** Collaborators' answers during one turn. *)
Record TurnEnv := mkTurnEnv {
  stt : SttOutcome;
  routing : option (option string);   (* [None]: the call raises; inner: key [forwarded_to] *)
  groq : Groq;
  tts : TtsHttp
}.

Definition TARGET_LANGUAGE_CODE : string := "ml-IN".

(** Stage 3 of the loop body, [Determine LLaMA prompt] (main.py 536-548):
    the selected prompt, the phase it stands for and the locals after it. *)
Definition determine_prompt (session_id predicted_label : string) (s : Session)
    : M (string * Phase * Session) :=
  if negb s.(caller_name_known) then
    ret (INITIAL_SYSTEM_PROMPT, NameCapture,
         mkSession s.(confirmation_given_this_session) true s.(caller_name_known)
                   s.(current_handler) s.(chat_history))
  else
    let is_specific_routing := truthy predicted_label && not_in_labels predicted_label in
    let should_give_confirmation :=
      is_specific_routing && negb s.(confirmation_given_this_session) in
    if should_give_confirmation then
      update_call_data session_id [set_confirmation_given true] ;;
      ret (create_confirmation_system_prompt predicted_label, Confirmation,
           mkSession true s.(awaiting_name) s.(caller_name_known)
                     s.(current_handler) s.(chat_history))
    else ret (STANDARD_SYSTEM_PROMPT, Standard, s).

(** Stage 5, [TTS] (main.py 567-593). *)
Definition respond (session_id ai_response_content : string) (provider : TtsHttp)
    : M unit :=
  if truthy ai_response_content then
    tts_req <- TTSRequest ai_response_content ;;
    try_except
      (audio_base64 <- synthesize_speech provider ;;
       if truthy audio_base64 then
         ws_send (ai_audio_response ai_response_content audio_base64 TARGET_LANGUAGE_CODE) ;;
         update_call_data session_id []
       else
         ws_send (ai_response ai_response_content))
      (fun _ => ws_send (ai_response ai_response_content))
  else ret tt.

(** [Process STT], [Update DB] and [Send transcript to client] (main.py
    492-512): the transcript and the locals after them. *)
Definition process_stt (session_id : string) (result_json : SttBody) (s : Session)
    : M (string * Session) :=
  let user_transcript := strip (get_default result_json.(stt_transcript) "") in
  let update_payload := [set_last_transcript user_transcript] in
  let update_payload :=
    match result_json.(stt_language_code) with
    | Some l => if truthy l
                then (update_payload ++ [set_detected_language l])%list
                else update_payload
    | None => update_payload
    end in
  let store_name :=
    s.(awaiting_name) && truthy user_transcript && negb s.(caller_name_known) in
  let update_payload :=
    if store_name
    then (update_payload ++ [set_caller_name (slice_to 255 user_transcript)])%list
    else update_payload in
  let s := if store_name
           then mkSession s.(confirmation_given_this_session) false true
                          s.(current_handler) s.(chat_history)
           else s in
  update_call_data session_id update_payload ;;
  ws_send (transcript user_transcript) ;;
  ret (user_transcript, s).

(** Stages [2. Routing] to [5. TTS] (main.py 517-593). *)
Definition stages_after_stt (session_id : string) (env : TurnEnv)
    (user_transcript : string) (s : Session) : M (Session * Control) :=
  predicted_label <-
    match env.(routing) with
    | Some forwarded_to =>
        let predicted_label := get_default forwarded_to "Unknown" in
        update_call_data session_id [set_routing_label predicted_label] ;;
        ret predicted_label
    | None => ret "Unknown"
    end ;;
  ws_send (routing_info predicted_label) ;;
  prompt <- determine_prompt session_id predicted_label s ;;
  let '(system_content, _, s) := prompt in
  ai_response_content <-
    try_except
      (chat_resp <- chat env.(groq)
                      (mkChatRequest session_id user_transcript (Some system_content)) ;;
       ret chat_resp.(response_text))
      (fun _ => ret "I apologize, I encountered a problem. Could you please repeat?") ;;
  respond session_id ai_response_content env.(tts) ;;
  ret (s, Continue).

(** Body of the inner [try] of the loop (main.py 466-593). *)
Definition process_audio (session_id : string) (env : TurnEnv) (s : Session)
    : M (Session * Control) :=
  handler_status <- db_run (sql_fetch session_id handled_by) ;;
  let s := match handler_status with
           | Some h => mkSession s.(confirmation_given_this_session) s.(awaiting_name)
                                 s.(caller_name_known) h s.(chat_history)
           | None => s
           end in
  if bool_decide (s.(current_handler) = Human) then ret (s, Continue)
  else
    match env.(stt) with
    | stt_raises e => raise e
    | stt_http status_code body =>
        if negb (status_code =? 200)%nat then
          ws_send (stt_error status_code) ;; ret (s, Continue)
        else
          match body with
          | None => raise RequestException
          | Some result_json =>
              heard <- process_stt session_id result_json s ;;
              let '(user_transcript, s) := heard in
              if negb (truthy user_transcript) then ret (s, Continue)
              else stages_after_stt session_id env user_transcript s
          end
    end.

(** The inner [try ... except] around the pipeline (main.py 466-604). *)
Definition on_bytes (session_id : string) (env : TurnEnv) (s : Session)
    : M (Session * Control) :=
  try_except (process_audio session_id env s)
    (fun e =>
       match e with
       | RequestException =>
           ws_send (error "STT service connection error.") ;;
           update_call_data session_id [set_status Error] ;;
           ret (s, Break)
       | _ =>
           ws_send (error "Server error processing audio.") ;;
           update_call_data session_id [set_status Error] ;;
           ret (s, Break)
       end).

(** One iteration of [while True] (main.py 453-615). *)
Definition loop_iteration (session_id : string) (message : Incoming TurnEnv)
    (s : Session) : M (Session * Control) :=
  try_except
    (match message with
     | recv_raises e => raise e
     | recv_disconnect => ret (s, Break)
     | recv_bytes env => on_bytes session_id env s
     | recv_text => ret (s, Continue)
     | recv_other => ret (s, Continue)
     end)
    (fun e =>
       match e with
       | WebSocketDisconnect => ret (s, Break)
       | _ =>
           try_except (ws_send (error "Internal server error.")) (fun _ => ret tt) ;;
           ret (s, Break)
       end).

(** The loop over the traffic of the connection.  The list is everything the
    peer sends; once it is used up the peer is gone and [receive()] yields a
    [websocket.disconnect] message. *)
Fixpoint main_loop (session_id : string) (traffic : list (Incoming TurnEnv))
    (s : Session) : M unit :=
  match traffic with
  | [] => loop_iteration session_id recv_disconnect s ;; ret tt
  | message :: rest =>
      sc <- loop_iteration session_id message s ;;
      match sc.2 with
      | Break => ret tt
      | Continue => main_loop session_id rest sc.1
      end
  end.

(** Locals after [Fetch initial state] (main.py 440-450). *)
Definition fetch_initial_state (session_id : string) : M Session :=
  initial_state <- db_run (sql_fetch session_id (fun r => r)) ;;
  match initial_state with
  | Some r =>
      ret (mkSession r.(confirmation_given) false
             (truthy r.(caller_name) && negb (String.eqb r.(caller_name) "Unknown"))
             r.(handled_by) [])
  | None => ret (mkSession false false false AI [])
  end.

(** [Initialize call in database] (main.py 402-430): the upsert; when it
    raises the socket is closed with code 1011 and the handler returns. *)
Definition initialise_call (session_id : string) : M bool :=
  try_except
    (now <- datetime_now ;;
     db_run (sql_init_call now session_id) ;;
     ret true)
    (fun _ => ws_close 1011 ;; ret false).

(** [call_endpoint] (main.py 391-626) *)
Definition call_endpoint (session_id : string) (traffic : list (Incoming TurnEnv))
    : M unit :=
  fun w =>
    if negb w.(db_pool) then (w, Ok tt)
    else
      (ws_accept ;;
       db_initialized_for_session <- initialise_call session_id ;;
       if negb db_initialized_for_session then ret tt
       else
         try_finally
           (try_except
              (s <- fetch_initial_state session_id ;;
               main_loop session_id traffic s)
              (fun _ => try_except (ws_close 1011) (fun _ => ret tt)))
           (if db_initialized_for_session
            then update_call_data session_id [set_status Ended]
            else ret tt)) w.

(** [end_session] (main.py 375-385): the message of the answer. *)
Definition end_session (request : ChatRequest) : M string :=
  let session_id := request.(session_id) in
  mem <- gets chat_memory ;;
  match mem !! session_id with
  | Some _ =>
      modify (with_chat_memory (delete session_id)) ;;
      ret "Session ended successfully."
  | None => ret "Session not found."
  end.

End Main.

(** ** Text normalisation for speech (stt_translate.py 361-366) *)

Section re_sub.
Variable in_class : ascii -> bool.
Variable repl : list ascii.

(** [re.sub(r'[class]+', repl, s)]: every maximal non-empty run of
    characters of the class is replaced by [repl]; [in_run] tells that the
    character before the current one was part of a run. *)
Fixpoint sub_runs (in_run : bool) (s : list ascii) : list ascii :=
  match s with
  | [] => []
  | c :: s' =>
      if in_class c
      then (if in_run then sub_runs true s' else repl ++ sub_runs true s')%list
      else c :: sub_runs false s'
  end.
End re_sub.

(** The class [[?!]]. *)
Definition is_mark (c : ascii) : bool :=
  Ascii.eqb c "?"%char || Ascii.eqb c "!"%char.

(** [re.sub(r'[?!]+', '', s)] *)
Definition sub_marks (s : list ascii) : list ascii := sub_runs is_mark [] false s.
(** [re.sub(r'\s+', ' ', s)] *)
Definition sub_spaces (s : list ascii) : list ascii :=
  sub_runs isspace [" "%char] false s.

(** Step 8, [Clean Text for TTS]. *)
Definition clean_text_for_tts (text_for_tts : string) : string :=
  if truthy text_for_tts then
    string_of_list_ascii
      (rstrip (lstrip (sub_spaces (sub_marks (list_ascii_of_string text_for_tts)))))
  else text_for_tts.

(** ** voicebot/services/stt_translate.py *)
Module SttTranslate.

Definition create_confirmation_system_prompt (department_name : string) : string :=
  "You are an AI assistant in a real-time emergency call center in Kerala, India." ++ nl
  ++ "A specific department has been identified for this user's issue: "
  ++ department_name ++ "." ++ nl
  ++ "Your primary task now is to FIRST acknowledge this and give the confirmation. State clearly: "
  ++ dq ++ confirmation_phrase department_name ++ dq ++ nl
  ++ "AFTER giving that exact confirmation, you MUST then ask the NEXT single, most important question calmly to gather necessary details (like location, number of people, current status etc.). Do not ask multiple questions."
  ++ nl
  ++ "Speak calmly. Never refer them to 911 or other services. Always remain the official emergency contact.".

(** Collaborators' answers during one turn; the outer [None] of an answer
    stands for a call that raises (connection error, non-2xx status, bad
    body), the inner one for a key absent from the JSON body. *)
Record TurnEnv := mkTurnEnv {
  stt : SttOutcome;
  routing : option (option string);     (* key [forwarded_to] *)
  llama : option (option string);       (* key [response_text] *)
  translate : option (option string);   (* key [translated_text] *)
  tts : option (option string)          (* key [audio_base64] *)
}.

Definition TARGET_LANGUAGE_CODE : string := "ml-IN".

Definition history_append (m : ChatMessage) (s : Session) : Session :=
  mkSession s.(confirmation_given_this_session) s.(awaiting_name)
            s.(caller_name_known) s.(current_handler) (s.(chat_history) ++ [m])%list.

(** The test of step 5 that selects the initial prompt. *)
Definition first_turn (s : Session) : bool :=
  match s.(chat_history) with
  | [] => true
  | [m] => bool_decide (m.(role) = user) && negb s.(caller_name_known)
  | _ => false
  end.

(** Step 5, [Determine LLaMA prompt] (stt_translate.py 308-323). *)
Definition determine_prompt (session_id predicted_label : string) (s : Session)
    : M (string * Phase * Session) :=
  if first_turn s then
    ret (INITIAL_SYSTEM_PROMPT, NameCapture,
         mkSession s.(confirmation_given_this_session) true s.(caller_name_known)
                   s.(current_handler) s.(chat_history))
  else
    let s := mkSession s.(confirmation_given_this_session) false s.(caller_name_known)
                       s.(current_handler) s.(chat_history) in
    let is_specific_routing := truthy predicted_label && not_in_labels predicted_label in
    let should_give_confirmation :=
      is_specific_routing && negb s.(confirmation_given_this_session) in
    if should_give_confirmation then
      update_call_data session_id [set_confirmation_given true] ;;
      ret (create_confirmation_system_prompt predicted_label, Confirmation,
           mkSession true s.(awaiting_name) s.(caller_name_known)
                     s.(current_handler) s.(chat_history))
    else ret (STANDARD_SYSTEM_PROMPT, Standard, s).

(** Step 7, [Translate] (stt_translate.py 344-358). *)
Definition translate_response (ai_response_content : string)
    (answer : option (option string)) : string :=
  if truthy ai_response_content then
    match answer with
    | Some translated_text =>
        let translated := strip (get_default translated_text "") in
        if truthy translated then translated else ai_response_content
    | None => ai_response_content
    end
  else "".

(** Steps 9 and 10, [TTS] and [Send Audio Response]
    (stt_translate.py 369-395). *)
Definition respond (session_id translated_ai_response_content text_for_tts : string)
    (answer : option (option string)) : M unit :=
  if truthy text_for_tts then
    try_except
      (audio_base64 <- match answer with
                       | Some a => ret a
                       | None => raise Exception
                       end ;;
       if truthy (get_default audio_base64 "") then
         ws_send (ai_audio_response translated_ai_response_content
                    (get_default audio_base64 "") TARGET_LANGUAGE_CODE) ;;
         update_call_data session_id []
       else
         ws_send (ai_response translated_ai_response_content))
      (fun _ => ws_send (ai_response translated_ai_response_content))
  else ws_send (ai_response "").

(** Step 2, [Process STT & Update State/History], with the transcript sent
    to the client (stt_translate.py 266-285): the transcript and the locals
    after them. *)
Definition process_stt (session_id : string) (result_json : SttBody) (s : Session)
    : M (string * Session) :=
  let user_transcript := strip (get_default result_json.(stt_transcript) "") in
  let update_payload := [set_last_transcript user_transcript] in
  let update_payload :=
    match result_json.(stt_language_code) with
    | Some l => if truthy l
                then (update_payload ++ [set_detected_language l])%list
                else update_payload
    | None => update_payload
    end in
  let store_name :=
    s.(awaiting_name) && truthy user_transcript && negb s.(caller_name_known) in
  let update_payload :=
    if store_name
    then (update_payload ++ [set_caller_name (slice_to 255 user_transcript)])%list
    else update_payload in
  let s := if store_name
           then mkSession s.(confirmation_given_this_session) false true
                          s.(current_handler) s.(chat_history)
           else s in
  update_call_data session_id update_payload ;;
  let s := if truthy user_transcript
           then history_append (mkMsg user user_transcript) s
           else s in
  ws_send (transcript user_transcript) ;;
  ret (user_transcript, s).

(** Steps [3. Routing] to [10. Send Audio Response]
    (stt_translate.py 289-395). *)
Definition stages_after_stt (session_id : string) (env : TurnEnv)
    (user_transcript : string) (s : Session) : M (Session * Control) :=
  predicted_label <-
    match env.(routing) with
    | Some forwarded_to =>
        let predicted_label_from_api := get_default forwarded_to "Unknown" in
        update_call_data session_id [set_routing_label predicted_label_from_api] ;;
        ret predicted_label_from_api
    | None => ret "Unknown"
    end ;;
  ws_send (routing_info predicted_label) ;;
  prompt <- determine_prompt session_id predicted_label s ;;
  let '(system_content, _, s) := prompt in
  ask_dialogue (llama_payload session_id user_transcript system_content) ;;
  let ai_response_content :=
    match env.(llama) with
    | Some response_text => strip (get_default response_text "")
    | None => "I apologize, I encountered a problem. Could you please repeat?"
    end in
  let s := match env.(llama) with
           | Some _ =>
               if truthy ai_response_content
               then history_append (mkMsg assistant ai_response_content) s
               else s
           | None => s
           end in
  let translated_ai_response_content :=
    translate_response ai_response_content env.(translate) in
  let text_for_tts := clean_text_for_tts translated_ai_response_content in
  respond session_id translated_ai_response_content text_for_tts env.(tts) ;;
  ret (s, Continue).

(** Body of the inner [try] of the loop (stt_translate.py 244-395). *)
Definition process_audio (session_id : string) (env : TurnEnv) (s : Session)
    : M (Session * Control) :=
  handler_status <- db_run (sql_fetch session_id handled_by) ;;
  let s := match handler_status with
           | Some h => mkSession s.(confirmation_given_this_session) s.(awaiting_name)
                                 s.(caller_name_known) h s.(chat_history)
           | None => s
           end in
  if bool_decide (s.(current_handler) = Human) then ret (s, Continue)
  else
    match env.(stt) with
    | stt_raises e => raise e
    | stt_http status_code body =>
        if negb (status_code =? 200)%nat then
          ws_send (stt_error status_code) ;; ret (s, Continue)
        else
          match body with
          | None => raise RequestException
          | Some result_json =>
              heard <- process_stt session_id result_json s ;;
              let '(user_transcript, s) := heard in
              if negb (truthy user_transcript) && bool_decide (s.(chat_history) = [])
              then ret (s, Continue)
              else stages_after_stt session_id env user_transcript s
          end
    end.

(** The inner [try ... except] around the pipeline (stt_translate.py 244-408). *)
Definition on_bytes (session_id : string) (env : TurnEnv) (s : Session)
    : M (Session * Control) :=
  try_except (process_audio session_id env s)
    (fun e =>
       match e with
       | RequestException =>
           ws_send (error "STT service connection error.") ;;
           update_call_data session_id [set_status Error] ;;
           ret (s, Break)
       | _ =>
           ws_send (error "Server error processing audio.") ;;
           update_call_data session_id [set_status Error] ;;
           ret (s, Break)
       end).

(** One iteration of [while True] (stt_translate.py 228-422). *)
Definition loop_iteration (session_id : string) (message : Incoming TurnEnv)
    (s : Session) : M (Session * Control) :=
  try_except
    (match message with
     | recv_raises e => raise e
     | recv_disconnect => ret (s, Break)
     | recv_bytes env => on_bytes session_id env s
     | recv_text => ret (s, Continue)
     | recv_other => ret (s, Continue)
     end)
    (fun e =>
       match e with
       | WebSocketDisconnect => ret (s, Break)
       | _ =>
           try_except (ws_send (error "Internal server error.")) (fun _ => ret tt) ;;
           ret (s, Break)
       end).

(** The loop over the traffic of the connection; an exhausted list is a
    peer that has gone ([websocket.disconnect]). *)
Fixpoint main_loop (session_id : string) (traffic : list (Incoming TurnEnv))
    (s : Session) : M unit :=
  match traffic with
  | [] => loop_iteration session_id recv_disconnect s ;; ret tt
  | message :: rest =>
      sc <- loop_iteration session_id message s ;;
      match sc.2 with
      | Break => ret tt
      | Continue => main_loop session_id rest sc.1
      end
  end.

(** Locals after the fetch of the initial state (stt_translate.py 212-224). *)
Definition fetch_initial_state (session_id : string) : M Session :=
  initial_state <- db_run (sql_fetch session_id (fun r => r)) ;;
  match initial_state with
  | Some r =>
      ret (mkSession r.(confirmation_given) false
             (truthy r.(caller_name) && negb (String.eqb r.(caller_name) "Unknown"))
             r.(handled_by) [])
  | None => ret (mkSession false false false AI [])
  end.

(** The upsert that initialises or resets the call (stt_translate.py
    173-201); when it raises the socket is closed with code 1011 and the
    handler returns. *)
Definition initialise_call (session_id : string) : M bool :=
  try_except
    (now <- datetime_now ;;
     db_run (sql_init_call now session_id) ;;
     ret true)
    (fun _ => ws_close 1011 ;; ret false).

(** [call_endpoint] (stt_translate.py 162-431) *)
Definition call_endpoint (session_id : string) (traffic : list (Incoming TurnEnv))
    : M unit :=
  fun w =>
    if negb w.(db_pool) then (w, Ok tt)
    else
      (ws_accept ;;
       db_initialized_for_session <- initialise_call session_id ;;
       if negb db_initialized_for_session then ret tt
       else
         try_finally
           (try_except
              (s <- fetch_initial_state session_id ;;
               main_loop session_id traffic s)
              (fun _ => try_except (ws_close 1011) (fun _ => ret tt)))
           (if db_initialized_for_session
            then update_call_data session_id [set_status Ended]
            else ret tt)) w.

(** [ORDER BY last_update_time DESC] *)
Definition by_last_update_desc (a b : string * Row) : Prop :=
  b.2.(last_update_time) <= a.2.(last_update_time).

#[global] Instance by_last_update_desc_dec : RelDecision by_last_update_desc.
Proof. intros a b. unfold by_last_update_desc. apply _. Defined.

(** [SELECT ... FROM active_calls WHERE status != 'Active' ORDER BY
    last_update_time DESC LIMIT 10] *)
Definition sql_select_recent (t : gmap string Row)
    : gmap string Row * list (string * Row) :=
  (t, take 10 (merge_sort by_last_update_desc
                 (filter (fun kr => kr.2.(status) <> Active) (map_to_list t)))).

(** The final duration of a call that is over (stt_translate.py 550-562);
    the warning that is logged for timestamps out of order is left out. *)
Definition final_duration (r : Row) : Z :=
  if bool_decide (r.(start_time) < r.(last_update_time))
  then total_seconds_int (r.(last_update_time) - r.(start_time))
  else 0.

(** [get_recent_calls] (stt_translate.py 524-584) *)
Definition get_recent_calls : M (list ActiveCallResponse) :=
  fun w =>
    if negb w.(db_pool) then (w, Raise (HTTPException 503))
    else
      try_except
        (records <- db_run sql_select_recent ;;
         ret (map (fun kr : string * Row =>
                     mkActiveCallResponse kr.1 kr.2 (final_duration kr.2))
                  records))
        (fun _ => raise (HTTPException 500)) w.

End SttTranslate.

(** ** voicebot/app/services/response.py *)
Module Response.

Definition STANDARD_SYSTEM_PROMPT : string :=
  "You are an AI assistant in a real-time emergency call center in Kerala, India. "
  ++ "Speak calmly, ask only one question at a time, and never refer them to 911. "
  ++ "Never redirect to any other service. Always remain the official emergency contact.".

(** [chat] (response.py 46-154); it answers with the dictionary
    [{response_text, emotion}], kept as a [Main.ChatResponse]. *)
Definition chat (groq : Main.Groq) (request : Main.ChatRequest) : M Main.ChatResponse :=
  let session_id := request.(Main.session_id) in
  let user_text := strip request.(Main.input_text) in
  modify (with_chat_memory
            (fun mem => match mem !! session_id with
                        | None => <[session_id := []]> mem
                        | Some _ => mem
                        end)) ;;
  (if truthy user_text
   then Main.memory_append session_id (mkMsg user user_text)
   else ret tt) ;;
  try_except
    (let system_content :=
       match request.(Main.system_prompt_override) with
       | Some p => if truthy p then p else STANDARD_SYSTEM_PROMPT
       | None => STANDARD_SYSTEM_PROMPT
       end in
     mem <- gets chat_memory ;;
     let messages :=
       match mem !! session_id with
       | Some history => mkMsg system system_content :: history
       | None => [mkMsg system system_content; mkMsg user user_text]
       end in
     generated <- Main.completions_create messages groq.(Main.chat_completion) ;;
     let generated_response := strip generated in
     (if truthy generated_response
      then Main.memory_append session_id (mkMsg assistant generated_response)
      else ret tt) ;;
     emotion <-
       (if truthy user_text
        then try_except
               (detected <- Main.completions_create
                              [mkMsg system Main.EMOTION_PROMPT;
                               mkMsg user ("Identify emotion in: '" ++ user_text ++ "'")]
                              groq.(Main.emotion_completion) ;;
                let detected_emotion := lower (strip detected) in
                if existsb (String.eqb detected_emotion) Main.valid_emotions
                then ret detected_emotion
                else ret "unknown")
               (fun _ => ret "error")
        else ret "unknown") ;;
     ret (Main.mkChatResponse generated_response emotion))
    (fun _ => raise (HTTPException 500)).

(** [end_session] (response.py 157-170): the message of the answer. *)
Definition end_session (request : Main.ChatRequest) : M string :=
  let session_id := request.(Main.session_id) in
  mem <- gets chat_memory ;;
  match mem !! session_id with
  | Some _ =>
      modify (with_chat_memory (delete session_id)) ;;
      ret "Session ended successfully."
  | None => ret "Session not found."
  end.

End Response.

(** ** Predicates and auxiliary functions used in the statements *)

(** A text on which [lstrip] has nothing to do. *)
Definition no_leading_space (x : list ascii) : Prop :=
  match x with
  | [] => True
  | c :: _ => isspace c = false
  end.

Definition mark_free (x : list ascii) : Prop := Forall (fun c => is_mark c = false) x.

(** A text on which [sub_spaces] has nothing to do: its only white space is
    the space character, and no two of them are adjacent. *)
Fixpoint collapsed (x : list ascii) : Prop :=
  match x with
  | [] => True
  | c :: y => (isspace c = true -> c = " "%char /\ no_leading_space y) /\ collapsed y
  end.

(** The normal form on lists of characters. *)
Definition normalise (x : list ascii) : list ascii :=
  rstrip (lstrip (sub_spaces (sub_marks x))).

(** The store answers: the pool is up and no fault is pending. *)
Definition store_healthy (w : World) : Prop :=
  w.(db_pool) = true /\ w.(db_faults) = [].

(** The values the [emotion] field may take. *)
Definition emotion_labels : list string :=
  (Main.valid_emotions ++ ["unknown"; "error"])%list.

(** The row of a call that is going on, answered by the AI. *)
Definition active_row : Row :=
  mkRow "Unknown" None "Unknown" Active "Unknown" "Normal" None None false AI 100 100.

(** A process with a working store and channel and one call, [S1]. *)
Definition world_S1 : World :=
  mkWorld true [] {[ "S1" := active_row ]} 105 ∅ [] [] [] [].

(** A field assignment that does not hand a call back to the AI. *)
Definition keeps_human (a : Assign) : Prop := a <> set_handled_by AI.

(** What the operations of a running connection may do to the process
    state: the pool stays as it is, a fault-free store or channel stays
    fault-free, frames are only appended, rows are never deleted and a row
    handled by a human stays so. *)
Record evolves (w w' : World) : Prop := mk_evolves {
  ev_pool : w'.(db_pool) = w.(db_pool);
  ev_db_faults : w.(db_faults) = [] -> w'.(db_faults) = [];
  ev_ws_faults : w.(ws_faults) = [] -> w'.(ws_faults) = [];
  ev_sent : exists l, w'.(sent) = (w.(sent) ++ l)%list;
  ev_rows : forall sid r, w.(rows) !! sid = Some r ->
            exists r', w'.(rows) !! sid = Some r'
                       /\ (r.(handled_by) = Human -> r'.(handled_by) = Human)
}.

(** A computation all of whose runs are related by [evolves]. *)
Definition respects {A} (c : M A) : Prop := forall w, evolves w (c w).1.

(** Table operations of a running connection. *)
Definition table_step (t t' : gmap string Row) : Prop :=
  forall sid r, t !! sid = Some r ->
    exists r', t' !! sid = Some r' /\ (r.(handled_by) = Human -> r'.(handled_by) = Human).

(** A turn in which every collaborator answers (main.py). *)
Definition main_turn (said label reply : string) : Main.TurnEnv :=
  Main.mkTurnEnv
    (stt_http 200 (Some (mkSttBody (Some said) (Some "ml-IN"))))
    (Some (Some label))
    (Main.mkGroq (Some reply) (Some "calm"))
    (Main.tts_body (Some ["UklGRg"])).

(** A turn in which every collaborator answers (stt_translate.py). *)
Definition stt_turn (said label reply : string) : SttTranslate.TurnEnv :=
  SttTranslate.mkTurnEnv
    (stt_http 200 (Some (mkSttBody (Some said) (Some "ml-IN"))))
    (Some (Some label))
    (Some (Some reply))
    (Some (Some reply))
    (Some (Some "UklGRg")).

(** What the orchestrator does once a connection is open: an iteration of
    the loop of either variant, a takeover request, a chat request, and the
    clean-up that ends [call_endpoint]. *)
Inductive Operation :=
| main_iteration (session_id : string) (message : Incoming Main.TurnEnv) (s : Session)
| stt_iteration (session_id : string) (message : Incoming SttTranslate.TurnEnv)
                (s : Session)
| takeover (session_id : string)
| main_chat (groq : Main.Groq) (request : Main.ChatRequest)
| response_chat (groq : Main.Groq) (request : Main.ChatRequest)
| end_of_call (session_id : string).

Definition run (w : World) (o : Operation) : World :=
  match o with
  | main_iteration session_id message s => (Main.loop_iteration session_id message s w).1
  | stt_iteration session_id message s =>
      (SttTranslate.loop_iteration session_id message s w).1
  | takeover session_id => (takeover_call_endpoint session_id w).1
  | main_chat groq request => (Main.chat groq request w).1
  | response_chat groq request => (Response.chat groq request w).1
  | end_of_call session_id => (update_call_data session_id [set_status Ended] w).1
  end.

Definition run_all (ops : list Operation) (w : World) : World := fold_left run ops w.

(** A process with a working store and channel and an empty table. *)
Definition world_empty : World := mkWorld true [] ∅ 100 ∅ [] [] [] [].

(** [s] with the flag [awaiting_name] set to [b]. *)
Definition with_awaiting_name (b : bool) (s : Session) : Session :=
  mkSession s.(confirmation_given_this_session) b s.(caller_name_known)
            s.(current_handler) s.(chat_history).

(** [s] once the confirmation has been given. *)
Definition with_confirmation_given (s : Session) : Session :=
  mkSession true s.(awaiting_name) s.(caller_name_known)
            s.(current_handler) s.(chat_history).


(** The turn stopped after the transcript event. *)
Definition skipped (said : string) (w w' : World) : Prop :=
  w'.(sent) = (w.(sent) ++ [send_json (transcript said)])%list.

(** The turn went on to the routing stage: the transcript event is followed
    by a [routing_info] event. *)
Definition routed (said : string) (w w' : World) : Prop :=
  exists label rest,
    w'.(sent) = (w.(sent) ++ send_json (transcript said)
                           :: send_json (routing_info label) :: rest)%list.

(** A turn whose speech-to-text request raises (main.py). *)
Definition main_turn_stt_down : Main.TurnEnv :=
  Main.mkTurnEnv (stt_raises RequestException) None (Main.mkGroq None None)
                 Main.tts_request_error.

(** A turn whose speech-to-text request raises (stt_translate.py). *)
Definition stt_turn_stt_down : SttTranslate.TurnEnv :=
  SttTranslate.mkTurnEnv (stt_raises RequestException) None None None None.

(** A reply of 501 characters. *)
Definition long_reply : string := string_of_list_ascii (repeat "a"%char 501).

(** The events that answer the caller. *)
Definition is_response (f : Frame) : bool :=
  match f with
  | send_json (ai_audio_response _ _ _) => true
  | send_json (ai_response _) => true
  | _ => false
  end.

(** A field assignment as the pipeline of a turn issues them: it touches
    neither [handled_by], nor sets [status] to Active, nor clears
    [confirmation_given]. *)
Definition pipeline_assign (a : Assign) : Prop :=
  match a with
  | set_handled_by _ => False
  | set_status Active => False
  | set_confirmation_given false => False
  | set_last_update_time _ => False
  | _ => True
  end.

(** What stays of a row while connections are open: a confirmation given is
    not taken back, a call that is over does not become Active again, and
    [start_time], [caller_number], [location] and [priority] are not
    written. *)
Definition steady (r r' : Row) : Prop :=
  (r.(confirmation_given) = true -> r'.(confirmation_given) = true)
  /\ (r.(status) <> Active -> r'.(status) <> Active)
  /\ r'.(start_time) = r.(start_time)
  /\ r'.(caller_number) = r.(caller_number)
  /\ r'.(location) = r.(location)
  /\ r'.(priority) = r.(priority).

(** A field assignment that keeps a row [steady]. *)
Definition steady_assign (a : Assign) : Prop :=
  a <> set_status Active /\ a <> set_confirmation_given false.

(** Every row of [t] is in [t'], changed at most as [steady] allows. *)
Definition steady_table (t t' : gmap string Row) : Prop :=
  forall k r, t !! k = Some r -> exists r', t' !! k = Some r' /\ steady r r'.

(** The rows of all sessions but [session_id] are the same in [t] and [t']. *)
Definition others_untouched (session_id : string) (t t' : gmap string Row) : Prop :=
  forall k, k <> session_id -> t' !! k = t !! k.

(** The locals a connection starts with. *)
Definition fresh_session : Session := mkSession false false false AI [].

(** The row a connection starts with, given what it keeps of an older row. *)
Definition fresh_row (start now : Z) (heard : option string) : Row :=
  mkRow "Unknown" None "Unknown" Active "Unknown" "Normal" None heard false AI start now.

(** The text that stands in for a reply when dialogue generation fails. *)
Definition APOLOGY : string :=
  "I apologize, I encountered a problem. Could you please repeat?".

(** The department a turn announces: the classifier's label, [Unknown] when
    the answer has no label or the call fails. *)
Definition expected_label (routing : option (option string)) : string :=
  match routing with
  | Some forwarded_to => get_default forwarded_to "Unknown"
  | None => "Unknown"
  end.

(** The reply of a turn of main.py: the stripped completion, the apology
    when the completion fails. *)
Definition main_expected_reply (env : Main.TurnEnv) : string :=
  match env.(Main.groq).(Main.chat_completion) with
  | Some text => strip text
  | None => APOLOGY
  end.

(** The audio the synthesis provider hands to main.py, if any. *)
Definition main_expected_audio (provider : Main.TtsHttp) : option string :=
  match provider with
  | Main.tts_body (Some (audio :: _)) => if truthy audio then Some audio else None
  | _ => None
  end.

(** The frames that follow the routing event in a turn of main.py. *)
Definition main_expected_answer (env : Main.TurnEnv) : list Frame :=
  let reply := main_expected_reply env in
  if negb (truthy reply) then []
  else if (500 <? len reply)%nat
       then [send_json (error "Server error processing audio.")]
       else match main_expected_audio env.(Main.tts) with
            | Some audio => [send_json (ai_audio_response reply audio "ml-IN")]
            | None => [send_json (ai_response reply)]
            end.

(** How that turn leaves the loop body. *)
Definition main_expected_control (env : Main.TurnEnv) : Control :=
  if (500 <? len (main_expected_reply env))%nat then Break else Continue.

(** The reply of a turn of stt_translate.py before translation. *)
Definition stt_expected_reply (env : SttTranslate.TurnEnv) : string :=
  match env.(SttTranslate.llama) with
  | Some response_text => strip (get_default response_text "")
  | None => APOLOGY
  end.

(** The frame that follows the routing event in a turn of stt_translate.py. *)
Definition stt_expected_answer (env : SttTranslate.TurnEnv) : Frame :=
  let translated :=
    SttTranslate.translate_response (stt_expected_reply env) env.(SttTranslate.translate) in
  if truthy (clean_text_for_tts translated) then
    match env.(SttTranslate.tts) with
    | Some audio_base64 =>
        if truthy (get_default audio_base64 "")
        then send_json (ai_audio_response translated (get_default audio_base64 "") "ml-IN")
        else send_json (ai_response translated)
    | None => send_json (ai_response translated)
    end
  else send_json (ai_response "").

(** The entries one [/chat] request adds to the memory of its session: the
    caller's text when it is not blank, then the reply when the completion
    succeeded with a reply that is not blank. *)
Definition turn_entries (user_text : string) (completion : option string)
    : list ChatMessage :=
  ((if truthy user_text then [mkMsg user user_text] else [])
   ++ match completion with
      | Some text => if truthy (strip text) then [mkMsg assistant (strip text)] else []
      | None => []
      end)%list.

(** The emotion a [/chat] answer carries. *)
Definition expected_emotion (user_text : string) (completion : option string) : string :=
  if truthy user_text
  then match completion with
       | Some detected =>
           if existsb (String.eqb (lower (strip detected))) Main.valid_emotions
           then lower (strip detected)
           else "unknown"
       | None => "error"
       end
  else "unknown".

Definition no_trailing_space (x : list ascii) : Prop := no_leading_space (rev x).

(** A character the clean-up keeps: neither a mark of the class [[?!]] nor
    white space. *)
Definition is_word_char (c : ascii) : bool := negb (is_mark c) && negb (isspace c).

(** The message of the [error] event that ends a turn whose STT request
    raised [e]. *)
Definition stt_failure_message (e : exn) : string :=
  match e with
  | RequestException => "STT service connection error."
  | _ => "Server error processing audio."
  end.

(** The assignments a turn still issues once the transcript and the
    department are written. *)
Definition late_assign (a : Assign) : Prop :=
  match a with
  | set_confirmation_given _ | set_status _ | set_last_update_time _ => True
  | _ => False
  end.

(** What the rest of a turn leaves of the row of [sid]: the columns written
    from the caller's words and from the classifier. *)
Definition heard_kept (sid : string) (t t' : gmap string Row) : Prop :=
  forall r, t !! sid = Some r ->
    exists r', t' !! sid = Some r'
      /\ r'.(last_transcript) = r.(last_transcript)
      /\ r'.(detected_language) = r.(detected_language)
      /\ r'.(caller_name) = r.(caller_name)
      /\ r'.(routing_label) = r.(routing_label).

(** The columns of the row after a turn in which the caller said [said]. *)
Definition turn_recorded (result_json : SttBody) (routing : option (option string))
    (s : Session) (said : string) (r r' : Row) : Prop :=
  r'.(last_transcript) = Some said
  /\ r'.(detected_language)
     = match result_json.(stt_language_code) with
       | Some l => if truthy l then Some l else r.(detected_language)
       | None => r.(detected_language)
       end
  /\ r'.(routing_label)
     = match routing with
       | Some forwarded_to => get_default forwarded_to "Unknown"
       | None => r.(routing_label)
       end
  /\ r'.(caller_name)
     = if s.(awaiting_name) && negb s.(caller_name_known)
       then slice_to 255 said else r.(caller_name).

(** The system prompt a request to the dialogue service carries: the
    content of the leading [system] message, or the field
    [system_prompt_override] of the payload. *)
Definition system_prompt_of (q : DialogueRequest) : option string :=
  match q with
  | completion (m :: _) =>
      if bool_decide (m.(role) = system) then Some m.(content) else None
  | completion [] => None
  | llama_payload _ _ system_prompt_override => Some system_prompt_override
  end.





(** A computation whose requests to the dialogue service all satisfy [P]. *)
Definition emits (P : DialogueRequest -> Prop) {A} (c : M A) : Prop :=
  forall w, exists l,
    (c w).1.(dialogue_requests) = (w.(dialogue_requests) ++ l)%list /\ Forall P l.


(** A computation whose results, when it returns, satisfy [Q]. *)
Definition yields {A} (c : M A) (Q : A -> Prop) : Prop :=
  forall w a, (c w).2 = Ok a -> Q a.

(** The loop goes on only with locals that satisfy [I]. *)
Definition goes_on (I : Session -> Prop) (sc : Session * Control) : Prop :=
  sc.2 = Continue -> I sc.1.

(** The row of [sid] keeps the caller's name. *)
Definition name_kept (sid : string) (t t' : gmap string Row) : Prop :=
  forall r, t !! sid = Some r ->
    exists r', t' !! sid = Some r' /\ r'.(caller_name) = r.(caller_name).

(** An assignment to another column than [caller_name]. *)
Definition no_name (a : Assign) : Prop :=
  match a with
  | set_caller_name _ => False
  | _ => True
  end.

(** The locals once the caller's name is known. *)
Definition knows (s : Session) : Prop := s.(caller_name_known) = true.

(** [n] times the Malayalam letter A (U+0D05), three bytes each in UTF-8. *)
Fixpoint letters (n : nat) : string :=
  match n with
  | O => ""
  | S n' => String (ascii_of_nat 224) (String (ascii_of_nat 180)
              (String (ascii_of_nat 133) (letters n')))
  end.

(** * Part II: properties *)

(** ** The text helpers *)
Section Normalisation.

Lemma lstrip_suffix (x : list ascii) : exists p, x = (p ++ lstrip x)%list.
Proof.
  induction x as [|c x IH]; simpl.
  - by exists [].
  - destruct (isspace c).
    + destruct IH as [p Hp]. exists (c :: p). simpl. by rewrite <- Hp.
    + by exists [].
Qed.

Lemma rstrip_prefix (x : list ascii) : exists t, x = (rstrip x ++ t)%list.
Proof.
  unfold rstrip. destruct (lstrip_suffix (rev x)) as [p Hp].
  exists (rev p). rewrite <- rev_app_distr, <- Hp. by rewrite rev_involutive.
Qed.

Lemma lstrip_no_leading_space x : no_leading_space (lstrip x).
Proof.
  induction x as [|c x IH]; simpl; [done|].
  destruct (isspace c) eqn:E; [done|]. simpl. done.
Qed.

Lemma lstrip_fixed x : no_leading_space x -> lstrip x = x.
Proof. destruct x as [|c x]; simpl; [done|]. by intros ->. Qed.

Lemma lstrip_idem x : lstrip (lstrip x) = lstrip x.
Proof. apply lstrip_fixed, lstrip_no_leading_space. Qed.

Lemma rstrip_idem x : rstrip (rstrip x) = rstrip x.
Proof. unfold rstrip. by rewrite rev_involutive, lstrip_idem. Qed.

Lemma rstrip_no_leading_space x : no_leading_space x -> no_leading_space (rstrip x).
Proof.
  destruct (rstrip_prefix x) as [t Ht]. revert Ht.
  destruct (rstrip x) as [|c y]; [done|].
  intros ->. simpl. done.
Qed.

(** [sub_marks] deletes exactly the characters of the class. *)
Lemma sub_marks_filter b x :
  sub_runs is_mark [] b x = List.filter (fun c => negb (is_mark c)) x.
Proof.
  revert b. induction x as [|c x IH]; intros b; simpl; [done|].
  destruct (is_mark c); simpl.
  - destruct b; apply IH.
  - by rewrite IH.
Qed.

Lemma sub_marks_mark_free x : mark_free (sub_marks x).
Proof.
  unfold sub_marks, mark_free. rewrite sub_marks_filter.
  induction x as [|c x IH]; simpl; [constructor|].
  destruct (is_mark c) eqn:E; simpl; [done|]. by constructor.
Qed.

Lemma sub_marks_fixed x : mark_free x -> sub_marks x = x.
Proof.
  unfold sub_marks, mark_free. rewrite sub_marks_filter.
  induction 1 as [|c x Hc _ IH]; simpl; [done|].
  by rewrite Hc, IH.
Qed.

Lemma sub_spaces_mark_free b x :
  mark_free x -> mark_free (sub_runs isspace [" "%char] b x).
Proof.
  unfold mark_free. intros H. revert b.
  induction H as [|c x Hc _ IH]; intros b; simpl; [constructor|].
  destruct (isspace c).
  - destruct b; [apply IH|]. simpl. constructor; [done|apply IH].
  - constructor; [done|apply IH].
Qed.

Lemma lstrip_mark_free x : mark_free x -> mark_free (lstrip x).
Proof.
  unfold mark_free. destruct (lstrip_suffix x) as [p Hp].
  intros H. rewrite Hp in H. by apply Forall_app in H as [_ ?].
Qed.

Lemma rstrip_mark_free x : mark_free x -> mark_free (rstrip x).
Proof.
  unfold mark_free. destruct (rstrip_prefix x) as [p Hp].
  intros H. rewrite Hp in H. by apply Forall_app in H as [? _].
Qed.

Lemma sub_spaces_collapsed b x :
  collapsed (sub_runs isspace [" "%char] b x)
  /\ (b = true -> no_leading_space (sub_runs isspace [" "%char] b x)).
Proof.
  revert b. induction x as [|c x IH]; intros b; simpl; [done|].
  destruct (isspace c) eqn:E.
  - destruct b.
    + apply IH.
    + split; [|done]. simpl. destruct (IH true) as [H1 H2]. split; [|done].
      intros _. split; [done|]. by apply H2.
  - simpl. split; [|done]. split; [by rewrite E|]. apply IH.
Qed.

Lemma sub_spaces_fixed x : collapsed x -> sub_spaces x = x.
Proof.
  unfold sub_spaces.
  induction x as [|c x IH]; simpl; [done|].
  intros [Hc Hx]. destruct (isspace c) eqn:E.
  - destruct (Hc eq_refl) as [-> Hy]. simpl. f_equal.
    destruct x as [|d x]; simpl in *; [done|].
    rewrite Hy. f_equal. specialize (IH Hx). rewrite Hy in IH. by injection IH.
  - f_equal. by apply IH.
Qed.

Lemma collapsed_app x y : collapsed (x ++ y) -> collapsed x /\ collapsed y.
Proof.
  induction x as [|c x IH]; simpl; [done|].
  intros [Hc Hx]. destruct (IH Hx) as [H1 H2]. split; [|done]. split; [|done].
  intros Hs. destruct (Hc Hs) as [-> Hn]. split; [done|].
  destruct x; simpl in *; done.
Qed.

Lemma lstrip_collapsed x : collapsed x -> collapsed (lstrip x).
Proof.
  destruct (lstrip_suffix x) as [p Hp]. intros H. rewrite Hp in H.
  by apply collapsed_app in H as [_ ?].
Qed.

Lemma rstrip_collapsed x : collapsed x -> collapsed (rstrip x).
Proof.
  destruct (rstrip_prefix x) as [p Hp]. intros H. rewrite Hp in H.
  by apply collapsed_app in H as [? _].
Qed.

Lemma normalise_idem x : normalise (normalise x) = normalise x.
Proof.
  unfold normalise at 1.
  assert (Hm : mark_free (normalise x)).
  { apply rstrip_mark_free, lstrip_mark_free, sub_spaces_mark_free, sub_marks_mark_free. }
  assert (Hc : collapsed (normalise x)).
  { apply rstrip_collapsed, lstrip_collapsed, sub_spaces_collapsed. }
  assert (Hl : no_leading_space (normalise x)).
  { apply rstrip_no_leading_space, lstrip_no_leading_space. }
  rewrite (sub_marks_fixed _ Hm), (sub_spaces_fixed _ Hc), (lstrip_fixed _ Hl).
  apply rstrip_idem.
Qed.

End Normalisation.

(** C9: the clean-up of the text handed to speech synthesis (marks [?] and
    [!] removed, white space collapsed, ends trimmed) is a function of its
    input and is idempotent: cleaning a cleaned text changes nothing. *)
Theorem clean_text_for_tts_idempotent (text : string) :
  clean_text_for_tts (clean_text_for_tts text) = clean_text_for_tts text.
Proof.
  unfold clean_text_for_tts at 2 3.
  destruct (truthy text) eqn:E.
  - fold (normalise (list_ascii_of_string text)).
    unfold clean_text_for_tts.
    destruct (truthy (string_of_list_ascii (normalise (list_ascii_of_string text))));
      [|reflexivity].
    rewrite list_ascii_of_string_of_list_ascii.
    fold (normalise (normalise (list_ascii_of_string text))).
    by rewrite normalise_idem.
  - unfold clean_text_for_tts. by rewrite E.
Qed.

(** ** The store helper *)

Ltac run_monad :=
  cbv beta iota zeta delta [bind try_except try_finally ret raise modify gets] in *.

Lemma update_call_data_never_raises session_id data w :
  (update_call_data session_id data w).2 = Ok tt.
Proof.
  unfold update_call_data, logger_error, modify, ret, bind, try_except, datetime_now, db_run.
  repeat (case_match; simpl in *; simplify_eq); try done; by destruct u.
Qed.

Lemma fold_assign_last_update_time data now r :
  (fold_left assign (data ++ [set_last_update_time now]) r).(last_update_time) = now.
Proof. by rewrite fold_left_app. Qed.

Lemma update_call_data_healthy session_id data w :
  store_healthy w -> data <> [] ->
  update_call_data session_id data w =
    (with_rows (fun _ => (sql_update session_id
                            (data ++ [set_last_update_time w.(clock)]) w.(rows)).1)
               (with_clock (w.(clock) + 1) w), Ok tt).
Proof.
  intros [Hp Hf] Hd. unfold update_call_data, datetime_now, db_run. run_monad.
  rewrite Hp. simpl. rewrite bool_decide_eq_false_2 by done. simpl.
  rewrite Hp, Hf. simpl. by destruct (sql_update _ _ _) as [t []].
Qed.

(** A call with a non-empty field set on a healthy store stamps the row. *)
Lemma update_call_data_stamps session_id data w r :
  store_healthy w -> data <> [] -> w.(rows) !! session_id = Some r ->
  last_update_time <$> (update_call_data session_id data w).1.(rows) !! session_id
  = Some w.(clock).
Proof.
  intros Hh Hd Hr. rewrite update_call_data_healthy by done. simpl.
  unfold sql_update. rewrite Hr. simpl. rewrite lookup_insert_eq. simpl.
  by rewrite fold_assign_last_update_time.
Qed.

(** C5: [update_call_data] with an empty field set returns before anything
    is written: the table (hence [last_update_time] of the session row) and
    the clock are what they were, although the call site reads
    [update_call_data(session_id, {})  # Update timestamp]. *)
Theorem update_call_data_empty_is_noop (session_id : string) (w : World) :
  (update_call_data session_id [] w).1.(rows) = w.(rows)
  /\ (update_call_data session_id [] w).1.(clock) = w.(clock)
  /\ (update_call_data session_id [] w).2 = Ok tt.
Proof.
  unfold update_call_data. rewrite bool_decide_eq_true_2 by done.
  rewrite orb_true_r. destruct (negb (db_pool w)); done.
Qed.

Lemma update_call_data_healthy_after session_id data w :
  store_healthy w -> store_healthy (update_call_data session_id data w).1.
Proof.
  intros Hh. destruct (decide (data = [])) as [->|Hd].
  - destruct Hh as [Hp Hf]. unfold update_call_data. rewrite Hp. simpl. by split.
  - rewrite update_call_data_healthy by done. by destruct Hh.
Qed.

(** ** Takeover *)

Lemma takeover_lookup session_id w :
  store_healthy w ->
  takeover_call_endpoint session_id w =
    match w.(rows) !! session_id with
    | None => (w, Raise (HTTPException 404))
    | Some r =>
        if bool_decide (r.(status) <> Active) then (w, Raise (HTTPException 400))
        else update_call_data session_id [set_handled_by Human] w
    end.
Proof.
  intros [Hp Hf]. unfold takeover_call_endpoint, db_run, sql_fetch. run_monad.
  rewrite Hp, Hf. simpl.
  assert (Hw : with_rows (fun _ => rows w) w = w) by by destruct w.
  rewrite Hw.
  destruct (rows w !! session_id) as [r|]; simpl; [|done].
  destruct (bool_decide (status r <> Active)); [done|].
  pose proof (update_call_data_never_raises session_id [set_handled_by Human] w) as Hn.
  destruct (update_call_data session_id [set_handled_by Human] w) as [w' res].
  simpl in Hn. by rewrite Hn.
Qed.

Lemma takeover_active session_id w r :
  store_healthy w -> w.(rows) !! session_id = Some r -> r.(status) = Active ->
  let w' := (takeover_call_endpoint session_id w).1 in
  (takeover_call_endpoint session_id w).2 = Ok tt
  /\ store_healthy w'
  /\ exists r', w'.(rows) !! session_id = Some r'
                /\ r'.(handled_by) = Human /\ r'.(status) = Active.
Proof.
  intros Hh Hr Hs. rewrite takeover_lookup by done. rewrite Hr, Hs.
  rewrite bool_decide_eq_false_2 by (intros H; by apply H).
  split; [apply update_call_data_never_raises|].
  split; [by apply update_call_data_healthy_after|].
  rewrite update_call_data_healthy by done. simpl.
  unfold sql_update. rewrite Hr. simpl. rewrite lookup_insert_eq.
  eexists. split; [done|]. by simpl.
Qed.

(** C8: with the store at work, takeover answers 404 for a session without a
    row and 400 for a session whose status is not Active; for an Active
    session it answers without error and leaves [handled_by = Human], and so
    does a second takeover of the same, still Active, session. *)
Theorem takeover_contract (session_id : string) (w : World) :
  store_healthy w ->
  (w.(rows) !! session_id = None ->
     takeover_call_endpoint session_id w = (w, Raise (HTTPException 404)))
  /\ (forall r, w.(rows) !! session_id = Some r -> r.(status) <> Active ->
        takeover_call_endpoint session_id w = (w, Raise (HTTPException 400)))
  /\ (forall r, w.(rows) !! session_id = Some r -> r.(status) = Active ->
        let once := takeover_call_endpoint session_id w in
        let twice := takeover_call_endpoint session_id once.1 in
        once.2 = Ok tt
        /\ handled_by <$> once.1.(rows) !! session_id = Some Human
        /\ status <$> once.1.(rows) !! session_id = Some Active
        /\ twice.2 = Ok tt
        /\ handled_by <$> twice.1.(rows) !! session_id = Some Human
        /\ status <$> twice.1.(rows) !! session_id = Some Active).
Proof.
  intros Hh. split; [|split].
  - intros Hr. rewrite takeover_lookup by done. by rewrite Hr.
  - intros r Hr Hs. rewrite takeover_lookup by done. rewrite Hr.
    by rewrite bool_decide_eq_true_2.
  - intros r Hr Hs once twice.
    destruct (takeover_active session_id w r Hh Hr Hs) as (H1 & Hh1 & r1 & Hr1 & Hb1 & Hs1).
    fold once in H1, Hh1, Hr1.
    destruct (takeover_active session_id once.1 r1 Hh1 Hr1 Hs1)
      as (H2 & _ & r2 & Hr2 & Hb2 & Hs2).
    fold twice in H2, Hr2.
    rewrite Hr1, Hr2. simpl. by rewrite Hb1, Hs1, Hb2, Hs2.
Qed.

(** The contract at work on [world_S1]. *)
Lemma takeover_contract_witness :
  store_healthy world_S1
  /\ takeover_call_endpoint "S9" world_S1 = (world_S1, Raise (HTTPException 404))
  /\ handled_by <$> (takeover_call_endpoint "S1" world_S1).1.(rows) !! "S1" = Some Human.
Proof.
  assert (Hh : store_healthy world_S1) by (split; reflexivity).
  split; [exact Hh|]. split.
  - apply (takeover_contract "S9" world_S1 Hh). reflexivity.
  - apply (proj2 (proj2 (takeover_contract "S1" world_S1 Hh)) active_row); reflexivity.
Defined.

(** ** The chat services *)

Lemma detected_emotion_allowed d :
  existsb (String.eqb d) Main.valid_emotions = true -> In d emotion_labels.
Proof.
  intros H. apply existsb_exists in H as (x & Hx & Heq).
  apply String.eqb_eq in Heq as ->. unfold emotion_labels. apply in_or_app. by left.
Qed.

Lemma main_chat_emotion groq request w w' resp :
  Main.chat groq request w = (w', Ok resp) -> In resp.(Main.emotion) emotion_labels.
Proof.
  unfold Main.chat, Main.memory_append, Main.completions_create, ask_dialogue. run_monad.
  intros H.
  repeat (case_match; run_monad; simplify_eq);
    first [ by apply detected_emotion_allowed
          | unfold emotion_labels; apply in_or_app; right; simpl; tauto ].
Qed.

Lemma response_chat_emotion groq request w w' resp :
  Response.chat groq request w = (w', Ok resp) -> In resp.(Main.emotion) emotion_labels.
Proof.
  unfold Response.chat, Main.memory_append, Main.completions_create, ask_dialogue. run_monad.
  intros H.
  repeat (case_match; run_monad; simplify_eq);
    first [ by apply detected_emotion_allowed
          | unfold emotion_labels; apply in_or_app; right; simpl; tauto ].
Qed.

Lemma main_chat_succeeds groq request text w :
  groq.(Main.chat_completion) = Some text ->
  exists w' resp, Main.chat groq request w = (w', Ok resp)
                  /\ resp.(Main.response_text) = strip text.
Proof.
  intros Hc. unfold Main.chat, Main.memory_append, Main.completions_create, ask_dialogue.
  rewrite Hc. run_monad.
  repeat (case_match; run_monad; simplify_eq); eauto.
Qed.

Lemma response_chat_succeeds groq request text w :
  groq.(Main.chat_completion) = Some text ->
  exists w' resp, Response.chat groq request w = (w', Ok resp)
                  /\ resp.(Main.response_text) = strip text.
Proof.
  intros Hc. unfold Response.chat, Main.memory_append, Main.completions_create, ask_dialogue.
  rewrite Hc. run_monad.
  repeat (case_match; run_monad; simplify_eq); eauto.
Qed.

(** C10: whenever [/chat] answers, the [emotion] of the answer is one of the
    ten labels of the prompt, [unknown] or [error]; and the request answers
    as soon as the dialogue completion itself succeeds, whatever happens to
    the emotion-detection call.  Both chat services behave so. *)
Theorem chat_emotion_label groq request w :
  (forall w' resp, Main.chat groq request w = (w', Ok resp) ->
                   In resp.(Main.emotion) emotion_labels)
  /\ (forall w' resp, Response.chat groq request w = (w', Ok resp) ->
                      In resp.(Main.emotion) emotion_labels)
  /\ (forall text, groq.(Main.chat_completion) = Some text ->
        (exists w' resp, Main.chat groq request w = (w', Ok resp))
        /\ (exists w' resp, Response.chat groq request w = (w', Ok resp))).
Proof.
  split; [|split].
  - intros w' resp. apply main_chat_emotion.
  - intros w' resp. apply response_chat_emotion.
  - intros text Hc. split.
    + destruct (main_chat_succeeds groq request text w Hc) as (w' & resp & H & _). eauto.
    + destruct (response_chat_succeeds groq request text w Hc) as (w' & resp & H & _). eauto.
Qed.

(** A chat whose emotion detection fails still answers, with a label of the
    list. *)
Lemma chat_emotion_label_witness :
  exists w' resp,
    Main.chat (Main.mkGroq (Some "Where are you?") None)
              (Main.mkChatRequest "S1" "Help" None) world_S1 = (w', Ok resp)
    /\ In resp.(Main.emotion) emotion_labels.
Proof.
  destruct (chat_emotion_label (Main.mkGroq (Some "Where are you?") None)
              (Main.mkChatRequest "S1" "Help" None) world_S1) as (H1 & _ & H3).
  destruct (H3 "Where are you?" eq_refl) as [(w' & resp & H) _].
  exists w', resp. split; [exact H|exact (H1 w' resp H)].
Defined.

(** ** Steps of a running connection *)

Lemma evolves_refl w : evolves w w.
Proof.
  split; try done.
  - exists []. by rewrite app_nil_r.
  - intros sid r Hr. by exists r.
Qed.

Lemma evolves_trans w1 w2 w3 : evolves w1 w2 -> evolves w2 w3 -> evolves w1 w3.
Proof.
  intros [p1 d1 f1 [l1 s1] r1] [p2 d2 f2 [l2 s2] r2]. split.
  - congruence.
  - auto.
  - auto.
  - exists (l1 ++ l2)%list. by rewrite s2, s1, app_assoc.
  - intros sid r Hr. destruct (r1 sid r Hr) as (r' & Hr' & Hh).
    destruct (r2 sid r' Hr') as (r'' & Hr'' & Hh'). exists r''. split; auto.
Qed.

Lemma respects_ret {A} (a : A) : respects (ret a).
Proof. intros w. apply evolves_refl. Qed.

Lemma respects_raise {A} e : respects (@raise A e).
Proof. intros w. apply evolves_refl. Qed.

Lemma respects_gets {A} (f : World -> A) : respects (gets f).
Proof. intros w. apply evolves_refl. Qed.

Lemma respects_bind {A B} (c : M A) (k : A -> M B) :
  respects c -> (forall a, respects (k a)) -> respects (bind c k).
Proof.
  intros Hc Hk w. unfold bind. specialize (Hc w).
  destruct (c w) as [w' [a|e]]; simpl in *; [|done].
  eapply evolves_trans; [exact Hc|apply Hk].
Qed.

Lemma respects_try_except {A} (c : M A) (h : exn -> M A) :
  respects c -> (forall e, respects (h e)) -> respects (try_except c h).
Proof.
  intros Hc Hh w. unfold try_except. specialize (Hc w).
  destruct (c w) as [w' [a|e]]; simpl in *; [done|].
  eapply evolves_trans; [exact Hc|apply Hh].
Qed.

Lemma respects_try_finally {A} (c : M A) (f : M unit) :
  respects c -> respects f -> respects (try_finally c f).
Proof.
  intros Hc Hf w. unfold try_finally. specialize (Hc w).
  destruct (c w) as [w' r]. specialize (Hf w').
  destruct (f w') as [w'' [u|e]]; simpl in *; by eapply evolves_trans.
Qed.

Lemma evolves_same_rows w w' l :
  w'.(db_pool) = w.(db_pool) -> w'.(rows) = w.(rows) ->
  (w.(db_faults) = [] -> w'.(db_faults) = []) ->
  (w.(ws_faults) = [] -> w'.(ws_faults) = []) ->
  w'.(sent) = (w.(sent) ++ l)%list ->
  evolves w w'.
Proof.
  intros Hp Hr Hd Hw Hs. split; try done.
  - by exists l.
  - intros sid r Hsid. exists r. by rewrite Hr.
Qed.

Lemma respects_datetime_now : respects datetime_now.
Proof. intros w. apply (evolves_same_rows _ _ []); simpl; try done. by rewrite app_nil_r. Qed.

Lemma respects_ws_op f : respects (ws_op f).
Proof.
  intros w. unfold ws_op.
  destruct (ws_faults w) as [|[x|] rest] eqn:E; simpl.
  - by apply (evolves_same_rows _ _ [f]).
  - apply (evolves_same_rows _ _ []); simpl;
      try done; try congruence; try (by rewrite app_nil_r).
  - apply (evolves_same_rows _ _ [f]); simpl; try done; congruence.
Qed.

Lemma respects_logger_error l : respects (logger_error l).
Proof. intros w. apply (evolves_same_rows _ _ []); simpl; try done. by rewrite app_nil_r. Qed.

Lemma respects_with_chat_memory f : respects (modify (with_chat_memory f)).
Proof. intros w. apply (evolves_same_rows _ _ []); simpl; try done. by rewrite app_nil_r. Qed.

Lemma respects_ask_dialogue q : respects (ask_dialogue q).
Proof. intros w. apply (evolves_same_rows _ _ []); simpl; try done. by rewrite app_nil_r. Qed.

Lemma respects_db_run {A} (f : gmap string Row -> gmap string Row * A) :
  (forall t, table_step t (f t).1) -> respects (db_run f).
Proof.
  intros Hf w. unfold db_run.
  destruct (negb (db_pool w)); [apply evolves_refl|].
  specialize (Hf (rows w)).
  destruct (db_faults w) as [|[|] rest] eqn:E; try destruct (f (rows w)) as [t a];
    simpl in *.
  - split; simpl; try done. exists []. by rewrite app_nil_r.
  - apply (evolves_same_rows _ _ []); simpl;
      try done; try congruence; try (by rewrite app_nil_r).
  - split; simpl; try done; try congruence.
    exists []. symmetry. apply app_nil_r.
Qed.

Lemma sql_fetch_step {A} sid (col : Row -> A) t : table_step t (sql_fetch sid col t).1.
Proof. intros s r Hr. by exists r. Qed.

Lemma fold_assign_keeps_human data r :
  Forall keeps_human data -> r.(handled_by) = Human ->
  (fold_left assign data r).(handled_by) = Human.
Proof.
  intros H. revert r. induction H as [|a data Ha _ IH]; intros r Hr; simpl; [done|].
  apply IH. by destruct a as [| | | | | |[]|].
Qed.

Lemma sql_update_step sid data t :
  Forall keeps_human data -> table_step t (sql_update sid data t).1.
Proof.
  intros Hd s r Hr. unfold sql_update.
  destruct (t !! sid) as [r0|] eqn:E; simpl; [|by exists r].
  destruct (decide (sid = s)) as [->|Hne].
  - rewrite lookup_insert_eq. eexists. split; [done|].
    assert (r0 = r) as -> by congruence. by apply fold_assign_keeps_human.
  - rewrite lookup_insert_ne by done. by exists r.
Qed.

Lemma respects_update_call_data sid data :
  Forall keeps_human data -> respects (update_call_data sid data).
Proof.
  intros Hd w. unfold update_call_data.
  destruct (negb (db_pool w) || bool_decide (data = [])).
  - destruct (negb (db_pool w)); [apply respects_logger_error|apply respects_ret].
  - apply respects_bind; [apply respects_datetime_now|intros now].
    apply respects_try_except; [|intros; apply respects_logger_error].
    apply respects_db_run. intros t. apply sql_update_step.
    apply Forall_app. split; [done|]. by repeat constructor.
Qed.

(** Proves [respects c] for code put together from the primitives. *)
Ltac respects_step :=
  lazymatch goal with
  | |- respects (ret _) => apply respects_ret
  | |- respects (raise _) => apply respects_raise
  | |- respects (gets _) => apply respects_gets
  | |- respects (bind _ _) => apply respects_bind; [|intros ?]
  | |- respects (try_except _ _) => apply respects_try_except; [|intros ?]
  | |- respects (try_finally _ _) => apply respects_try_finally
  | |- respects datetime_now => apply respects_datetime_now
  | |- respects (ws_op _) => apply respects_ws_op
  | |- respects (ws_send _) => apply respects_ws_op
  | |- respects (ws_close _) => apply respects_ws_op
  | |- respects ws_accept => apply respects_ws_op
  | |- respects (logger_error _) => apply respects_logger_error
  | |- respects (modify (with_chat_memory _)) => apply respects_with_chat_memory
  | |- respects (ask_dialogue _) => apply respects_ask_dialogue
  | |- respects (db_run (sql_fetch _ _)) =>
      apply respects_db_run; intros ?; apply sql_fetch_step
  | |- respects (update_call_data _ _) =>
      apply respects_update_call_data;
      repeat case_match; repeat constructor; done
  | |- respects (match ?x with _ => _ end) => destruct x
  | |- respects (let _ := _ in _) => cbv zeta
  end.
Ltac respects_auto := repeat respects_step.

Lemma respects_main_chat groq request : respects (Main.chat groq request).
Proof.
  unfold Main.chat, Main.memory_append, Main.completions_create. cbv zeta.
  respects_auto.
Qed.

Lemma respects_response_chat groq request : respects (Response.chat groq request).
Proof.
  unfold Response.chat, Main.memory_append, Main.completions_create. cbv zeta.
  respects_auto.
Qed.

Lemma respects_main_determine_prompt sid label s :
  respects (Main.determine_prompt sid label s).
Proof. unfold Main.determine_prompt. respects_auto. Qed.

Lemma respects_main_respond sid text provider :
  respects (Main.respond sid text provider).
Proof.
  unfold Main.respond, Main.TTSRequest, Main.synthesize_speech. respects_auto.
Qed.

Lemma respects_main_process_stt sid result_json s :
  respects (Main.process_stt sid result_json s).
Proof. unfold Main.process_stt. respects_auto. Qed.

Lemma respects_main_stages_after_stt sid env said s :
  respects (Main.stages_after_stt sid env said s).
Proof.
  unfold Main.stages_after_stt.
  repeat first [ apply respects_main_chat | apply respects_main_determine_prompt
               | apply respects_main_respond | respects_step ].
Qed.

Lemma respects_main_process_audio sid env s :
  respects (Main.process_audio sid env s).
Proof.
  unfold Main.process_audio.
  repeat first [ apply respects_main_process_stt | apply respects_main_stages_after_stt
               | respects_step ].
Qed.

Lemma respects_main_loop_iteration sid message s :
  respects (Main.loop_iteration sid message s).
Proof.
  unfold Main.loop_iteration, Main.on_bytes.
  repeat first [ apply respects_main_process_audio | respects_step ].
Qed.

Lemma respects_stt_determine_prompt sid label s :
  respects (SttTranslate.determine_prompt sid label s).
Proof. unfold SttTranslate.determine_prompt. respects_auto. Qed.

Lemma respects_stt_respond sid translated text answer :
  respects (SttTranslate.respond sid translated text answer).
Proof. unfold SttTranslate.respond. respects_auto. Qed.

Lemma respects_stt_process_stt sid result_json s :
  respects (SttTranslate.process_stt sid result_json s).
Proof. unfold SttTranslate.process_stt. respects_auto. Qed.

Lemma respects_stt_stages_after_stt sid env said s :
  respects (SttTranslate.stages_after_stt sid env said s).
Proof.
  unfold SttTranslate.stages_after_stt.
  repeat first [ apply respects_stt_determine_prompt
               | apply respects_stt_respond | respects_step ].
Qed.

Lemma respects_stt_process_audio sid env s :
  respects (SttTranslate.process_audio sid env s).
Proof.
  unfold SttTranslate.process_audio.
  repeat first [ apply respects_stt_process_stt | apply respects_stt_stages_after_stt
               | respects_step ].
Qed.

Lemma respects_stt_loop_iteration sid message s :
  respects (SttTranslate.loop_iteration sid message s).
Proof.
  unfold SttTranslate.loop_iteration, SttTranslate.on_bytes.
  repeat first [ apply respects_stt_process_audio | respects_step ].
Qed.

Lemma respects_main_main_loop sid traffic s :
  respects (Main.main_loop sid traffic s).
Proof.
  revert s. induction traffic as [|message rest IH]; intros s; simpl.
  - repeat first [ apply respects_main_loop_iteration | respects_step ].
  - apply respects_bind; [apply respects_main_loop_iteration|intros [s' []]]; simpl.
    + apply IH.
    + apply respects_ret.
Qed.

Lemma respects_stt_main_loop sid traffic s :
  respects (SttTranslate.main_loop sid traffic s).
Proof.
  revert s. induction traffic as [|message rest IH]; intros s; simpl.
  - repeat first [ apply respects_stt_loop_iteration | respects_step ].
  - apply respects_bind; [apply respects_stt_loop_iteration|intros [s' []]]; simpl.
    + apply IH.
    + apply respects_ret.
Qed.

Lemma respects_takeover sid : respects (takeover_call_endpoint sid).
Proof.
  intros w. unfold takeover_call_endpoint.
  destruct (negb (db_pool w)); [apply evolves_refl|].
  revert w. change (respects
    (try_except
       (current_status <- db_run (sql_fetch sid status) ;;
        match current_status with
        | None => raise (HTTPException 404)
        | Some st =>
            if bool_decide (st <> Active) then raise (HTTPException 400)
            else update_call_data sid [set_handled_by Human]
        end)
       (fun e => match e with
                 | HTTPException c => raise (HTTPException c)
                 | _ => raise (HTTPException 500)
                 end))).
  respects_auto.
Qed.

(** ** The takeover gate *)

Lemma evolves_run w o : evolves w (run w o).
Proof.
  destruct o; simpl.
  - apply respects_main_loop_iteration.
  - apply respects_stt_loop_iteration.
  - apply respects_takeover.
  - apply respects_main_chat.
  - apply respects_response_chat.
  - apply respects_update_call_data. by repeat constructor.
Qed.

Lemma evolves_run_all ops w : evolves w (run_all ops w).
Proof.
  revert w. induction ops as [|o ops IH]; intros w; simpl.
  - apply evolves_refl.
  - eapply evolves_trans; [apply evolves_run|apply IH].
Qed.

Lemma evolves_keeps_human w w' session_id :
  evolves w w' ->
  handled_by <$> w.(rows) !! session_id = Some Human ->
  handled_by <$> w'.(rows) !! session_id = Some Human.
Proof.
  intros He Hh. destruct (w.(rows) !! session_id) as [r|] eqn:Hr; [|done].
  simpl in Hh. destruct (ev_rows _ _ He _ _ Hr) as (r' & -> & Hk). simpl.
  f_equal. apply Hk. congruence.
Qed.

Lemma db_fetch_healthy {A} session_id (col : Row -> A) w :
  store_healthy w ->
  db_run (sql_fetch session_id col) w = (w, Ok (col <$> w.(rows) !! session_id)).
Proof.
  intros [Hp Hf]. unfold db_run, sql_fetch. rewrite Hp, Hf. simpl. by destruct w.
Qed.

(** With [handled_by = Human] in the row the audio unit is dropped. *)
Lemma main_gate_closed session_id env s w :
  store_healthy w -> handled_by <$> w.(rows) !! session_id = Some Human ->
  exists s', Main.loop_iteration session_id (recv_bytes env) s w = (w, Ok (s', Continue)).
Proof.
  intros Hh Hr. unfold Main.loop_iteration, Main.on_bytes, Main.process_audio.
  run_monad. rewrite db_fetch_healthy by done. rewrite Hr. simpl. eauto.
Qed.

Lemma stt_gate_closed session_id env s w :
  store_healthy w -> handled_by <$> w.(rows) !! session_id = Some Human ->
  exists s', SttTranslate.loop_iteration session_id (recv_bytes env) s w
             = (w, Ok (s', Continue)).
Proof.
  intros Hh Hr.
  unfold SttTranslate.loop_iteration, SttTranslate.on_bytes, SttTranslate.process_audio.
  run_monad. rewrite db_fetch_healthy by done. rewrite Hr. simpl. eauto.
Qed.

(** C2, as the code has it: once [handled_by] of a session is Human, no
    operation on open connections (loop iterations of any session, takeover,
    chat, the final clean-up) makes it AI again, and an audio unit of that
    session is dropped at the gate without any frame to the caller.  The
    upsert that opens a connection is not among these operations: it resets
    [handled_by] to AI. *)
Theorem handled_by_human_is_kept (session_id : string) (ops : list Operation) (w : World) :
  handled_by <$> w.(rows) !! session_id = Some Human ->
  handled_by <$> (run_all ops w).(rows) !! session_id = Some Human
  /\ (store_healthy w -> forall s,
        (forall env, exists s',
           Main.loop_iteration session_id (recv_bytes env) s w = (w, Ok (s', Continue)))
        /\ (forall env, exists s',
              SttTranslate.loop_iteration session_id (recv_bytes env) s w
              = (w, Ok (s', Continue)))).
Proof.
  intros Hh. split.
  - eapply evolves_keeps_human; [apply evolves_run_all|done].
  - intros Hs s. split; intros env.
    + by apply main_gate_closed.
    + by apply stt_gate_closed.
Qed.

(** After a takeover of [S1], more audio, a second takeover and the end of
    the call leave the handler as it is. *)
Lemma handled_by_human_is_kept_witness :
  let w := (takeover_call_endpoint "S1" world_S1).1 in
  handled_by <$>
    (run_all [main_iteration "S1" (recv_bytes (main_turn "Help" "Fire Department" "Hello"))
                (mkSession false false false AI []);
              takeover "S1"; end_of_call "S1"] w).(rows) !! "S1" = Some Human.
Proof.
  apply (handled_by_human_is_kept "S1"). vm_compute. reflexivity.
Defined.

(** C2 as stated fails: a call that an operator has taken over is handed
    back to the AI when its [session_id] connects again, and the pipeline
    answers the next audio unit. *)
Lemma reconnection_resets_handler :
  let taken_over := (takeover_call_endpoint "S1" world_S1).1 in
  let reconnected :=
    (Main.call_endpoint "S1"
       [recv_bytes (main_turn "Help" "Fire Department" "Hello")] taken_over).1 in
  let reconnected' :=
    (SttTranslate.call_endpoint "S1"
       [recv_bytes (stt_turn "Help" "Fire Department" "Hello")] taken_over).1 in
  handled_by <$> taken_over.(rows) !! "S1" = Some Human
  /\ handled_by <$> reconnected.(rows) !! "S1" = Some AI
  /\ reconnected.(sent) =
       [accept; send_json (transcript "Help"); send_json (routing_info "Fire Department");
        send_json (ai_audio_response "Hello" "UklGRg" "ml-IN")]
  /\ handled_by <$> reconnected'.(rows) !! "S1" = Some AI
  /\ reconnected'.(sent) =
       [accept; send_json (transcript "Help"); send_json (routing_info "Fire Department");
        send_json (ai_audio_response "Hello" "UklGRg" "ml-IN")].
Proof. vm_compute. repeat split; reflexivity. Qed.

(** ** Dialogue phases *)

Lemma string_app_cons c (a b : string) : String c a ++ b = String c (a ++ b).
Proof. reflexivity. Qed.


Lemma main_name_capture session_id label s w :
  s.(caller_name_known) = false ->
  Main.determine_prompt session_id label s w
  = (w, Ok (INITIAL_SYSTEM_PROMPT, NameCapture, with_awaiting_name true s)).
Proof.
  intros H. unfold Main.determine_prompt. destruct s; simpl in *; subst. reflexivity.
Qed.

Lemma stt_name_capture session_id label s w :
  s.(caller_name_known) = false ->
  (s.(chat_history) = [] \/ exists text, s.(chat_history) = [mkMsg user text]) ->
  SttTranslate.determine_prompt session_id label s w
  = (w, Ok (INITIAL_SYSTEM_PROMPT, NameCapture, with_awaiting_name true s)).
Proof.
  intros Hn Hh. unfold SttTranslate.determine_prompt, SttTranslate.first_turn.
  destruct s; simpl in *; subst. by destruct Hh as [->|[text ->]].
Qed.

Lemma stt_later_turn session_id label s w :
  (1 < length s.(chat_history))%nat ->
  exists prompt phase s',
    (SttTranslate.determine_prompt session_id label s w).2 = Ok (prompt, phase, s')
    /\ phase <> NameCapture /\ s'.(awaiting_name) = false.
Proof.
  intros Hl. unfold SttTranslate.determine_prompt, SttTranslate.first_turn.
  destruct (chat_history s) as [|m [|m' h]]; simpl in Hl; [lia|lia|].
  cbv zeta. cbn [awaiting_name confirmation_given_this_session].
  destruct (truthy label && not_in_labels label
            && negb (confirmation_given_this_session s)).
  - unfold bind.
    pose proof (update_call_data_never_raises session_id [set_confirmation_given true] w) as Hu.
    destruct (update_call_data session_id [set_confirmation_given true] w) as [w' r].
    simpl in Hu. subst r. simpl. eauto 10.
  - simpl. eauto 10.
Qed.







(** Persistence is best effort: when the store refuses the write the
    confirmation prompt still goes out and the row keeps
    [confirmation_given = false]. *)
Lemma confirmation_write_can_be_lost :
  let s := mkSession false false true AI [] in
  let refusing := with_db_faults [true] world_S1 in
  (Main.determine_prompt "S1" "Fire Department" s refusing).2
  = Ok (Main.create_confirmation_system_prompt "Fire Department", Confirmation,
        with_confirmation_given s)
  /\ confirmation_given <$>
       (Main.determine_prompt "S1" "Fire Department" s refusing).1.(rows) !! "S1"
     = Some false.
Proof. vm_compute. repeat split; reflexivity. Qed.

(** ** Stages of a turn *)

Lemma bind_ok {A B} (c : M A) (k : A -> M B) w w1 a :
  c w = (w1, Ok a) -> bind c k w = k a w1.
Proof. intros H. unfold bind. by rewrite H. Qed.

Lemma update_call_data_channel session_id data w :
  exists w1, update_call_data session_id data w = (w1, Ok tt)
             /\ w1.(sent) = w.(sent) /\ w1.(ws_faults) = w.(ws_faults).
Proof.
  pose proof (update_call_data_never_raises session_id data w) as Hn.
  destruct (update_call_data session_id data w) as [w1 r] eqn:E. simpl in Hn. subst r.
  exists w1. split; [done|].
  revert E. unfold update_call_data, logger_error, datetime_now, db_run. run_monad.
  repeat (case_match; simplify_eq); intros; simplify_eq; done.
Qed.

Lemma ws_send_ok e w :
  w.(ws_faults) = [] ->
  ws_send e w = (with_sent (w.(sent) ++ [send_json e]) w, Ok tt).
Proof. intros H. unfold ws_send, ws_op. by rewrite H. Qed.

Lemma main_process_stt_run session_id result_json s w :
  w.(ws_faults) = [] ->
  exists w1 s1,
    Main.process_stt session_id result_json s w
    = (w1, Ok (strip (get_default result_json.(stt_transcript) ""), s1))
    /\ w1.(sent) = (w.(sent) ++ [send_json (transcript
                      (strip (get_default result_json.(stt_transcript) "")))])%list
    /\ w1.(ws_faults) = [].
Proof.
  intros Hw. unfold Main.process_stt. cbv zeta.
  match goal with |- context [update_call_data ?sid ?d] =>
    destruct (update_call_data_channel sid d w) as (w1 & Hu & Hs & Hf) end.
  rewrite (bind_ok _ _ _ _ _ Hu).
  rewrite (bind_ok _ _ _ _ _ (ws_send_ok _ w1 ltac:(congruence))).
  eexists _, _. split; [reflexivity|]. simpl. by rewrite Hs, Hf, Hw.
Qed.

Lemma stt_process_stt_run session_id result_json s w :
  w.(ws_faults) = [] ->
  let said := strip (get_default result_json.(stt_transcript) "") in
  exists w1 s1,
    SttTranslate.process_stt session_id result_json s w = (w1, Ok (said, s1))
    /\ w1.(sent) = (w.(sent) ++ [send_json (transcript said)])%list
    /\ w1.(ws_faults) = []
    /\ s1.(chat_history) = (if truthy said
                            then (s.(chat_history) ++ [mkMsg user said])%list
                            else s.(chat_history)).
Proof.
  intros Hw said. unfold SttTranslate.process_stt. cbv zeta. fold said.
  match goal with |- context [update_call_data ?sid ?d] =>
    destruct (update_call_data_channel sid d w) as (w1 & Hu & Hs & Hf) end.
  rewrite (bind_ok _ _ _ _ _ Hu).
  rewrite (bind_ok _ _ _ _ _ (ws_send_ok _ w1 ltac:(congruence))).
  eexists _, _. split; [reflexivity|]. simpl. rewrite Hs, Hf, Hw.
  repeat split. clear Hu.
  destruct (truthy said); destruct (awaiting_name s), (caller_name_known s); reflexivity.
Qed.

Lemma sent_after_send {A} (c : M A) w w1 e :
  w1.(sent) = w.(sent) -> respects c ->
  exists rest, (c (with_sent (w1.(sent) ++ [send_json e]) w1)).1.(sent)
               = (w.(sent) ++ send_json e :: rest)%list.
Proof.
  intros Hs Hc. destruct (ev_sent _ _ (Hc (with_sent (w1.(sent) ++ [send_json e]) w1)))
    as [rest Hr].
  exists rest. rewrite Hr. simpl. by rewrite Hs, <- app_assoc.
Qed.

Lemma main_stages_routed session_id env said s w :
  w.(ws_faults) = [] ->
  exists label rest,
    (Main.stages_after_stt session_id env said s w).1.(sent)
    = (w.(sent) ++ send_json (routing_info label) :: rest)%list.
Proof.
  intros Hw. unfold Main.stages_after_stt.
  destruct (Main.routing env) as [forwarded_to|]; cbv zeta.
  - destruct (update_call_data_channel session_id
                [set_routing_label (get_default forwarded_to "Unknown")] w)
      as (w1 & Hu & Hs & Hf).
    rewrite (bind_ok _ _ _ w1 (get_default forwarded_to "Unknown"))
      by (by rewrite (bind_ok _ _ _ _ _ Hu)).
    rewrite (bind_ok _ _ _ _ _ (ws_send_ok _ w1 ltac:(congruence))).
    exists (get_default forwarded_to "Unknown"). cbv beta.
    apply sent_after_send; [done|].
    repeat first [ apply respects_main_chat | apply respects_main_determine_prompt
                 | apply respects_main_respond | respects_step ].
  - rewrite (bind_ok _ _ _ w "Unknown") by done.
    rewrite (bind_ok _ _ _ _ _ (ws_send_ok _ w Hw)).
    exists "Unknown". cbv beta.
    apply sent_after_send; [done|].
    repeat first [ apply respects_main_chat | apply respects_main_determine_prompt
                 | apply respects_main_respond | respects_step ].
Qed.

Lemma stt_stages_routed session_id env said s w :
  w.(ws_faults) = [] ->
  exists label rest,
    (SttTranslate.stages_after_stt session_id env said s w).1.(sent)
    = (w.(sent) ++ send_json (routing_info label) :: rest)%list.
Proof.
  intros Hw. unfold SttTranslate.stages_after_stt.
  destruct (SttTranslate.routing env) as [forwarded_to|]; cbv zeta.
  - destruct (update_call_data_channel session_id
                [set_routing_label (get_default forwarded_to "Unknown")] w)
      as (w1 & Hu & Hs & Hf).
    rewrite (bind_ok _ _ _ w1 (get_default forwarded_to "Unknown"))
      by (by rewrite (bind_ok _ _ _ _ _ Hu)).
    rewrite (bind_ok _ _ _ _ _ (ws_send_ok _ w1 ltac:(congruence))).
    exists (get_default forwarded_to "Unknown"). cbv beta.
    apply sent_after_send; [done|].
    repeat first [ apply respects_stt_determine_prompt
                 | apply respects_stt_respond | respects_step ].
  - rewrite (bind_ok _ _ _ w "Unknown") by done.
    rewrite (bind_ok _ _ _ _ _ (ws_send_ok _ w Hw)).
    exists "Unknown". cbv beta.
    apply sent_after_send; [done|].
    repeat first [ apply respects_stt_determine_prompt
                 | apply respects_stt_respond | respects_step ].
Qed.

Lemma truthy_false_iff (x : string) : truthy x = false <-> x = "".
Proof.
  unfold truthy. rewrite negb_false_iff. apply String.eqb_eq.
Qed.

Lemma routed_after_transcript said w w1 w' :
  w1.(sent) = (w.(sent) ++ [send_json (transcript said)])%list ->
  (exists label rest, w'.(sent) = (w1.(sent) ++ send_json (routing_info label) :: rest)%list) ->
  routed said w w'.
Proof.
  intros H1 (label & rest & Hr). exists label, rest. by rewrite Hr, H1, <- app_assoc.
Qed.

(** C7, as the code has it: with the gate open, a 200 answer of the STT
    service and a working channel, main.py stops the turn after the
    transcript event exactly when the transcript is empty, whether or not
    there is a history; stt_translate.py stops it exactly when the
    transcript is empty and its history is empty, and goes on to the routing
    stage otherwise. *)
Theorem skip_after_stt (session_id : string) (result_json : SttBody) (s : Session)
    (w : World) :
  store_healthy w -> w.(ws_faults) = [] ->
  handled_by <$> w.(rows) !! session_id = Some AI ->
  let said := strip (get_default result_json.(stt_transcript) "") in
  (forall env, env.(Main.stt) = stt_http 200 (Some result_json) ->
     let w' := (Main.process_audio session_id env s w).1 in
     (said = "" -> skipped said w w') /\ (said <> "" -> routed said w w'))
  /\ (forall env, env.(SttTranslate.stt) = stt_http 200 (Some result_json) ->
        let w' := (SttTranslate.process_audio session_id env s w).1 in
        (said = "" /\ s.(chat_history) = [] -> skipped said w w')
        /\ (said <> "" \/ s.(chat_history) <> [] -> routed said w w')).
Proof.
  intros Hh Hw Hr said. split.
  - intros env Henv w'. subst w'. unfold Main.process_audio.
    rewrite (bind_ok _ _ _ _ _ (db_fetch_healthy session_id handled_by w Hh)).
    rewrite Hr, Henv. cbn [current_handler bool_decide decide_rel negb Nat.eqb].
    rewrite bool_decide_eq_false_2 by done. cbn [negb Nat.eqb].
    match goal with |- context [Main.process_stt ?a ?b ?c] =>
      destruct (main_process_stt_run a b c w Hw) as (w1 & s1 & Hp & Hs1 & Hf1) end.
    fold said in Hp, Hs1.
    rewrite (bind_ok _ _ _ _ _ Hp). cbv beta iota.
    destruct (truthy said) eqn:Ht; cbn [negb].
    + split; [intros ->; discriminate|]. intros _.
      eapply routed_after_transcript; [exact Hs1|]. by apply main_stages_routed.
    + split; [intros _; exact Hs1|]. intros Hne. by apply truthy_false_iff in Ht.
  - intros env Henv w'. subst w'. unfold SttTranslate.process_audio.
    rewrite (bind_ok _ _ _ _ _ (db_fetch_healthy session_id handled_by w Hh)).
    rewrite Hr, Henv. cbn [current_handler].
    rewrite bool_decide_eq_false_2 by done. cbn [negb Nat.eqb].
    match goal with |- context [SttTranslate.process_stt ?a ?b ?c] =>
      destruct (stt_process_stt_run a b c w Hw) as (w1 & s1 & Hp & Hs1 & Hf1 & Hh1) end.
    fold said in Hp, Hs1, Hh1. cbn [chat_history] in Hh1.
    rewrite (bind_ok _ _ _ _ _ Hp). cbv beta iota.
    destruct (truthy said) eqn:Ht; cbn [negb andb].
    + split; [intros [-> _]; discriminate|]. intros _.
      eapply routed_after_transcript; [exact Hs1|]. by apply stt_stages_routed.
    + apply truthy_false_iff in Ht. rewrite Hh1.
      destruct (chat_history s) as [|m h] eqn:Hhist.
      * rewrite bool_decide_eq_true_2 by done. split; [intros _; exact Hs1|].
        intros [Hne|Hne]; done.
      * rewrite bool_decide_eq_false_2 by done. split; [intros [_ ?]; done|]. intros _.
        eapply routed_after_transcript; [exact Hs1|]. by apply stt_stages_routed.
Qed.

(** A first utterance is routed in main.py; an empty first transcript is
    skipped in stt_translate.py. *)
Lemma skip_after_stt_witness :
  routed "Hello" world_S1
    (Main.process_audio "S1" (main_turn "Hello" "Unknown" "Could I please get your name?")
       (mkSession false false false AI []) world_S1).1
  /\ skipped "" world_S1
       (SttTranslate.process_audio "S1" (stt_turn "" "Unknown" "Are you there?")
          (mkSession false false false AI []) world_S1).1.
Proof.
  assert (Hh : store_healthy world_S1) by (split; reflexivity).
  split.
  - apply (proj1 (skip_after_stt "S1" (mkSttBody (Some "Hello") (Some "ml-IN"))
                    (mkSession false false false AI []) world_S1 Hh eq_refl eq_refl)
             (main_turn "Hello" "Unknown" "Could I please get your name?") eq_refl).
    discriminate.
  - apply (proj2 (skip_after_stt "S1" (mkSttBody (Some "") (Some "ml-IN"))
                    (mkSession false false false AI []) world_S1 Hh eq_refl eq_refl)
             (stt_turn "" "Unknown" "Are you there?") eq_refl).
    split; reflexivity.
Defined.

(** C7 as stated fails in main.py: after a first exchange, which leaves a
    history for the session, an empty transcript ends the turn right after
    the transcript event; stt_translate.py goes on to routing and answers. *)
Lemma main_skips_empty_transcript_despite_history :
  let traffic_main :=
    [recv_bytes (main_turn "Hello" "Unknown" "Could I please get your name?");
     recv_bytes (main_turn "" "Unknown" "Are you there?")] in
  let traffic_stt :=
    [recv_bytes (stt_turn "Hello" "Unknown" "Could I please get your name?");
     recv_bytes (stt_turn "" "Unknown" "Are you there?")] in
  let w := (Main.call_endpoint "S1" traffic_main world_empty).1 in
  let w' := (SttTranslate.call_endpoint "S1" traffic_stt world_empty).1 in
  w.(chat_memory) !! "S1"
  = Some [mkMsg user "Hello"; mkMsg assistant "Could I please get your name?"]
  /\ w.(sent)
     = [accept; send_json (transcript "Hello"); send_json (routing_info "Unknown");
        send_json (ai_audio_response "Could I please get your name?" "UklGRg" "ml-IN");
        send_json (transcript "")]
  /\ w'.(sent)
     = [accept; send_json (transcript "Hello"); send_json (routing_info "Unknown");
        send_json (ai_audio_response "Could I please get your name?" "UklGRg" "ml-IN");
        send_json (transcript ""); send_json (routing_info "Unknown");
        send_json (ai_audio_response "Are you there?" "UklGRg" "ml-IN")].
Proof. vm_compute. repeat split; reflexivity. Qed.

(** ** End of a session *)

Lemma evolves_healthy w w' : evolves w w' -> store_healthy w -> store_healthy w'.
Proof.
  intros He [Hp Hf]. split.
  - by rewrite (ev_pool _ _ He).
  - by apply (ev_db_faults _ _ He).
Qed.

Lemma update_call_data_sets_status session_id st w :
  store_healthy w -> is_Some (w.(rows) !! session_id) ->
  status <$> (update_call_data session_id [set_status st] w).1.(rows) !! session_id
  = Some st.
Proof.
  intros Hh [r Hr]. rewrite update_call_data_healthy by done. simpl.
  unfold sql_update. rewrite Hr. simpl. by rewrite lookup_insert_eq.
Qed.

Lemma initialise_call_healthy session_id w :
  store_healthy w ->
  exists w1, Main.initialise_call session_id w = (w1, Ok true)
             /\ store_healthy w1 /\ is_Some (w1.(rows) !! session_id).
Proof.
  intros [Hp Hf]. unfold Main.initialise_call, datetime_now, db_run. run_monad.
  simpl. rewrite Hp, Hf. simpl.
  destruct (sql_init_call (clock w) session_id (rows w)) as [t []] eqn:E.
  eexists. split; [reflexivity|]. split; [by split|]. simpl.
  unfold sql_init_call in E.
  destruct (rows w !! session_id); simplify_eq; rewrite lookup_insert_eq; by eexists.
Qed.

(** Whatever the traffic and the collaborators do, a session of main.py that
    was accepted and initialised on a working store is left with status
    Ended: the status Error written by a failing turn does not survive the
    clean-up. *)
Lemma main_call_endpoint_status_ended session_id traffic w :
  store_healthy w -> (ws_accept w).2 = Ok tt ->
  status <$> (Main.call_endpoint session_id traffic w).1.(rows) !! session_id
  = Some Ended.
Proof.
  intros Hh Ha. unfold Main.call_endpoint.
  destruct Hh as [Hp Hf]. rewrite Hp. cbn [negb].
  pose proof (respects_ws_op accept w) as He0.
  destruct (ws_accept w) as [w0 r0] eqn:E0. simpl in Ha. subst r0.
  rewrite (bind_ok _ _ _ _ _ E0).
  assert (Hh0 : store_healthy w0).
  { eapply evolves_healthy; [|by split]. unfold ws_accept in E0. by rewrite E0 in He0. }
  destruct (initialise_call_healthy session_id w0 Hh0) as (w1 & Hi & Hh1 & Hr1).
  rewrite (bind_ok _ _ _ _ _ Hi). cbn [negb]. unfold try_finally.
  match goal with |- context [try_except ?c ?h w1] =>
    assert (Hres : respects (try_except c h));
    [|pose proof (Hres w1) as He; destruct (try_except c h w1) as [w2 r2]] end.
  { unfold Main.fetch_initial_state.
    repeat first [ apply respects_main_main_loop | respects_step ]. }
  simpl in He.
  pose proof (update_call_data_never_raises session_id [set_status Ended] w2) as Hn.
  pose proof (update_call_data_sets_status session_id Ended w2
                (evolves_healthy _ _ He Hh1)) as Hs.
  destruct (update_call_data session_id [set_status Ended] w2) as [w3 r3].
  simpl in *. subst r3. simpl. apply Hs.
  destruct Hr1 as [r Hr]. destruct (ev_rows _ _ He _ _ Hr) as (r' & Hr' & _). by eexists.
Qed.

Lemma stt_initialise_call_healthy session_id w :
  store_healthy w ->
  exists w1, SttTranslate.initialise_call session_id w = (w1, Ok true)
             /\ store_healthy w1 /\ is_Some (w1.(rows) !! session_id).
Proof. apply initialise_call_healthy. Qed.

(** The same for stt_translate.py. *)
Lemma stt_call_endpoint_status_ended session_id traffic w :
  store_healthy w -> (ws_accept w).2 = Ok tt ->
  status <$> (SttTranslate.call_endpoint session_id traffic w).1.(rows) !! session_id
  = Some Ended.
Proof.
  intros Hh Ha. unfold SttTranslate.call_endpoint.
  destruct Hh as [Hp Hf]. rewrite Hp. cbn [negb].
  pose proof (respects_ws_op accept w) as He0.
  destruct (ws_accept w) as [w0 r0] eqn:E0. simpl in Ha. subst r0.
  rewrite (bind_ok _ _ _ _ _ E0).
  assert (Hh0 : store_healthy w0).
  { eapply evolves_healthy; [|by split]. unfold ws_accept in E0. by rewrite E0 in He0. }
  destruct (stt_initialise_call_healthy session_id w0 Hh0) as (w1 & Hi & Hh1 & Hr1).
  rewrite (bind_ok _ _ _ _ _ Hi). cbn [negb]. unfold try_finally.
  match goal with |- context [try_except ?c ?h w1] =>
    assert (Hres : respects (try_except c h));
    [|pose proof (Hres w1) as He; destruct (try_except c h w1) as [w2 r2]] end.
  { unfold SttTranslate.fetch_initial_state.
    repeat first [ apply respects_stt_main_loop | respects_step ]. }
  simpl in He.
  pose proof (update_call_data_never_raises session_id [set_status Ended] w2) as Hn.
  pose proof (update_call_data_sets_status session_id Ended w2
                (evolves_healthy _ _ He Hh1)) as Hs.
  destruct (update_call_data session_id [set_status Ended] w2) as [w3 r3].
  simpl in *. subst r3. simpl. apply Hs.
  destruct Hr1 as [r Hr]. destruct (ev_rows _ _ He _ _ Hr) as (r' & Hr' & _). by eexists.
Qed.

(** C1: a session whose turn fails with a transport-level error.  The
    failing iteration sends the error event, writes status Error and leaves
    the loop; the clean-up of [call_endpoint] then writes Ended over it, so
    the status that is left once the handler has returned is Ended, in both
    variants. *)
Theorem error_status_overwritten_by_cleanup :
  let s := mkSession false false false AI [] in
  let opened := (Main.initialise_call "S1" world_empty).1 in
  let failed := Main.loop_iteration "S1" (recv_bytes main_turn_stt_down) s opened in
  let returned := Main.call_endpoint "S1" [recv_bytes main_turn_stt_down] world_empty in
  let failed' :=
    SttTranslate.loop_iteration "S1" (recv_bytes stt_turn_stt_down) s opened in
  let returned' :=
    SttTranslate.call_endpoint "S1" [recv_bytes stt_turn_stt_down] world_empty in
  (failed.2 = Ok (s, Break)
   /\ failed.1.(sent) = [send_json (error "STT service connection error.")]
   /\ status <$> failed.1.(rows) !! "S1" = Some Error)
  /\ (returned.2 = Ok tt
      /\ returned.1.(sent) = [accept; send_json (error "STT service connection error.")]
      /\ status <$> returned.1.(rows) !! "S1" = Some Ended)
  /\ (failed'.2 = Ok (s, Break)
      /\ failed'.1.(sent) = [send_json (error "STT service connection error.")]
      /\ status <$> failed'.1.(rows) !! "S1" = Some Error)
  /\ (returned'.2 = Ok tt
      /\ returned'.1.(sent) = [accept; send_json (error "STT service connection error.")]
      /\ status <$> returned'.1.(rows) !! "S1" = Some Ended).
Proof. vm_compute. repeat split; reflexivity. Qed.

(** ** The answer to the caller *)

(** stt_translate.py answers in every case. *)
Lemma stt_respond_answers session_id translated text answer w :
  w.(ws_faults) = [] ->
  exists f, (SttTranslate.respond session_id translated text answer w).1.(sent)
            = (w.(sent) ++ [f])%list /\ is_response f = true.
Proof.
  intros Hw. unfold SttTranslate.respond.
  destruct (truthy text); [|rewrite ws_send_ok by done; by eexists].
  unfold try_except, bind, ret, raise.
  destruct answer as [audio|]; cbv beta iota;
    [|rewrite ws_send_ok by done; by eexists].
  destruct (truthy (get_default audio "")).
  - rewrite ws_send_ok by done.
    match goal with |- context [update_call_data ?a ?b ?c] =>
      destruct (update_call_data_channel a b c) as (w1 & -> & Hs & _) end.
    simpl. rewrite Hs. by eexists.
  - rewrite ws_send_ok by done. by eexists.
Qed.

(** main.py sends nothing when the reply is empty. *)
Lemma main_respond_silent session_id provider w :
  Main.respond session_id "" provider w = (w, Ok tt).
Proof. reflexivity. Qed.

(** main.py raises out of the turn when the reply is longer than the 500
    characters the synthesis request admits. *)
Lemma main_respond_raises session_id text provider w :
  (500 < len text)%nat ->
  Main.respond session_id text provider w = (w, Raise Exception).
Proof.
  intros Hl. unfold Main.respond, Main.TTSRequest.
  assert (truthy text = true) as ->.
  { destruct text; [simpl in Hl; lia|done]. }
  apply Nat.ltb_lt in Hl. unfold bind. by rewrite Hl.
Qed.

(** In the other cases main.py answers too. *)
Lemma main_respond_answers session_id text provider w :
  w.(ws_faults) = [] -> text <> "" -> (len text <= 500)%nat ->
  exists f, (Main.respond session_id text provider w).1.(sent)
            = (w.(sent) ++ [f])%list /\ is_response f = true.
Proof.
  intros Hw Ht Hl. unfold Main.respond, Main.TTSRequest.
  assert (truthy text = true) as ->.
  { unfold truthy. by apply negb_true_iff, String.eqb_neq. }
  assert ((500 <? len text)%nat = false) as -> by (apply Nat.ltb_ge; lia).
  unfold Main.synthesize_speech.
  destruct provider as [|c|[[|audio rest]|]];
    unfold try_except, bind, ret, raise; cbv beta iota;
    try (rewrite ws_send_ok by done; by eexists).
  destruct (truthy audio).
  - rewrite ws_send_ok by done.
    match goal with |- context [update_call_data ?a ?b ?c] =>
      destruct (update_call_data_channel a b c) as (w1 & -> & Hs & _) end.
    simpl. rewrite Hs. by eexists.
  - rewrite ws_send_ok by done. by eexists.
Qed.

(** C6: a turn of main.py that completes without any answer to the caller.
    The dialogue service returns a blank reply; the turn sends the
    transcript and the routing events and nothing else, where
    stt_translate.py sends a text-only [ai-response].  A reply of more than
    500 characters ends the turn, and the session, with an [error] event
    instead of an answer. *)
Theorem main_turn_without_response :
  let blank := recv_bytes (main_turn "Fire" "Fire Department" "  ") in
  let blank' := recv_bytes (stt_turn "Fire" "Fire Department" "  ") in
  let long := recv_bytes (main_turn "Fire" "Fire Department" long_reply) in
  let next := recv_bytes (main_turn "Hello" "Unknown" "Where are you?") in
  (Main.call_endpoint "S1" [blank] world_empty).1.(sent)
  = [accept; send_json (transcript "Fire"); send_json (routing_info "Fire Department")]
  /\ (SttTranslate.call_endpoint "S1" [blank'] world_empty).1.(sent)
     = [accept; send_json (transcript "Fire"); send_json (routing_info "Fire Department");
        send_json (ai_response "")]
  /\ (Main.call_endpoint "S1" [long; next] world_empty).1.(sent)
     = [accept; send_json (transcript "Fire"); send_json (routing_info "Fire Department");
        send_json (error "Server error processing audio.")].
Proof. vm_compute. repeat split; reflexivity. Qed.

(** ** Invariants of the table, generically *)

Section TableInvariant.

(** A relation [T] between the table before and after, kept by every update
    that [ok] admits; [sid] is the session a turn belongs to. *)
Variable T : gmap string Row -> gmap string Row -> Prop.
Variable ok : string -> list Assign -> Prop.
Variable sid : string.
Hypothesis T_refl : forall t, T t t.
Hypothesis T_trans : forall t1 t2 t3, T t1 t2 -> T t2 t3 -> T t1 t3.
Hypothesis T_update : forall k data now t,
  ok k data -> T t (sql_update k (data ++ [set_last_update_time now]) t).1.
Hypothesis ok_pipeline : forall data, Forall pipeline_assign data -> ok sid data.

Definition keeps {A} (c : M A) : Prop := forall w, T w.(rows) (c w).1.(rows).

Lemma keeps_ret {A} (a : A) : keeps (ret a).
Proof. intros w. apply T_refl. Qed.

Lemma keeps_raise {A} e : keeps (@raise A e).
Proof. intros w. apply T_refl. Qed.

Lemma keeps_gets {A} (f : World -> A) : keeps (gets f).
Proof. intros w. apply T_refl. Qed.

Lemma keeps_bind {A B} (c : M A) (k : A -> M B) :
  keeps c -> (forall a, keeps (k a)) -> keeps (bind c k).
Proof.
  intros Hc Hk w. unfold bind. specialize (Hc w).
  destruct (c w) as [w' [a|e]]; simpl in *; [|done].
  eapply T_trans; [exact Hc|apply Hk].
Qed.

Lemma keeps_try_except {A} (c : M A) (h : exn -> M A) :
  keeps c -> (forall e, keeps (h e)) -> keeps (try_except c h).
Proof.
  intros Hc Hh w. unfold try_except. specialize (Hc w).
  destruct (c w) as [w' [a|e]]; simpl in *; [done|].
  eapply T_trans; [exact Hc|apply Hh].
Qed.

Lemma keeps_try_finally {A} (c : M A) (f : M unit) :
  keeps c -> keeps f -> keeps (try_finally c f).
Proof.
  intros Hc Hf w. unfold try_finally. specialize (Hc w).
  destruct (c w) as [w' r]. specialize (Hf w').
  destruct (f w') as [w'' [u|e]]; simpl in *; by eapply T_trans.
Qed.

Lemma keeps_db_run {A} (f : gmap string Row -> gmap string Row * A) :
  (forall t, T t (f t).1) -> keeps (db_run f).
Proof.
  intros Hf w. unfold db_run.
  destruct (negb (db_pool w)); [apply T_refl|].
  specialize (Hf (rows w)).
  destruct (db_faults w) as [|[|] rest]; try destruct (f (rows w)) as [t a];
    simpl in *; done || apply T_refl.
Qed.

Lemma keeps_same_rows {A} (c : M A) :
  (forall w, (c w).1.(rows) = w.(rows)) -> keeps c.
Proof. intros H w. rewrite H. apply T_refl. Qed.

Lemma keeps_datetime_now : keeps datetime_now.
Proof. by apply keeps_same_rows. Qed.

Lemma keeps_ws_op f : keeps (ws_op f).
Proof.
  apply keeps_same_rows. intros w. unfold ws_op.
  by destruct (ws_faults w) as [|[x|] rest].
Qed.

Lemma keeps_logger_error l : keeps (logger_error l).
Proof. by apply keeps_same_rows. Qed.

Lemma keeps_ask_dialogue q : keeps (ask_dialogue q).
Proof. by apply keeps_same_rows. Qed.

Lemma keeps_with_chat_memory f : keeps (modify (with_chat_memory f)).
Proof. by apply keeps_same_rows. Qed.

Lemma keeps_db_fetch {A} k (col : Row -> A) : keeps (db_run (sql_fetch k col)).
Proof.
  apply keeps_same_rows. intros w. unfold db_run, sql_fetch.
  destruct (negb (db_pool w)); [done|]. by destruct (db_faults w) as [|[|] rest].
Qed.

Lemma keeps_update_call_data k data : ok k data -> keeps (update_call_data k data).
Proof.
  intros Hok w. unfold update_call_data.
  destruct (negb (db_pool w) || bool_decide (data = [])).
  - destruct (negb (db_pool w)); [apply keeps_logger_error|apply keeps_ret].
  - apply keeps_bind; [apply keeps_datetime_now|intros now].
    apply keeps_try_except; [|intros; apply keeps_logger_error].
    intros w'. unfold db_run.
    destruct (negb (db_pool w')); [apply T_refl|].
    pose proof (T_update k data now (rows w') Hok) as Hu.
    destruct (db_faults w') as [|[|] rest];
      try destruct (sql_update _ _ _) as [t u]; simpl in *; done || apply T_refl.
Qed.

Ltac keeps_step :=
  lazymatch goal with
  | |- keeps (ret _) => apply keeps_ret
  | |- keeps (raise _) => apply keeps_raise
  | |- keeps (gets _) => apply keeps_gets
  | |- keeps (bind _ _) => apply keeps_bind; [|intros ?]
  | |- keeps (try_except _ _) => apply keeps_try_except; [|intros ?]
  | |- keeps datetime_now => apply keeps_datetime_now
  | |- keeps (ws_op _) => apply keeps_ws_op
  | |- keeps (ws_send _) => apply keeps_ws_op
  | |- keeps (ws_close _) => apply keeps_ws_op
  | |- keeps ws_accept => apply keeps_ws_op
  | |- keeps (logger_error _) => apply keeps_logger_error
  | |- keeps (modify (with_chat_memory _)) => apply keeps_with_chat_memory
  | |- keeps (ask_dialogue _) => apply keeps_ask_dialogue
  | |- keeps (db_run (sql_fetch _ _)) => apply keeps_db_fetch
  | |- keeps (update_call_data sid _) =>
      apply keeps_update_call_data, ok_pipeline;
      repeat case_match; repeat constructor; done
  | |- keeps (match ?x with _ => _ end) => destruct x
  | |- keeps (let _ := _ in _) => cbv zeta
  end.

Lemma keeps_main_chat groq request : keeps (Main.chat groq request).
Proof.
  unfold Main.chat, Main.memory_append, Main.completions_create. cbv zeta.
  repeat keeps_step.
Qed.

Lemma keeps_main_stages_after_stt env said s :
  keeps (Main.stages_after_stt sid env said s).
Proof.
  unfold Main.stages_after_stt, Main.determine_prompt, Main.respond, Main.TTSRequest,
    Main.synthesize_speech.
  repeat first [ apply keeps_main_chat | keeps_step ].
Qed.

Lemma keeps_main_loop_iteration message s :
  keeps (Main.loop_iteration sid message s).
Proof.
  unfold Main.loop_iteration, Main.on_bytes, Main.process_audio, Main.process_stt.
  repeat first [ apply keeps_main_stages_after_stt | keeps_step ].
Qed.

Lemma keeps_stt_stages_after_stt env said s :
  keeps (SttTranslate.stages_after_stt sid env said s).
Proof.
  unfold SttTranslate.stages_after_stt, SttTranslate.determine_prompt,
    SttTranslate.respond.
  repeat keeps_step.
Qed.

Lemma keeps_stt_loop_iteration message s :
  keeps (SttTranslate.loop_iteration sid message s).
Proof.
  unfold SttTranslate.loop_iteration, SttTranslate.on_bytes,
    SttTranslate.process_audio, SttTranslate.process_stt.
  repeat first [ apply keeps_stt_stages_after_stt | keeps_step ].
Qed.

Lemma keeps_main_main_loop traffic s : keeps (Main.main_loop sid traffic s).
Proof.
  revert s. induction traffic as [|message rest IH]; intros s; simpl.
  - repeat first [ apply keeps_main_loop_iteration | keeps_step ].
  - apply keeps_bind; [apply keeps_main_loop_iteration|intros [s' []]]; simpl.
    + apply IH.
    + apply keeps_ret.
Qed.

Lemma keeps_stt_main_loop traffic s : keeps (SttTranslate.main_loop sid traffic s).
Proof.
  revert s. induction traffic as [|message rest IH]; intros s; simpl.
  - repeat first [ apply keeps_stt_loop_iteration | keeps_step ].
  - apply keeps_bind; [apply keeps_stt_loop_iteration|intros [s' []]]; simpl.
    + apply IH.
    + apply keeps_ret.
Qed.

Lemma keeps_response_chat groq request : keeps (Response.chat groq request).
Proof.
  unfold Response.chat, Main.memory_append, Main.completions_create. cbv zeta.
  repeat keeps_step.
Qed.

Lemma keeps_takeover k :
  ok k [set_handled_by Human] -> keeps (takeover_call_endpoint k).
Proof.
  intros Hok w. unfold takeover_call_endpoint.
  destruct (negb (db_pool w)); [apply T_refl|].
  revert w. change (keeps
    (try_except
       (current_status <- db_run (sql_fetch k status) ;;
        match current_status with
        | None => raise (HTTPException 404)
        | Some st =>
            if bool_decide (st <> Active) then raise (HTTPException 400)
            else update_call_data k [set_handled_by Human]
        end)
       (fun e => match e with
                 | HTTPException c => raise (HTTPException c)
                 | _ => raise (HTTPException 500)
                 end))).
  repeat first [ by apply keeps_update_call_data | keeps_step ].
Qed.

Lemma keeps_main_call_endpoint traffic :
  (forall now t, T t (sql_init_call now sid t).1) ->
  keeps (Main.call_endpoint sid traffic).
Proof.
  intros Hinit w. unfold Main.call_endpoint.
  destruct (negb (db_pool w)); [apply T_refl|].
  revert w. apply keeps_bind; [apply keeps_ws_op|intros _].
  apply keeps_bind.
  - unfold Main.initialise_call.
    repeat first [ by apply keeps_db_run | keeps_step ].
  - intros [|]; cbn [negb]; [|apply keeps_ret].
    apply keeps_try_finally; unfold Main.fetch_initial_state;
      repeat first [ apply keeps_main_main_loop | keeps_step ].
Qed.

Lemma keeps_stt_call_endpoint traffic :
  (forall now t, T t (sql_init_call now sid t).1) ->
  keeps (SttTranslate.call_endpoint sid traffic).
Proof.
  intros Hinit w. unfold SttTranslate.call_endpoint.
  destruct (negb (db_pool w)); [apply T_refl|].
  revert w. apply keeps_bind; [apply keeps_ws_op|intros _].
  apply keeps_bind.
  - unfold SttTranslate.initialise_call.
    repeat first [ by apply keeps_db_run | keeps_step ].
  - intros [|]; cbn [negb]; [|apply keeps_ret].
    apply keeps_try_finally; unfold SttTranslate.fetch_initial_state;
      repeat first [ apply keeps_stt_main_loop | keeps_step ].
Qed.

End TableInvariant.

(** ** Sessions do not touch each other *)

Lemma others_untouched_update sid k data t :
  k = sid -> others_untouched sid t (sql_update k data t).1.
Proof.
  intros -> k' Hk. unfold sql_update.
  destruct (t !! sid); simpl; [|done]. by rewrite lookup_insert_ne.
Qed.

Lemma others_untouched_init sid now t :
  others_untouched sid t (sql_init_call now sid t).1.
Proof.
  intros k Hk. unfold sql_init_call.
  destruct (t !! sid); simpl; by rewrite lookup_insert_ne.
Qed.

(** X1: everything a connection does, from the upsert that opens it
    to the clean-up that ends it, changes no row but the one of its own
    session; this holds for both variants and whatever the traffic, the
    collaborators and the faults of store and channel are. *)
Theorem call_endpoint_touches_own_row_only (session_id other : string) (w : World) :
  other <> session_id ->
  (forall traffic,
     (Main.call_endpoint session_id traffic w).1.(rows) !! other = w.(rows) !! other)
  /\ (forall traffic,
        (SttTranslate.call_endpoint session_id traffic w).1.(rows) !! other
        = w.(rows) !! other).
Proof.
  intros Hne.
  assert (Hr : forall t, others_untouched session_id t t) by (by intros t k _).
  assert (Ht : forall t1 t2 t3, others_untouched session_id t1 t2 ->
                 others_untouched session_id t2 t3 -> others_untouched session_id t1 t3).
  { intros t1 t2 t3 H1 H2 k Hk. by rewrite H2, H1. }
  split; intros traffic.
  - apply (keeps_main_call_endpoint (others_untouched session_id)
             (fun k _ => k = session_id) session_id Hr Ht); try done.
    + intros k data now t Hk. by apply others_untouched_update.
    + intros now t. apply others_untouched_init.
  - apply (keeps_stt_call_endpoint (others_untouched session_id)
             (fun k _ => k = session_id) session_id Hr Ht); try done.
    + intros k data now t Hk. by apply others_untouched_update.
    + intros now t. apply others_untouched_init.
Qed.

Lemma call_endpoint_touches_own_row_only_witness :
  (Main.call_endpoint "S2" [recv_bytes (main_turn "Help" "Fire Department" "Hello")]
     world_S1).1.(rows) !! "S1" = Some active_row.
Proof.
  exact (proj1 (call_endpoint_touches_own_row_only "S2" "S1" world_S1 ltac:(discriminate))
           [recv_bytes (main_turn "Help" "Fire Department" "Hello")]).
Defined.

(** ** What a running connection keeps of every row *)

Lemma steady_refl r : steady r r.
Proof. by repeat split. Qed.

Lemma steady_trans r1 r2 r3 : steady r1 r2 -> steady r2 r3 -> steady r1 r3.
Proof.
  intros (a1 & b1 & c1 & d1 & e1 & f1) (a2 & b2 & c2 & d2 & e2 & f2).
  repeat split; auto; congruence.
Qed.

Lemma steady_assign_steady a r : steady_assign a -> steady r (assign r a).
Proof.
  intros [H1 H2].
  destruct a as [[]| | | | |[]| |]; simpl; repeat split; simpl; try done.
Qed.

Lemma steady_fold data r :
  Forall steady_assign data -> steady r (fold_left assign data r).
Proof.
  intros H. revert r. induction H as [|a data Ha _ IH]; intros r; simpl.
  - apply steady_refl.
  - eapply steady_trans; [by apply steady_assign_steady|apply IH].
Qed.

Lemma steady_table_refl t : steady_table t t.
Proof. intros k r Hr. exists r. split; [done|apply steady_refl]. Qed.

Lemma steady_table_trans t1 t2 t3 :
  steady_table t1 t2 -> steady_table t2 t3 -> steady_table t1 t3.
Proof.
  intros H1 H2 k r Hr. destruct (H1 k r Hr) as (r' & Hr' & Hs).
  destruct (H2 k r' Hr') as (r'' & Hr'' & Hs'). exists r''.
  split; [done|by eapply steady_trans].
Qed.

Lemma steady_table_update k data now t :
  Forall steady_assign data ->
  steady_table t (sql_update k (data ++ [set_last_update_time now]) t).1.
Proof.
  intros Hd k' r Hr. unfold sql_update.
  destruct (t !! k) as [r0|] eqn:E; simpl; [|exists r; split; [done|apply steady_refl]].
  destruct (decide (k = k')) as [->|Hne].
  - rewrite lookup_insert_eq. eexists. split; [done|].
    assert (r0 = r) as -> by congruence. apply steady_fold.
    apply Forall_app. split; [done|]. repeat constructor; done.
  - rewrite lookup_insert_ne by done. exists r. split; [done|apply steady_refl].
Qed.

Lemma pipeline_assign_steady data :
  Forall pipeline_assign data -> Forall steady_assign data.
Proof.
  intros H. eapply Forall_impl; [exact H|]. intros a Ha.
  by destruct a as [[]| | | | |[]| |].
Qed.

Lemma steady_run w o : steady_table w.(rows) (run w o).(rows).
Proof.
  pose proof steady_table_refl as Hr. pose proof steady_table_trans as Ht.
  pose proof (fun k data now t => steady_table_update k data now t) as Hu.
  destruct o as [k m s|k m s|k|g q|g q|k]; simpl.
  - apply (keeps_main_loop_iteration steady_table (fun _ => Forall steady_assign) k
             Hr Ht Hu pipeline_assign_steady).
  - apply (keeps_stt_loop_iteration steady_table (fun _ => Forall steady_assign) k
             Hr Ht Hu pipeline_assign_steady).
  - apply (keeps_takeover steady_table (fun _ => Forall steady_assign) Hr Ht Hu).
    repeat constructor; done.
  - apply (keeps_main_chat steady_table Hr Ht).
  - apply (keeps_response_chat steady_table Hr Ht).
  - apply (keeps_update_call_data steady_table (fun _ => Forall steady_assign) Hr Ht Hu).
    repeat constructor; done.
Qed.

(** X2: while connections stay open (loop iterations, takeover, chat
    and end-of-call clean-up, in any order and for any sessions), no row
    disappears, a confirmation given is not taken back, a call that is Ended
    or in Error does not become Active again, and [start_time],
    [caller_number], [location] and [priority] keep their values. *)
Theorem running_connections_keep_rows_steady (ops : list Operation) (w : World)
    (session_id : string) (r : Row) :
  w.(rows) !! session_id = Some r ->
  exists r', (run_all ops w).(rows) !! session_id = Some r' /\ steady r r'.
Proof.
  revert w r. induction ops as [|o ops IH]; intros w r Hr; simpl.
  - exists r. split; [done|apply steady_refl].
  - destruct (steady_run w o session_id r Hr) as (r1 & Hr1 & Hs1).
    destruct (IH (run w o) r1 Hr1) as (r2 & Hr2 & Hs2).
    exists r2. split; [done|by eapply steady_trans].
Qed.

Lemma running_connections_keep_rows_steady_witness :
  exists r',
    (run_all [main_iteration "S1" (recv_bytes main_turn_stt_down)
                (mkSession false false false AI []);
              takeover "S1"; end_of_call "S1"] world_S1).(rows) !! "S1" = Some r'
    /\ steady active_row r'.
Proof.
  apply (running_connections_keep_rows_steady _ world_S1 "S1" active_row). reflexivity.
Defined.

(** ** The store helper, continued *)

(** X3: when the store cannot take a write (the pool is down, or the
    statement fails), [update_call_data] neither raises nor changes the
    table; it logs one error line and returns. *)
Theorem update_call_data_failure_is_silent (session_id : string) (data : list Assign)
    (w : World) :
  data <> [] ->
  (w.(db_pool) = false ->
     update_call_data session_id data w
     = (with_log (w.(log) ++ [log_pool_unavailable session_id]) w, Ok tt))
  /\ (forall rest, w.(db_pool) = true -> w.(db_faults) = true :: rest ->
        let w' := (update_call_data session_id data w).1 in
        (update_call_data session_id data w).2 = Ok tt
        /\ w'.(rows) = w.(rows)
        /\ w'.(log) = (w.(log) ++ [log_update_failed session_id])%list).
Proof.
  intros Hd. split.
  - intros Hp. unfold update_call_data. by rewrite Hp.
  - intros rest Hp Hf w'. subst w'.
    unfold update_call_data, datetime_now, db_run, logger_error. run_monad.
    rewrite Hp. simpl. rewrite bool_decide_eq_false_2 by done. simpl.
    rewrite Hp, Hf. simpl. done.
Qed.

Lemma update_call_data_failure_is_silent_witness :
  (update_call_data "S1" [set_status Error] (with_db_faults [true] world_S1)).2 = Ok tt
  /\ (update_call_data "S1" [set_status Error] (with_db_faults [true] world_S1)).1.(rows)
     = world_S1.(rows).
Proof.
  destruct (proj2 (update_call_data_failure_is_silent "S1" [set_status Error]
                     (with_db_faults [true] world_S1) ltac:(discriminate))
              [] eq_refl eq_refl) as (H1 & H2 & _).
  split; [exact H1|exact H2].
Defined.

(** X4: on a working store a call with a non-empty field set writes the
    fields and then the time stamp into the row of the session, so that
    [last_update_time] is the time of the call even when the field set
    names it; for a session without a row nothing is written and no row is
    created. *)
Theorem update_call_data_on_working_store (session_id : string) (data : list Assign)
    (w : World) :
  store_healthy w -> data <> [] ->
  let w' := (update_call_data session_id data w).1 in
  (w.(rows) !! session_id = None -> w'.(rows) = w.(rows))
  /\ (forall r, w.(rows) !! session_id = Some r ->
        w'.(rows) !! session_id
        = Some (assign (fold_left assign data r) (set_last_update_time w.(clock)))
        /\ last_update_time <$> w'.(rows) !! session_id = Some w.(clock)).
Proof.
  intros Hh Hd w'. subst w'. rewrite update_call_data_healthy by done. simpl.
  unfold sql_update. split.
  - by intros ->.
  - intros r ->. simpl. rewrite lookup_insert_eq, fold_left_app. by simpl.
Qed.

Lemma update_call_data_on_working_store_witness :
  last_update_time <$>
    (update_call_data "S1" [set_routing_label "Police"; set_last_update_time 1] world_S1).1
      .(rows) !! "S1" = Some 105.
Proof.
  apply (proj2 (update_call_data_on_working_store "S1"
                  [set_routing_label "Police"; set_last_update_time 1] world_S1
                  ltac:(split; reflexivity) ltac:(discriminate)) active_row).
  reflexivity.
Defined.

(** ** Takeover, continued *)

(** X5: takeover answers 503 when the pool is down and 500 when reading the
    status fails; in both cases the table is left as it was. *)
Theorem takeover_store_failures (session_id : string) (w : World) :
  (w.(db_pool) = false ->
     takeover_call_endpoint session_id w = (w, Raise (HTTPException 503)))
  /\ (forall rest, w.(db_pool) = true -> w.(db_faults) = true :: rest ->
        (takeover_call_endpoint session_id w).2 = Raise (HTTPException 500)
        /\ (takeover_call_endpoint session_id w).1.(rows) = w.(rows)).
Proof.
  split.
  - intros Hp. unfold takeover_call_endpoint. by rewrite Hp.
  - intros rest Hp Hf. unfold takeover_call_endpoint, db_run. run_monad.
    by rewrite Hp, Hf.
Qed.

Lemma takeover_store_failures_witness :
  (takeover_call_endpoint "S1" (with_db_faults [true] world_S1)).2
  = Raise (HTTPException 500).
Proof.
  apply (proj2 (takeover_store_failures "S1" (with_db_faults [true] world_S1)) []);
    reflexivity.
Defined.

(** X6: a takeover of an Active call on a working store changes two columns
    of its row, [handled_by] and [last_update_time], and nothing else of the
    table. *)
Theorem takeover_changes_handler_only (session_id : string) (w : World) (r : Row) :
  store_healthy w -> w.(rows) !! session_id = Some r -> r.(status) = Active ->
  (takeover_call_endpoint session_id w).1.(rows)
  = <[session_id :=
        mkRow r.(caller_name) r.(caller_number) r.(location) r.(status)
              r.(routing_label) r.(priority) r.(detected_language) r.(last_transcript)
              r.(confirmation_given) Human r.(start_time) w.(clock)]> w.(rows).
Proof.
  intros Hh Hr Hs. rewrite takeover_lookup by done. rewrite Hr, Hs.
  rewrite bool_decide_eq_false_2 by (intros H; by apply H).
  rewrite update_call_data_healthy by done. simpl.
  unfold sql_update. rewrite Hr. simpl. by rewrite ?Hs.
Qed.

Lemma takeover_changes_handler_only_witness :
  (takeover_call_endpoint "S1" world_S1).1.(rows)
  = {[ "S1" := mkRow "Unknown" None "Unknown" Active "Unknown" "Normal" None None
                     false Human 100 105 ]}.
Proof.
  rewrite (takeover_changes_handler_only "S1" world_S1 active_row
             ltac:(split; reflexivity) eq_refl eq_refl).
  apply insert_singleton_eq.
Defined.

(** ** Life cycle of a connection *)

Lemma initialise_call_store_fault session_id w rest :
  w.(db_pool) = true -> w.(db_faults) = true :: rest -> w.(ws_faults) = [] ->
  let w' := (Main.initialise_call session_id w).1 in
  (Main.initialise_call session_id w).2 = Ok false
  /\ w'.(rows) = w.(rows) /\ w'.(sent) = (w.(sent) ++ [close 1011])%list.
Proof.
  intros Hp Hf Hw. unfold Main.initialise_call, datetime_now, db_run, ws_close, ws_op.
  run_monad. simpl. rewrite Hp, Hf. simpl. rewrite Hw. done.
Qed.

(** X7: a connection that cannot be set up.  With the pool down the handler
    returns at once: the socket is not accepted and nothing changes.  When
    the upsert fails the socket is accepted and closed with code 1011, the
    traffic is not read, no row is written and the clean-up that marks a
    call as Ended does not run. *)
Theorem call_endpoint_set_up_failures (session_id : string)
    (traffic : list (Incoming Main.TurnEnv)) (w : World) :
  (w.(db_pool) = false -> Main.call_endpoint session_id traffic w = (w, Ok tt))
  /\ (forall rest,
        w.(db_pool) = true -> w.(db_faults) = true :: rest -> w.(ws_faults) = [] ->
        let w' := (Main.call_endpoint session_id traffic w).1 in
        (Main.call_endpoint session_id traffic w).2 = Ok tt
        /\ w'.(rows) = w.(rows)
        /\ w'.(sent) = (w.(sent) ++ [accept; close 1011])%list).
Proof.
  split.
  - intros Hp. unfold Main.call_endpoint. by rewrite Hp.
  - intros rest Hp Hf Hw w'. subst w'. unfold Main.call_endpoint. rewrite Hp. cbn [negb].
    assert (Ha : ws_accept w = (with_sent (w.(sent) ++ [accept]) w, Ok tt)).
    { unfold ws_accept, ws_op. by rewrite Hw. }
    rewrite (bind_ok _ _ _ _ _ Ha).
    destruct (initialise_call_store_fault session_id
                (with_sent (w.(sent) ++ [accept]) w) rest Hp Hf Hw) as (Hi & Hr & Hs).
    destruct (Main.initialise_call session_id (with_sent (sent w ++ [accept]) w))
      as [w1 r1] eqn:E. simpl in Hi, Hr, Hs. subst r1.
    rewrite (bind_ok _ _ _ _ _ E). cbn [negb]. unfold ret. simpl.
    split; [done|]. split; [done|]. by rewrite Hs, <- app_assoc.
Qed.

Lemma call_endpoint_set_up_failures_witness :
  (Main.call_endpoint "S1" [recv_bytes (main_turn "Help" "Fire Department" "Hello")]
     (with_db_faults [true] world_S1)).1.(sent) = [accept; close 1011].
Proof.
  apply (proj2 (call_endpoint_set_up_failures "S1"
                  [recv_bytes (main_turn "Help" "Fire Department" "Hello")]
                  (with_db_faults [true] world_S1)) [] eq_refl eq_refl eq_refl).
Defined.

Lemma handler_never_raises {A} (c : M A) (a : A) w :
  exists r, (try_except c
               (fun e => match e with
                         | WebSocketDisconnect => ret a
                         | _ => try_except (ws_send (error "Internal server error."))
                                  (fun _ => ret tt) ;; ret a
                         end) w).2 = Ok r.
Proof.
  unfold try_except at 1. destruct (c w) as [w' [x|e]]; [by eexists|].
  assert (H : exists w1, try_except (ws_send (error "Internal server error."))
                           (fun _ => ret tt) w' = (w1, Ok tt)).
  { unfold try_except, ws_send, ws_op, ret.
    destruct (ws_faults w') as [|[x|] rest]; by eexists. }
  destruct H as [w1 H].
  destruct e; try (rewrite (bind_ok _ _ _ _ _ H)); by eexists.
Qed.

Lemma main_loop_iteration_never_raises session_id message s w :
  exists sc, (Main.loop_iteration session_id message s w).2 = Ok sc.
Proof. apply handler_never_raises. Qed.

Lemma stt_loop_iteration_never_raises session_id message s w :
  exists sc, (SttTranslate.loop_iteration session_id message s w).2 = Ok sc.
Proof. apply handler_never_raises. Qed.

Lemma main_main_loop_never_raises session_id traffic s w :
  (Main.main_loop session_id traffic s w).2 = Ok tt.
Proof.
  revert s w. induction traffic as [|message rest IH]; intros s w; simpl.
  - destruct (main_loop_iteration_never_raises session_id recv_disconnect s w) as [sc H].
    unfold bind. destruct (Main.loop_iteration _ _ _ _) as [w' r]. simpl in H. by subst.
  - destruct (main_loop_iteration_never_raises session_id message s w) as [sc H].
    unfold bind. destruct (Main.loop_iteration _ _ _ _) as [w' r]. simpl in H. subst.
    destruct sc as [s' []]; simpl; [apply IH|done].
Qed.

Lemma stt_main_loop_never_raises session_id traffic s w :
  (SttTranslate.main_loop session_id traffic s w).2 = Ok tt.
Proof.
  revert s w. induction traffic as [|message rest IH]; intros s w; simpl.
  - destruct (stt_loop_iteration_never_raises session_id recv_disconnect s w) as [sc H].
    unfold bind. destruct (SttTranslate.loop_iteration _ _ _ _) as [w' r].
    simpl in H. by subst.
  - destruct (stt_loop_iteration_never_raises session_id message s w) as [sc H].
    unfold bind. destruct (SttTranslate.loop_iteration _ _ _ _) as [w' r].
    simpl in H. subst. destruct sc as [s' []]; simpl; [apply IH|done].
Qed.

Lemma close_guarded w : exists w1,
  try_except (ws_close 1011) (fun _ => ret tt) w = (w1, Ok tt).
Proof.
  unfold try_except, ws_close, ws_op, ret.
  destruct (ws_faults w) as [|[x|] rest]; by eexists.
Qed.

Lemma initialise_call_row session_id w :
  store_healthy w ->
  Main.initialise_call session_id w
  = (with_rows (fun _ => (sql_init_call w.(clock) session_id w.(rows)).1)
       (with_clock (w.(clock) + 1) w), Ok true).
Proof.
  intros [Hp Hf]. unfold Main.initialise_call, datetime_now, db_run. run_monad.
  simpl. rewrite Hp, Hf. simpl.
  by destruct (sql_init_call (clock w) session_id (rows w)) as [t []].
Qed.

(** X10: whatever an earlier connection of the session left in the row (a
    caller's name, a confirmation given, a human handler), the locals that
    the loop starts with on a working store are the defaults: name unknown,
    no confirmation given, not awaiting a name, handled by the AI.  The test
    on [caller_name] in the fetch of the initial state never succeeds. *)
Theorem connection_starts_fresh (session_id : string) (w : World) :
  store_healthy w ->
  let w' := (Main.initialise_call session_id w).1 in
  Main.fetch_initial_state session_id w' = (w', Ok fresh_session)
  /\ SttTranslate.fetch_initial_state session_id w' = (w', Ok fresh_session).
Proof.
  intros Hh w'.
  assert (Hh' : store_healthy w').
  { subst w'. rewrite initialise_call_row by done. by destruct Hh. }
  assert (Hrow : exists start heard, w'.(rows) !! session_id
                                     = Some (fresh_row start w.(clock) heard)).
  { subst w'. rewrite initialise_call_row by done. simpl. unfold sql_init_call.
    destruct (w.(rows) !! session_id) as [r|]; simpl; rewrite lookup_insert_eq;
      by eexists _, _. }
  destruct Hrow as (start & heard & Hrow).
  unfold Main.fetch_initial_state, SttTranslate.fetch_initial_state.
  rewrite !(bind_ok _ _ _ _ _ (db_fetch_healthy session_id (fun r => r) w' Hh')).
  by rewrite Hrow.
Qed.

Lemma connection_starts_fresh_witness :
  Main.fetch_initial_state "S1"
    (Main.initialise_call "S1" (takeover_call_endpoint "S1" world_S1).1).1
  = ((Main.initialise_call "S1" (takeover_call_endpoint "S1" world_S1).1).1,
     Ok fresh_session).
Proof.
  apply (connection_starts_fresh "S1" (takeover_call_endpoint "S1" world_S1).1).
  split; reflexivity.
Defined.

(** X11: guaranteed clean-up.  A connection that was accepted on a working
    store leaves the row of its session with status Ended when the handler
    returns, whatever the traffic and the collaborators did and however the
    loop was left; this holds for both variants. *)
Theorem accepted_session_ends_as_ended (session_id : string) (w : World) :
  store_healthy w -> (ws_accept w).2 = Ok tt ->
  (forall traffic,
     status <$> (Main.call_endpoint session_id traffic w).1.(rows) !! session_id
     = Some Ended)
  /\ (forall traffic,
        status <$> (SttTranslate.call_endpoint session_id traffic w).1.(rows) !! session_id
        = Some Ended).
Proof.
  intros Hh Ha. split; intros traffic.
  - by apply main_call_endpoint_status_ended.
  - by apply stt_call_endpoint_status_ended.
Qed.

Lemma accepted_session_ends_as_ended_witness :
  status <$>
    (Main.call_endpoint "S1" [recv_bytes (main_turn "Help" "Fire Department" "Hello")]
       world_empty).1.(rows) !! "S1" = Some Ended.
Proof.
  apply (proj1 (accepted_session_ends_as_ended "S1" world_empty
                  ltac:(split; reflexivity) eq_refl)).
Defined.

(** ** The frames of a turn *)

Lemma bind_raise {A B} (c : M A) (k : A -> M B) w w1 e :
  c w = (w1, Raise e) -> bind c k w = (w1, Raise e).
Proof. intros H. unfold bind. by rewrite H. Qed.

Lemma ws_op_ok f w :
  w.(ws_faults) = [] -> ws_op f w = (with_sent (w.(sent) ++ [f]) w, Ok tt).
Proof. intros H. unfold ws_op. by rewrite H. Qed.

Lemma main_determine_prompt_run session_id label s w :
  exists w1 p, Main.determine_prompt session_id label s w = (w1, Ok p)
               /\ w1.(sent) = w.(sent) /\ w1.(ws_faults) = w.(ws_faults).
Proof.
  unfold Main.determine_prompt.
  destruct (negb (caller_name_known s)); [by eexists _, _|]. cbv zeta.
  destruct (truthy label && not_in_labels label && negb _); [|by eexists _, _].
  destruct (update_call_data_channel session_id [set_confirmation_given true] w)
    as (w1 & Hu & Hs & Hf).
  rewrite (bind_ok _ _ _ _ _ Hu). by eexists _, _.
Qed.

Lemma stt_determine_prompt_run session_id label s w :
  exists w1 p, SttTranslate.determine_prompt session_id label s w = (w1, Ok p)
               /\ w1.(sent) = w.(sent) /\ w1.(ws_faults) = w.(ws_faults)
               /\ p.2.(chat_history) = s.(chat_history).
Proof.
  unfold SttTranslate.determine_prompt.
  destruct (SttTranslate.first_turn s); [by eexists _, _|]. cbv zeta.
  cbn [confirmation_given_this_session].
  destruct (truthy label && not_in_labels label && negb _); [|by eexists _, _].
  destruct (update_call_data_channel session_id [set_confirmation_given true] w)
    as (w1 & Hu & Hs & Hf).
  rewrite (bind_ok _ _ _ _ _ Hu). by eexists _, _.
Qed.

(** [chat] talks to the model and to its memory only. *)
Lemma main_chat_frame groq request w :
  let w1 := (Main.chat groq request w).1 in
  w1.(sent) = w.(sent) /\ w1.(ws_faults) = w.(ws_faults) /\ w1.(rows) = w.(rows)
  /\ w1.(db_pool) = w.(db_pool) /\ w1.(db_faults) = w.(db_faults)
  /\ w1.(clock) = w.(clock) /\ w1.(log) = w.(log).
Proof.
  unfold Main.chat, Main.memory_append, Main.completions_create, ask_dialogue. run_monad.
  repeat (case_match; run_monad; simplify_eq); simpl; done.
Qed.

Lemma main_chat_fails groq request w :
  groq.(Main.chat_completion) = None ->
  (Main.chat groq request w).2 = Raise (HTTPException 500).
Proof.
  intros Hc. unfold Main.chat, Main.memory_append, Main.completions_create, ask_dialogue.
  rewrite Hc. run_monad.
  repeat (case_match; run_monad; simplify_eq); done.
Qed.

(** Stage 4 of main.py: the reply. *)
Lemma main_dialogue_run session_id env said prompt w :
  exists w1,
    try_except
      (chat_resp <- Main.chat env.(Main.groq)
                      (Main.mkChatRequest session_id said (Some prompt)) ;;
       ret chat_resp.(Main.response_text))
      (fun _ => ret "I apologize, I encountered a problem. Could you please repeat?") w
    = (w1, Ok (main_expected_reply env))
    /\ w1.(sent) = w.(sent) /\ w1.(ws_faults) = w.(ws_faults).
Proof.
  pose proof (main_chat_frame env.(Main.groq)
                (Main.mkChatRequest session_id said (Some prompt)) w) as (Hs & Hf & _).
  unfold main_expected_reply, try_except, bind, ret.
  destruct (Main.chat_completion (Main.groq env)) as [text|] eqn:Hc.
  - destruct (main_chat_succeeds _ (Main.mkChatRequest session_id said (Some prompt))
                text w Hc) as (w1 & resp & Hch & Hresp).
    rewrite Hch in *. simpl in *. rewrite Hresp. by eexists.
  - pose proof (main_chat_fails _ (Main.mkChatRequest session_id said (Some prompt))
                  w Hc) as Hch.
    destruct (Main.chat _ _ w) as [w1 r]. simpl in *. subst r. by eexists.
Qed.

Lemma main_respond_run session_id text provider w :
  w.(ws_faults) = [] -> truthy text = true -> (500 <? len text)%nat = false ->
  exists w1 f,
    Main.respond session_id text provider w = (w1, Ok tt)
    /\ w1.(sent) = (w.(sent) ++ [f])%list /\ w1.(ws_faults) = []
    /\ [f] = match main_expected_audio provider with
             | Some audio => [send_json (ai_audio_response text audio "ml-IN")]
             | None => [send_json (ai_response text)]
             end.
Proof.
  intros Hw Ht Hl. unfold Main.respond, Main.TTSRequest. rewrite Ht, Hl.
  unfold Main.synthesize_speech, main_expected_audio.
  destruct provider as [|c|[[|audio rest]|]];
    unfold try_except, bind, ret, raise; cbv beta iota;
    try (rewrite ws_send_ok by done; eexists _, _; by repeat split).
  destruct (truthy audio).
  - rewrite ws_send_ok by done.
    match goal with |- context [update_call_data ?a ?b ?c] =>
      destruct (update_call_data_channel a b c) as (w1 & -> & Hs & Hf) end.
    eexists _, _. split; [done|]. rewrite Hs, Hf. simpl. by repeat split.
  - rewrite ws_send_ok by done. eexists _, _. by repeat split.
Qed.

Lemma main_routing_run session_id (routing : option (option string)) w :
  exists w1,
    match routing with
    | Some forwarded_to =>
        let predicted_label := get_default forwarded_to "Unknown" in
        update_call_data session_id [set_routing_label predicted_label] ;;
        ret predicted_label
    | None => ret "Unknown"
    end w = (w1, Ok (expected_label routing))
    /\ w1.(sent) = w.(sent) /\ w1.(ws_faults) = w.(ws_faults).
Proof.
  destruct routing as [forwarded_to|]; [|by eexists]. cbv zeta.
  destruct (update_call_data_channel session_id
              [set_routing_label (get_default forwarded_to "Unknown")] w)
    as (w1 & Hu & Hs & Hf).
  rewrite (bind_ok _ _ _ _ _ Hu). by eexists.
Qed.

(** Stages 2 to 5 of main.py on a working channel. *)
Lemma main_stages_run session_id env said s w :
  w.(ws_faults) = [] ->
  let reply := main_expected_reply env in
  let out := Main.stages_after_stt session_id env said s w in
  out.1.(ws_faults) = []
  /\ if negb (truthy reply) then
       out.1.(sent) = (w.(sent) ++ [send_json (routing_info (expected_label env.(Main.routing)))])%list
       /\ exists s', out.2 = Ok (s', Continue)
     else if (500 <? len reply)%nat then
       out.1.(sent) = (w.(sent) ++ [send_json (routing_info (expected_label env.(Main.routing)))])%list
       /\ out.2 = Raise Exception
     else
       out.1.(sent) = (w.(sent) ++ send_json (routing_info (expected_label env.(Main.routing)))
                                 :: match main_expected_audio env.(Main.tts) with
                                    | Some audio => [send_json (ai_audio_response reply audio "ml-IN")]
                                    | None => [send_json (ai_response reply)]
                                    end)%list
       /\ exists s', out.2 = Ok (s', Continue).
Proof.
  intros Hw reply out. subst out. unfold Main.stages_after_stt.
  destruct (main_routing_run session_id env.(Main.routing) w) as (w1 & H1 & Hs1 & Hf1).
  rewrite (bind_ok _ _ _ _ _ H1).
  rewrite (bind_ok _ _ _ _ _ (ws_send_ok _ w1 ltac:(congruence))).
  match goal with |- context [Main.determine_prompt ?a ?b ?c] =>
    destruct (main_determine_prompt_run a b c
                (with_sent (sent w1 ++ [send_json (routing_info b)]) w1))
      as (w2 & [[prompt phase] s2] & H2 & Hs2 & Hf2) end.
  rewrite (bind_ok _ _ _ _ _ H2). cbv beta iota.
  destruct (main_dialogue_run session_id env said prompt w2) as (w3 & H3 & Hs3 & Hf3).
  rewrite (bind_ok _ _ _ _ _ H3). fold reply.
  simpl in Hs2, Hf2.
  assert (Hsent : w3.(sent) = (w.(sent) ++ [send_json (routing_info (expected_label env.(Main.routing)))])%list)
    by (by rewrite Hs3, Hs2, Hs1).
  assert (Hfault : w3.(ws_faults) = []) by (by rewrite Hf3, Hf2, Hf1).
  destruct (truthy reply) eqn:Ht; cbn [negb].
  - destruct (500 <? len reply)%nat eqn:Hl.
    + apply Nat.ltb_lt in Hl.
      rewrite (bind_raise _ _ _ _ _
                 (main_respond_raises session_id reply env.(Main.tts) w3 Hl)).
      simpl. by repeat split.
    + destruct (main_respond_run session_id reply env.(Main.tts) w3 Hfault Ht Hl)
        as (w4 & f & H4 & Hs4 & Hf4 & Hfr).
      rewrite (bind_ok _ _ _ _ _ H4). unfold ret. simpl. split; [done|]. split; [|by eexists].
      rewrite Hs4, Hsent, <- app_assoc. simpl. f_equal. f_equal.
      by destruct (main_expected_audio (Main.tts env)); simplify_eq.
  - apply truthy_false_iff in Ht. rewrite Ht.
    rewrite (bind_ok _ _ _ _ _ (main_respond_silent session_id env.(Main.tts) w3)).
    unfold ret. simpl. split; [done|]. split; [done|by eexists].
Qed.

Lemma try_except_ok {A} (c : M A) h w w1 a :
  c w = (w1, Ok a) -> try_except c h w = (w1, Ok a).
Proof. intros H. unfold try_except. by rewrite H. Qed.

Lemma try_except_raise {A} (c : M A) h w w1 e :
  c w = (w1, Raise e) -> try_except c h w = h e w1.
Proof. intros H. unfold try_except. by rewrite H. Qed.

Lemma main_process_audio_to_stages session_id env s w result_json :
  store_healthy w -> w.(ws_faults) = [] ->
  handled_by <$> w.(rows) !! session_id = Some AI ->
  env.(Main.stt) = stt_http 200 (Some result_json) ->
  let said := strip (get_default result_json.(stt_transcript) "") in
  said <> "" ->
  exists w1 s1,
    Main.process_audio session_id env s w = Main.stages_after_stt session_id env said s1 w1
    /\ w1.(sent) = (w.(sent) ++ [send_json (transcript said)])%list
    /\ w1.(ws_faults) = [].
Proof.
  intros Hh Hw Hr Henv said Hsaid. unfold Main.process_audio.
  rewrite (bind_ok _ _ _ _ _ (db_fetch_healthy session_id handled_by w Hh)).
  rewrite Hr, Henv. cbn [current_handler].
  rewrite bool_decide_eq_false_2 by done. cbn [negb Nat.eqb].
  match goal with |- context [Main.process_stt ?a ?b ?c] =>
    destruct (main_process_stt_run a b c w Hw) as (w1 & s1 & Hp & Hs1 & Hf1) end.
  fold said in Hp, Hs1. rewrite (bind_ok _ _ _ _ _ Hp). cbv beta iota.
  assert (truthy said = true) as ->.
  { unfold truthy. by apply negb_true_iff, String.eqb_neq. }
  cbn [negb]. by eexists _, _.
Qed.

(** X12: the frames of a turn of main.py.  With the gate open, a working
    store and channel and a 200 answer of the STT service with a transcript
    that is not empty, an audio unit makes the handler send the transcript,
    then the department ([Unknown] when routing fails), then the answer: one
    audio event when synthesis returns audio, one text event when it fails or
    returns none, carrying the reply or, when dialogue generation fails, the
    apology.  A blank reply gives no answer at all, and a reply of more than
    500 characters gives an error event and ends the loop; the bound is on
    characters ([len]), not on the bytes of the encoding. *)
Theorem main_turn_frames (session_id : string) (env : Main.TurnEnv) (s : Session)
    (w : World) (result_json : SttBody) :
  store_healthy w -> w.(ws_faults) = [] ->
  handled_by <$> w.(rows) !! session_id = Some AI ->
  env.(Main.stt) = stt_http 200 (Some result_json) ->
  let said := strip (get_default result_json.(stt_transcript) "") in
  said <> "" ->
  let out := Main.loop_iteration session_id (recv_bytes env) s w in
  out.1.(sent)
  = (w.(sent) ++ send_json (transcript said)
               :: send_json (routing_info (expected_label env.(Main.routing)))
               :: main_expected_answer env)%list
  /\ exists s', out.2 = Ok (s', main_expected_control env).
Proof.
  intros Hh Hw Hr Henv said Hsaid out. subst out.
  destruct (main_process_audio_to_stages session_id env s w result_json Hh Hw Hr Henv Hsaid)
    as (w1 & s1 & Hpa & Hs1 & Hf1). fold said in Hpa, Hs1.
  pose proof (main_stages_run session_id env said s1 w1 Hf1) as Hst.
  cbv zeta in Hst. rewrite <- Hpa in Hst. destruct Hst as [Hf2 Hst].
  unfold Main.loop_iteration, Main.on_bytes, main_expected_answer, main_expected_control.
  destruct (Main.process_audio session_id env s w) as [w2 r2] eqn:E. simpl in Hf2, Hst.
  destruct (truthy (main_expected_reply env)) eqn:Ht; cbn [negb] in *.
  - destruct (500 <? len (main_expected_reply env))%nat eqn:Hl.
    + destruct Hst as [Hs2 ->].
      destruct (update_call_data_channel session_id [set_status Error]
                  (with_sent (sent w2 ++ [send_json (error "Server error processing audio.")])
                     w2)) as (w3 & Hu & Hs3 & _).
      erewrite try_except_ok.
      2:{ erewrite try_except_raise; [|exact E]. cbv beta iota.
          rewrite (bind_ok _ _ _ _ _ (ws_send_ok _ w2 Hf2)).
          rewrite (bind_ok _ _ _ _ _ Hu). unfold ret. reflexivity. }
      simpl. split; [|by eexists].
      rewrite Hs3. simpl. rewrite Hs2, Hs1, <- !app_assoc. done.
    + destruct Hst as [Hs2 [s' ->]].
      erewrite try_except_ok; [|erewrite try_except_ok; [|exact E]; reflexivity].
      simpl. split; [|by eexists]. rewrite Hs2, Hs1, <- app_assoc. done.
  - destruct Hst as [Hs2 [s' ->]].
    erewrite try_except_ok; [|erewrite try_except_ok; [|exact E]; reflexivity].
    simpl. rewrite Hs2, Hs1, <- app_assoc.
    assert ((500 <? len (main_expected_reply env))%nat = false) as ->.
    { apply truthy_false_iff in Ht. by rewrite Ht. }
    split; [done|by eexists].
Qed.

(** A reply of 200 Malayalam letters, 600 bytes, is within the bound of
    500 characters: it is spoken. *)
Lemma main_turn_frames_witness :
  (Main.loop_iteration "S1"
     (recv_bytes (main_turn "Fire" "Fire Department" (letters 200)))
     fresh_session world_S1).1.(sent)
  = [send_json (transcript "Fire"); send_json (routing_info "Fire Department");
     send_json (ai_audio_response (letters 200) "UklGRg" "ml-IN")].
Proof.
  apply (main_turn_frames "S1" (main_turn "Fire" "Fire Department" (letters 200))
           fresh_session world_S1 (mkSttBody (Some "Fire") (Some "ml-IN"))
           ltac:(split; reflexivity) eq_refl eq_refl eq_refl ltac:(discriminate)).
Defined.

Lemma stt_respond_run session_id translated text answer w :
  w.(ws_faults) = [] ->
  exists w1,
    SttTranslate.respond session_id translated text answer w = (w1, Ok tt)
    /\ w1.(sent)
       = (w.(sent) ++
          [if truthy text then
             match answer with
             | Some audio_base64 =>
                 if truthy (get_default audio_base64 "")
                 then send_json (ai_audio_response translated
                                   (get_default audio_base64 "") "ml-IN")
                 else send_json (ai_response translated)
             | None => send_json (ai_response translated)
             end
           else send_json (ai_response "")])%list.
Proof.
  intros Hw. unfold SttTranslate.respond.
  destruct (truthy text); [|rewrite ws_send_ok by done; by eexists].
  unfold try_except, bind, ret, raise.
  destruct answer as [audio|]; cbv beta iota;
    [|rewrite ws_send_ok by done; by eexists].
  destruct (truthy (get_default audio "")).
  - rewrite ws_send_ok by done.
    match goal with |- context [update_call_data ?a ?b ?c] =>
      destruct (update_call_data_channel a b c) as (w1 & -> & Hs & _) end.
    eexists. split; [done|]. by rewrite Hs.
  - rewrite ws_send_ok by done. by eexists.
Qed.

(** Steps 3 to 10 of stt_translate.py on a working channel. *)
Lemma stt_stages_run session_id env said s w :
  w.(ws_faults) = [] ->
  let out := SttTranslate.stages_after_stt session_id env said s w in
  out.1.(sent)
  = (w.(sent) ++ [send_json (routing_info (expected_label env.(SttTranslate.routing)));
                  stt_expected_answer env])%list
  /\ exists s', out.2 = Ok (s', Continue).
Proof.
  intros Hw out. subst out. unfold SttTranslate.stages_after_stt.
  destruct (main_routing_run session_id env.(SttTranslate.routing) w)
    as (w1 & H1 & Hs1 & Hf1).
  rewrite (bind_ok _ _ _ _ _ H1).
  rewrite (bind_ok _ _ _ _ _ (ws_send_ok _ w1 ltac:(congruence))).
  match goal with |- context [SttTranslate.determine_prompt ?a ?b ?c] =>
    destruct (stt_determine_prompt_run a b c
                (with_sent (sent w1 ++ [send_json (routing_info b)]) w1))
      as (w2 & [[prompt phase] s2] & H2 & Hs2 & Hf2 & _) end.
  rewrite (bind_ok _ _ _ _ _ H2). cbv beta iota zeta.
  simpl in Hs2, Hf2.
  match goal with |- context [ask_dialogue ?q] =>
    rewrite (bind_ok (ask_dialogue q) _ w2 _ tt eq_refl) end.
  cbv beta.
  match goal with |- context [bind (SttTranslate.respond ?a ?b ?c ?d) _ ?w'] =>
    destruct (stt_respond_run a b c d w' ltac:(simpl; congruence)) as (w3 & H3 & Hs3) end.
  rewrite (bind_ok _ _ _ _ _ H3). unfold ret. simpl. split; [|by eexists].
  rewrite Hs3. simpl. rewrite Hs2, Hs1, <- app_assoc. reflexivity.
Qed.

(** X13: the frames of a turn of stt_translate.py.  With the gate open, a
    working store and channel, a 200 answer of the STT service and either a
    transcript that is not empty or a history that is not empty, an audio
    unit makes the handler send exactly three frames and go on with the
    loop: the transcript, the department ([Unknown] when routing fails) and
    one answer.  The answer is an audio event with the translated reply when
    the cleaned text is not empty and synthesis returns audio, a text event
    with the translated reply when synthesis fails or returns none, and a
    text event with the empty string when nothing is left to speak; the
    reply is the apology when dialogue generation fails and stays
    untranslated when translation fails. *)
Theorem stt_turn_frames (session_id : string) (env : SttTranslate.TurnEnv) (s : Session)
    (w : World) (result_json : SttBody) :
  store_healthy w -> w.(ws_faults) = [] ->
  handled_by <$> w.(rows) !! session_id = Some AI ->
  env.(SttTranslate.stt) = stt_http 200 (Some result_json) ->
  let said := strip (get_default result_json.(stt_transcript) "") in
  said <> "" \/ s.(chat_history) <> [] ->
  let out := SttTranslate.loop_iteration session_id (recv_bytes env) s w in
  out.1.(sent)
  = (w.(sent) ++ [send_json (transcript said);
                  send_json (routing_info (expected_label env.(SttTranslate.routing)));
                  stt_expected_answer env])%list
  /\ exists s', out.2 = Ok (s', Continue).
Proof.
  intros Hh Hw Hr Henv said Hgo out. subst out.
  unfold SttTranslate.loop_iteration, SttTranslate.on_bytes.
  assert (Hpa : exists w1 s1,
             SttTranslate.process_audio session_id env s w
             = SttTranslate.stages_after_stt session_id env said s1 w1
             /\ w1.(sent) = (w.(sent) ++ [send_json (transcript said)])%list
             /\ w1.(ws_faults) = []).
  { unfold SttTranslate.process_audio.
    rewrite (bind_ok _ _ _ _ _ (db_fetch_healthy session_id handled_by w Hh)).
    rewrite Hr, Henv. cbn [current_handler].
    rewrite bool_decide_eq_false_2 by done. cbn [negb Nat.eqb].
    match goal with |- context [SttTranslate.process_stt ?a ?b ?c] =>
      destruct (stt_process_stt_run a b c w Hw) as (w1 & s1 & Hp & Hs1 & Hf1 & Hh1) end.
    fold said in Hp, Hs1, Hh1. cbn [chat_history] in Hh1.
    rewrite (bind_ok _ _ _ _ _ Hp). cbv beta iota.
    assert (negb (truthy said) && bool_decide (chat_history s1 = []) = false) as ->.
    { rewrite Hh1. destruct (truthy said) eqn:Ht; [done|]. cbn [negb andb].
      apply truthy_false_iff in Ht. apply bool_decide_eq_false_2.
      destruct Hgo as [Hgo|Hgo]; done. }
    by eexists _, _. }
  destruct Hpa as (w1 & s1 & Hpa & Hs1 & Hf1).
  destruct (stt_stages_run session_id env said s1 w1 Hf1) as [Hs2 [s' Hres]].
  rewrite <- Hpa in Hs2, Hres.
  destruct (SttTranslate.process_audio session_id env s w) as [w2 r2] eqn:E.
  simpl in Hs2, Hres. subst r2.
  erewrite try_except_ok; [|erewrite try_except_ok; [|exact E]; reflexivity].
  simpl. split; [|by eexists]. rewrite Hs2, Hs1, <- app_assoc. done.
Qed.

Lemma stt_turn_frames_witness :
  (SttTranslate.loop_iteration "S1"
     (recv_bytes (SttTranslate.mkTurnEnv
                    (stt_http 200 (Some (mkSttBody (Some "Fire") None)))
                    None None None None))
     fresh_session world_S1).1.(sent)
  = [send_json (transcript "Fire"); send_json (routing_info "Unknown");
     send_json (ai_response APOLOGY)].
Proof.
  apply (stt_turn_frames "S1"
           (SttTranslate.mkTurnEnv (stt_http 200 (Some (mkSttBody (Some "Fire") None)))
              None None None None)
           fresh_session world_S1 (mkSttBody (Some "Fire") None)
           ltac:(split; reflexivity) eq_refl eq_refl eq_refl
           ltac:(left; discriminate)).
Defined.

(** X14: an STT answer with a status other than 200 costs the caller one
    [stt-error] event with that status and nothing else: the table is not
    written, the iteration ends with [continue] and the connection stays
    open for the next audio unit.  Both variants behave so. *)
Theorem stt_error_keeps_connection (session_id : string) (s : Session) (w : World)
    (status_code : nat) (body : option SttBody) :
  store_healthy w -> w.(ws_faults) = [] ->
  handled_by <$> w.(rows) !! session_id = Some AI ->
  status_code <> 200%nat ->
  let w' := with_sent (w.(sent) ++ [send_json (stt_error status_code)]) w in
  let s' := mkSession s.(confirmation_given_this_session) s.(awaiting_name)
                      s.(caller_name_known) AI s.(chat_history) in
  (forall env, env.(Main.stt) = stt_http status_code body ->
     Main.loop_iteration session_id (recv_bytes env) s w = (w', Ok (s', Continue)))
  /\ (forall env, env.(SttTranslate.stt) = stt_http status_code body ->
        SttTranslate.loop_iteration session_id (recv_bytes env) s w
        = (w', Ok (s', Continue))).
Proof.
  intros Hh Hw Hr Hc w' s'.
  assert (Hne : (status_code =? 200)%nat = false) by by apply Nat.eqb_neq.
  split; intros env Henv.
  - unfold Main.loop_iteration, Main.on_bytes.
    erewrite try_except_ok; [reflexivity|]. erewrite try_except_ok; [reflexivity|].
    unfold Main.process_audio.
    rewrite (bind_ok _ _ _ _ _ (db_fetch_healthy session_id handled_by w Hh)).
    rewrite Hr, Henv. cbn [current_handler].
    rewrite bool_decide_eq_false_2 by done. rewrite Hne. cbn [negb].
    by rewrite (bind_ok _ _ _ _ _ (ws_send_ok _ w Hw)).
  - unfold SttTranslate.loop_iteration, SttTranslate.on_bytes.
    erewrite try_except_ok; [reflexivity|]. erewrite try_except_ok; [reflexivity|].
    unfold SttTranslate.process_audio.
    rewrite (bind_ok _ _ _ _ _ (db_fetch_healthy session_id handled_by w Hh)).
    rewrite Hr, Henv. cbn [current_handler].
    rewrite bool_decide_eq_false_2 by done. rewrite Hne. cbn [negb].
    by rewrite (bind_ok _ _ _ _ _ (ws_send_ok _ w Hw)).
Qed.

Lemma stt_error_keeps_connection_witness :
  (Main.loop_iteration "S1"
     (recv_bytes (Main.mkTurnEnv (stt_http 503 None) None (Main.mkGroq None None)
                    Main.tts_request_error))
     fresh_session world_S1).1.(sent) = [send_json (stt_error 503)].
Proof.
  rewrite (proj1 (stt_error_keeps_connection "S1" fresh_session world_S1 503 None
                    ltac:(split; reflexivity) eq_refl eq_refl ltac:(discriminate))
             (Main.mkTurnEnv (stt_http 503 None) None (Main.mkGroq None None)
                Main.tts_request_error) eq_refl).
  reflexivity.
Defined.

Lemma len_slice_to (n : nat) (text : string) : (len (slice_to n text) <= n)%nat.
Proof.
  revert n. induction text as [|c text IH]; intros n; simpl; [lia|].
  destruct (is_continuation c) eqn:E; simpl; rewrite ?E; [apply IH|].
  destruct n as [|n]; simpl; [lia|]. rewrite E. specialize (IH n). lia.
Qed.

Lemma truthy_true_iff (x : string) : truthy x = true <-> x <> "".
Proof. unfold truthy. rewrite negb_true_iff. apply String.eqb_neq. Qed.

Lemma update_then_send {A} (session_id : string) (data : list Assign) (e : Event)
    (x : A) (w : World) (r : Row) :
  store_healthy w -> data <> [] -> w.(rows) !! session_id = Some r ->
  let out := (update_call_data session_id data ;; ws_send e ;; ret x) w in
  out.1.(rows) !! session_id
  = Some (fold_left assign (data ++ [set_last_update_time w.(clock)]) r)
  /\ forall y, out.2 = Ok y -> y = x.
Proof.
  intros Hh Hd Hr out. subst out.
  rewrite (bind_ok _ _ _ _ _ (update_call_data_healthy session_id data w Hh Hd)).
  unfold bind, ret, ws_send, ws_op. simpl.
  destruct (ws_faults w) as [|[ex|] fs]; simpl; unfold sql_update; rewrite Hr; simpl;
    rewrite lookup_insert_eq; (split; [done|congruence]).
Qed.


(** ** The memory of the chat services *)

Ltac chat_memory_cases :=
  repeat (case_match; run_monad; simplify_eq); simpl;
  rewrite ?lookup_insert_eq, ?insert_insert_eq, ?app_nil_r; simpl;
  rewrite ?lookup_insert_eq, ?insert_insert_eq, ?app_nil_r, <- ?app_assoc; simpl;
  try done;
  match goal with
  | |- context [chat_memory ?w !! ?k] =>
      destruct (chat_memory w !! k) as [history|] eqn:Hm; simpl;
      rewrite ?Hm, ?lookup_insert_eq, ?insert_insert_eq; simpl; try done;
      by rewrite insert_id
  end.

Lemma main_chat_memory groq request w :
  (Main.chat groq request w).1.(chat_memory)
  = <[request.(Main.session_id) :=
        (get_default (w.(chat_memory) !! request.(Main.session_id)) []
         ++ turn_entries (strip request.(Main.input_text)) groq.(Main.chat_completion))%list]>
      w.(chat_memory).
Proof.
  unfold Main.chat, Main.memory_append, Main.completions_create, ask_dialogue, turn_entries.
  run_monad. chat_memory_cases.
Qed.

Lemma response_chat_memory groq request w :
  (Response.chat groq request w).1.(chat_memory)
  = <[request.(Main.session_id) :=
        (get_default (w.(chat_memory) !! request.(Main.session_id)) []
         ++ turn_entries (strip request.(Main.input_text)) groq.(Main.chat_completion))%list]>
      w.(chat_memory).
Proof.
  unfold Response.chat, Main.memory_append, Main.completions_create, ask_dialogue, turn_entries.
  run_monad. chat_memory_cases.
Qed.

(** X16: what a [/chat] request does to the memory.  The memory of the
    request's session grows by the caller's text (unless blank) and then by
    the reply (unless the completion failed or the reply is blank); the
    memory of every other session is left as it was.  So the caller's text
    stays in the memory also when the request is answered with 500.  Both
    chat services behave so. *)
Theorem chat_memory_growth (groq : Main.Groq) (request : Main.ChatRequest) (w : World) :
  let session_id := request.(Main.session_id) in
  let history := get_default (w.(chat_memory) !! session_id) [] in
  let added := turn_entries (strip request.(Main.input_text)) groq.(Main.chat_completion) in
  (Main.chat groq request w).1.(chat_memory)
  = <[session_id := (history ++ added)%list]> w.(chat_memory)
  /\ (Response.chat groq request w).1.(chat_memory)
     = <[session_id := (history ++ added)%list]> w.(chat_memory).
Proof. split; [apply main_chat_memory|apply response_chat_memory]. Qed.

Lemma main_chat_answer groq request w :
  (Main.chat groq request w).2
  = match groq.(Main.chat_completion) with
    | Some text =>
        Ok (Main.mkChatResponse (strip text)
              (expected_emotion (strip request.(Main.input_text))
                 groq.(Main.emotion_completion)))
    | None => Raise (HTTPException 500)
    end.
Proof.
  unfold Main.chat, Main.memory_append, Main.completions_create, ask_dialogue, expected_emotion.
  run_monad. repeat (case_match; run_monad; simplify_eq); simpl; done.
Qed.

Lemma response_chat_answer groq request w :
  (Response.chat groq request w).2
  = match groq.(Main.chat_completion) with
    | Some text =>
        Ok (Main.mkChatResponse (strip text)
              (expected_emotion (strip request.(Main.input_text))
                 groq.(Main.emotion_completion)))
    | None => Raise (HTTPException 500)
    end.
Proof.
  unfold Response.chat, Main.memory_append, Main.completions_create, ask_dialogue, expected_emotion.
  run_monad. repeat (case_match; run_monad; simplify_eq); simpl; done.
Qed.

(** X17: the answer of [/chat].  When the dialogue completion fails the
    request is answered with status 500.  Otherwise it answers with the
    stripped reply and an emotion: [unknown] without asking the model when
    the caller's text is blank, [error] when the emotion completion fails,
    the model's word in lower case when it is one of the ten of the prompt,
    and [unknown] for any other word.  Both chat services behave so. *)
Theorem chat_answer (groq : Main.Groq) (request : Main.ChatRequest) (w : World) :
  let answer :=
    match groq.(Main.chat_completion) with
    | Some text =>
        Ok (Main.mkChatResponse (strip text)
              (expected_emotion (strip request.(Main.input_text))
                 groq.(Main.emotion_completion)))
    | None => Raise (HTTPException 500)
    end in
  (Main.chat groq request w).2 = answer /\ (Response.chat groq request w).2 = answer.
Proof. split; [apply main_chat_answer|apply response_chat_answer]. Qed.

Lemma main_end_session_run request w :
  Main.end_session request w
  = (with_chat_memory (delete request.(Main.session_id)) w,
     Ok (if bool_decide (is_Some (w.(chat_memory) !! request.(Main.session_id)))
         then "Session ended successfully." else "Session not found.")).
Proof.
  unfold Main.end_session. run_monad.
  destruct (chat_memory w !! Main.session_id request) as [history|] eqn:Hm.
  - by rewrite bool_decide_eq_true_2.
  - rewrite bool_decide_eq_false_2 by (by intros [? ?]).
    destruct w. unfold with_chat_memory. simpl in *. f_equal. f_equal.
    by rewrite delete_id.
Qed.

Lemma response_end_session_run request w :
  Response.end_session request w = Main.end_session request w.
Proof. reflexivity. Qed.

(** X18: [/end-session] forgets the session and nothing else.  It never
    fails; it removes the memory of the request's session, leaves the other
    sessions' memory and the rest of the state as they were, and its message
    tells whether there was a memory to remove.  Ending the session again
    answers [Session not found.], and the next [/chat] of the session starts
    from an empty history: its memory holds the entries of that request
    only.  Both chat services behave so. *)
Theorem end_session_forgets (request : Main.ChatRequest) (w : World) :
  let session_id := request.(Main.session_id) in
  let w1 := with_chat_memory (delete session_id) w in
  Main.end_session request w
  = (w1, Ok (if bool_decide (is_Some (w.(chat_memory) !! session_id))
             then "Session ended successfully." else "Session not found."))
  /\ Response.end_session request w = Main.end_session request w
  /\ Main.end_session request w1 = (w1, Ok "Session not found.")
  /\ forall groq next, next.(Main.session_id) = session_id ->
       let added := turn_entries (strip next.(Main.input_text))
                      groq.(Main.chat_completion) in
       (Main.chat groq next w1).1.(chat_memory) !! session_id = Some added
       /\ (Response.chat groq next w1).1.(chat_memory) !! session_id = Some added.
Proof.
  intros session_id w1. split; [apply main_end_session_run|].
  split; [apply response_end_session_run|]. split.
  - rewrite main_end_session_run. subst w1. destruct w; unfold with_chat_memory; simpl.
    rewrite lookup_delete_eq. rewrite bool_decide_eq_false_2 by (by intros [? ?]).
    by rewrite delete_delete_eq.
  - intros groq next Hn added.
    rewrite main_chat_memory, response_chat_memory, Hn.
    rewrite !lookup_insert_eq. subst w1. destruct w; simpl.
    by rewrite lookup_delete_eq.
Qed.

(** ** The call lists *)

#[local] Instance by_start_time_total : Total by_start_time.
Proof. intros a b. unfold by_start_time. lia. Qed.

#[local] Instance by_start_time_trans : Transitive by_start_time.
Proof. intros a b c. unfold by_start_time. lia. Qed.

#[local] Instance by_last_update_desc_total : Total SttTranslate.by_last_update_desc.
Proof. intros a b. unfold SttTranslate.by_last_update_desc. lia. Qed.

#[local] Instance by_last_update_desc_trans : Transitive SttTranslate.by_last_update_desc.
Proof. intros a b c. unfold SttTranslate.by_last_update_desc. lia. Qed.

Lemma db_select_healthy {A} (select : gmap string Row -> gmap string Row * A) w :
  store_healthy w -> (forall t, (select t).1 = t) ->
  db_run select w = (w, Ok (select w.(rows)).2).
Proof.
  intros [Hp Hf] Hs. unfold db_run. rewrite Hp, Hf. simpl.
  specialize (Hs (rows w)). destruct (select (rows w)) as [t a]. simpl in *. subst.
  by destruct w.
Qed.

Lemma NoDup_fst_filter_sorted (keep : string * Row -> Prop)
    `{!forall kr, Decision (keep kr)} (R : relation (string * Row))
    `{!RelDecision R} (t : gmap string Row) :
  NoDup (merge_sort R (filter keep (map_to_list t))).*1.
Proof.
  rewrite merge_sort_Permutation.
  assert (Hnd : NoDup (map_to_list t).*1) by apply NoDup_fst_map_to_list.
  revert Hnd. generalize (map_to_list t). intros l. induction l as [|x l IH]; [done|].
  rewrite fmap_cons, NoDup_cons. intros [Hx Hl]. rewrite filter_cons.
  destruct (decide (keep x)); [|by apply IH].
  rewrite fmap_cons, NoDup_cons. split; [|by apply IH].
  intros Hin. apply Hx. apply list_elem_of_fmap in Hin as (y & -> & Hy).
  apply list_elem_of_fmap. exists y. split; [done|].
  by apply list_elem_of_filter in Hy as [_ ?].
Qed.

(** X19: the list of active calls.  On a working store [get_active_calls]
    answers with exactly the rows whose status is [Active], each once, the
    earliest start first, each with the whole seconds from its start to
    the time of the request (rounded toward zero); the table is not
    written. *)
Theorem get_active_calls_answer (w : World) :
  store_healthy w ->
  exists calls,
    get_active_calls w = (with_clock (w.(clock) + 1) w, Ok calls)
    /\ (forall c, c ∈ calls <->
          w.(rows) !! c.(id) = Some c.(record)
          /\ c.(record).(status) = Active
          /\ c.(durationSeconds)
             = total_seconds_int (w.(clock) - c.(record).(start_time)))
    /\ NoDup (id <$> calls)
    /\ StronglySorted Z.le ((fun c => c.(record).(start_time)) <$> calls).
Proof.
  intros Hh. pose proof Hh as [Hp Hf].
  unfold get_active_calls. rewrite Hp. cbn [negb].
  unfold try_except, bind, ret.
  rewrite (db_select_healthy sql_select_active w Hh) by done.
  unfold datetime_now. cbn [sql_select_active snd].
  eexists. split; [reflexivity|].
  set (sorted := merge_sort by_start_time _).
  assert (Hin : forall kr, kr ∈ sorted <->
                  w.(rows) !! kr.1 = Some kr.2 /\ kr.2.(status) = Active).
  { intros [k r]. subst sorted. rewrite merge_sort_Permutation.
    rewrite list_elem_of_filter, elem_of_map_to_list. simpl. tauto. }
  split; [|split].
  - intros c. rewrite list_elem_of_fmap. split.
    + intros ([k r] & -> & Hkr). apply Hin in Hkr. simpl in *. tauto.
    + intros (Hr & Hs & Hd). exists (c.(id), c.(record)). split.
      * destruct c. simpl in *. by subst.
      * by apply Hin.
  - rewrite <- list_fmap_compose.
    replace (id ∘ _) with (fst : string * Row -> string) by done.
    apply NoDup_fst_filter_sorted.
  - rewrite <- list_fmap_compose.
    apply (StronglySorted_fmap _ by_start_time); [by intros [??] [??]|].
    subst sorted. apply (StronglySorted_merge_sort by_start_time).
Qed.

Lemma get_active_calls_answer_witness :
  exists calls,
    get_active_calls world_S1 = (with_clock (world_S1.(clock) + 1) world_S1, Ok calls)
    /\ id <$> calls = ["S1"].
Proof.
  destruct (get_active_calls_answer world_S1 ltac:(split; reflexivity))
    as (calls & Hrun & _).
  exists calls. split; [exact Hrun|].
  vm_compute in Hrun. injection Hrun as <-. reflexivity.
Defined.

Lemma final_duration_nonneg r : 0 <= SttTranslate.final_duration r.
Proof.
  unfold SttTranslate.final_duration, total_seconds_int. case_bool_decide; [|done].
  apply Z.quot_pos; lia.
Qed.

(** X20: the list of recent calls.  On a working store [get_recent_calls]
    answers with at most ten rows, none of them [Active] and none twice, the
    latest update first; whenever a row that is over is left out, the list
    is full and every listed row was updated no earlier than it.  A duration
    is the whole seconds from the start to the last update and never
    negative: it is 0 when the last update is not after the start.  Neither
    the table nor the clock changes. *)
Theorem get_recent_calls_answer (w : World) :
  store_healthy w ->
  exists calls,
    SttTranslate.get_recent_calls w = (w, Ok calls)
    /\ (length calls <= 10)%nat
    /\ (forall c, c ∈ calls ->
          w.(rows) !! c.(id) = Some c.(record)
          /\ c.(record).(status) <> Active
          /\ c.(durationSeconds) = SttTranslate.final_duration c.(record)
          /\ 0 <= c.(durationSeconds))
    /\ NoDup (id <$> calls)
    /\ StronglySorted Z.ge ((fun c => c.(record).(last_update_time)) <$> calls)
    /\ (forall session_id r,
          w.(rows) !! session_id = Some r -> r.(status) <> Active ->
          session_id ∈ id <$> calls
          \/ (length calls = 10%nat
              /\ forall c, c ∈ calls ->
                   r.(last_update_time) <= c.(record).(last_update_time))).
Proof.
  intros Hh. pose proof Hh as [Hp Hf].
  unfold SttTranslate.get_recent_calls. rewrite Hp. cbn [negb].
  unfold try_except, bind, ret.
  rewrite (db_select_healthy SttTranslate.sql_select_recent w Hh) by done.
  cbn [SttTranslate.sql_select_recent snd].
  eexists. split; [reflexivity|].
  set (sorted := merge_sort SttTranslate.by_last_update_desc _).
  assert (Hin : forall kr, kr ∈ sorted <->
                  w.(rows) !! kr.1 = Some kr.2 /\ kr.2.(status) <> Active).
  { intros [k r]. subst sorted. rewrite merge_sort_Permutation.
    rewrite list_elem_of_filter, elem_of_map_to_list. simpl. tauto. }
  assert (Hss : StronglySorted SttTranslate.by_last_update_desc
                  (take 10 sorted ++ drop 10 sorted)).
  { rewrite take_drop. subst sorted.
    apply (StronglySorted_merge_sort SttTranslate.by_last_update_desc). }
  assert (Hsub : forall kr, kr ∈ take 10 sorted -> kr ∈ sorted).
  { intros kr Hkr. rewrite <- (take_drop 10 sorted). apply elem_of_app. by left. }
  split; [|split; [|split; [|split]]].
  - rewrite length_fmap. apply firstn_le_length.
  - intros c. rewrite list_elem_of_fmap. intros ([k r] & -> & Hkr).
    apply Hsub, Hin in Hkr. simpl in *.
    split; [tauto|]. split; [tauto|]. split; [done|apply final_duration_nonneg].
  - rewrite <- list_fmap_compose.
    replace (id ∘ _) with (fst : string * Row -> string) by done.
    eapply sublist_NoDup;
      [apply (NoDup_fst_filter_sorted (fun kr => kr.2.(status) <> Active)
                SttTranslate.by_last_update_desc (rows w))|].
    apply fmap_sublist, sublist_take.
  - rewrite <- list_fmap_compose.
    apply (StronglySorted_fmap _ SttTranslate.by_last_update_desc).
    + intros [??] [??]. unfold SttTranslate.by_last_update_desc. simpl. lia.
    + by apply StronglySorted_app_1_l in Hss.
  - intros session_id r Hr Hs.
    assert (Hm : (session_id, r) ∈ sorted) by by apply Hin.
    rewrite <- (take_drop 10 sorted) in Hm. apply elem_of_app in Hm as [Hm|Hm].
    + left. rewrite <- list_fmap_compose. apply list_elem_of_fmap.
      by exists (session_id, r).
    + right. split.
      * rewrite length_fmap. apply length_take_le.
        destruct (decide (10 <= length sorted)%nat) as [|Hn]; [done|].
        rewrite drop_ge in Hm by lia. by apply elem_of_nil in Hm.
      * intros c Hc. apply list_elem_of_fmap in Hc as (kr & -> & Hkr).
        apply (StronglySorted_app_1_elem_of _ _ _ _ _ Hss Hkr Hm).
Qed.

Lemma get_recent_calls_answer_witness :
  let w := (update_call_data "S1" [set_status Ended] world_S1).1 in
  exists calls,
    SttTranslate.get_recent_calls w = (w, Ok calls) /\ id <$> calls = ["S1"].
Proof.
  intros w.
  destruct (get_recent_calls_answer w ltac:(split; reflexivity)) as (calls & Hrun & _).
  exists calls. split; [exact Hrun|].
  vm_compute in Hrun. injection Hrun as <-. reflexivity.
Defined.

(** X21: the call lists when the store is not there.  Without a pool both
    lists answer 503 and nothing changes; when the query fails they answer
    500, and neither the table nor the clock has changed. *)
Theorem call_lists_store_failures (w : World) :
  (w.(db_pool) = false ->
   get_active_calls w = (w, Raise (HTTPException 503))
   /\ SttTranslate.get_recent_calls w = (w, Raise (HTTPException 503)))
  /\ (forall rest, w.(db_pool) = true -> w.(db_faults) = true :: rest ->
        let failed := with_db_faults rest w in
        get_active_calls w = (failed, Raise (HTTPException 500))
        /\ SttTranslate.get_recent_calls w = (failed, Raise (HTTPException 500))).
Proof.
  split.
  - intros Hp. unfold get_active_calls, SttTranslate.get_recent_calls. by rewrite Hp.
  - intros rest Hp Hf failed.
    unfold get_active_calls, SttTranslate.get_recent_calls, try_except, bind, db_run,
      raise.
    by rewrite Hp, Hf.
Qed.

Lemma call_lists_store_failures_witness :
  let w := mkWorld false [] {[ "S1" := active_row ]} 105 ∅ [] [] [] [] in
  get_active_calls w = (w, Raise (HTTPException 503)).
Proof.
  intros w. exact (proj1 (proj1 (call_lists_store_failures w) eq_refl)).
Defined.

(** ** The shape of a cleaned text *)

Lemma rstrip_no_trailing_space x : no_trailing_space (rstrip x).
Proof.
  unfold no_trailing_space, rstrip. rewrite rev_involutive.
  apply lstrip_no_leading_space.
Qed.

Lemma clean_text_for_tts_chars text :
  list_ascii_of_string (clean_text_for_tts text)
  = normalise (list_ascii_of_string text).
Proof.
  unfold clean_text_for_tts. destruct (truthy text) eqn:E.
  - by rewrite list_ascii_of_string_of_list_ascii.
  - apply truthy_false_iff in E as ->. reflexivity.
Qed.

Lemma normalise_shape x :
  mark_free (normalise x) /\ collapsed (normalise x)
  /\ no_leading_space (normalise x) /\ no_trailing_space (normalise x).
Proof.
  unfold normalise. split; [|split; [|split]].
  - apply rstrip_mark_free, lstrip_mark_free, sub_spaces_mark_free, sub_marks_mark_free.
  - apply rstrip_collapsed, lstrip_collapsed, sub_spaces_collapsed.
  - apply rstrip_no_leading_space, lstrip_no_leading_space.
  - apply rstrip_no_trailing_space.
Qed.

(** X22: the shape of a cleaned text.  Whatever the text, the text handed
    to speech synthesis holds no [?] and no [!], its only white space is the
    space character, never two in a row, and it neither starts nor ends
    with white space. *)
Theorem clean_text_for_tts_shape (text : string) :
  let cleaned := list_ascii_of_string (clean_text_for_tts text) in
  mark_free cleaned /\ collapsed cleaned
  /\ no_leading_space cleaned /\ no_trailing_space cleaned.
Proof.
  intros cleaned. subst cleaned. rewrite clean_text_for_tts_chars.
  apply normalise_shape.
Qed.

Lemma filter_word_sub_spaces b x :
  List.filter is_word_char (sub_runs isspace [" "%char] b x)
  = List.filter is_word_char x.
Proof.
  revert b. induction x as [|c x IH]; intros b; simpl; [done|].
  destruct (isspace c) eqn:E.
  - assert (Hc : is_word_char c = false)
      by (unfold is_word_char; by rewrite E, andb_false_r).
    rewrite Hc. destruct b; [apply IH|]. simpl. apply IH.
  - simpl. by rewrite IH.
Qed.

Lemma filter_word_sub_marks x :
  List.filter is_word_char (sub_marks x) = List.filter is_word_char x.
Proof.
  unfold sub_marks. rewrite sub_marks_filter.
  induction x as [|c x IH]; simpl; [done|].
  destruct (is_mark c) eqn:E; simpl.
  - assert (Hc : is_word_char c = false) by (unfold is_word_char; by rewrite E).
    by rewrite Hc.
  - by rewrite IH.
Qed.

Lemma filter_word_lstrip x :
  List.filter is_word_char (lstrip x) = List.filter is_word_char x.
Proof.
  induction x as [|c x IH]; simpl; [done|].
  destruct (isspace c) eqn:E; [|done].
  assert (Hc : is_word_char c = false) by (unfold is_word_char; by rewrite E, andb_false_r).
  by rewrite Hc.
Qed.

Lemma filter_word_rstrip x :
  List.filter is_word_char (rstrip x) = List.filter is_word_char x.
Proof.
  unfold rstrip.
  by rewrite List.filter_rev, filter_word_lstrip, <- List.filter_rev, rev_involutive.
Qed.

Lemma length_sub_spaces b x :
  (List.length (sub_runs isspace [" "%char] b x) <= List.length x)%nat.
Proof.
  revert b. induction x as [|c x IH]; intros b; simpl; [done|].
  pose proof (IH true). pose proof (IH false).
  destruct (isspace c); [destruct b|]; simpl; lia.
Qed.

Lemma length_sub_marks x : (List.length (sub_marks x) <= List.length x)%nat.
Proof. unfold sub_marks. rewrite sub_marks_filter. apply List.filter_length_le. Qed.

Lemma length_lstrip x : (List.length (lstrip x) <= List.length x)%nat.
Proof.
  destruct (lstrip_suffix x) as [p Hp]. rewrite Hp at 2. rewrite length_app. lia.
Qed.

Lemma length_rstrip x : (List.length (rstrip x) <= List.length x)%nat.
Proof.
  destruct (rstrip_prefix x) as [p Hp]. rewrite Hp at 2. rewrite length_app. lia.
Qed.

Lemma string_length_list (x : string) :
  String.length x = List.length (list_ascii_of_string x).
Proof. induction x as [|c x IH]; simpl; congruence. Qed.

(** X23: what the clean-up keeps.  The characters that are neither marks
    nor white space come out as they went in, in the same order; the
    cleaned text is never longer than the text; and it is empty exactly
    when the text holds nothing but marks and white space. *)
Theorem clean_text_for_tts_keeps_words (text : string) :
  let given := list_ascii_of_string text in
  let cleaned := list_ascii_of_string (clean_text_for_tts text) in
  List.filter is_word_char cleaned = List.filter is_word_char given
  /\ (String.length (clean_text_for_tts text) <= String.length text)%nat
  /\ (clean_text_for_tts text = "" <-> Forall (fun c => is_word_char c = false) given).
Proof.
  intros given cleaned.
  assert (Hw : List.filter is_word_char cleaned = List.filter is_word_char given).
  { subst cleaned given. rewrite clean_text_for_tts_chars. unfold normalise.
    rewrite filter_word_rstrip, filter_word_lstrip. unfold sub_spaces.
    by rewrite filter_word_sub_spaces, filter_word_sub_marks. }
  split; [done|]. split.
  - rewrite !string_length_list. fold cleaned. subst cleaned.
    rewrite clean_text_for_tts_chars. unfold normalise.
    pose proof (length_rstrip (lstrip (sub_spaces (sub_marks (list_ascii_of_string text))))).
    pose proof (length_lstrip (sub_spaces (sub_marks (list_ascii_of_string text)))).
    pose proof (length_sub_spaces false (sub_marks (list_ascii_of_string text))).
    pose proof (length_sub_marks (list_ascii_of_string text)).
    unfold sub_spaces in *. lia.
  - assert (Hnil : clean_text_for_tts text = "" <-> cleaned = []).
    { subst cleaned. by destruct (clean_text_for_tts text). }
    rewrite Hnil. split.
    + intros Hc. rewrite Hc in Hw. simpl in Hw.
      apply List.Forall_forall. intros c Hin.
      destruct (is_word_char c) eqn:E; [|done].
      assert (Hf : In c (List.filter is_word_char given)) by by apply List.filter_In.
      by rewrite <- Hw in Hf.
    + intros Hall.
      destruct (normalise_shape (list_ascii_of_string text)) as (Hm & _ & Hl & _).
      rewrite <- clean_text_for_tts_chars in Hm, Hl. fold cleaned in Hm, Hl.
      destruct cleaned as [|c rest]; [done|]. exfalso.
      simpl in Hl. apply Forall_cons in Hm as [Hm _].
      assert (Hc : is_word_char c = true) by (unfold is_word_char; by rewrite Hm, Hl).
      assert (Hf : In c (List.filter is_word_char given)).
      { rewrite <- Hw. simpl. rewrite Hc. by left. }
      apply List.filter_In in Hf as [Hin _].
      rewrite List.Forall_forall in Hall. apply Hall in Hin. congruence.
Qed.

(** ** A turn that fails *)

Lemma on_bytes_handler_run session_id (s : Session) message w r :
  store_healthy w -> w.(ws_faults) = [] -> w.(rows) !! session_id = Some r ->
  (ws_send (error message) ;;
   update_call_data session_id [set_status Error] ;;
   ret (s, Break)) w
  = (with_rows (fun _ => <[session_id :=
                             fold_left assign
                               [set_status Error; set_last_update_time w.(clock)] r]>
                           w.(rows))
       (with_clock (w.(clock) + 1)
          (with_sent (w.(sent) ++ [send_json (error message)]) w)),
     Ok (s, Break)).
Proof.
  intros Hh Hw Hr.
  rewrite (bind_ok _ _ _ _ _ (ws_send_ok _ w Hw)).
  assert (Hh' : store_healthy (with_sent (sent w ++ [send_json (error message)]) w))
    by by destruct Hh.
  rewrite (bind_ok _ _ _ _ _
             (update_call_data_healthy session_id [set_status Error] _ Hh' ltac:(done))).
  unfold ret. simpl. unfold sql_update. by rewrite Hr.
Qed.

(** X24: a turn whose STT request raises ends the call.  With the store and
    the channel working and the gate open, the caller gets one [error]
    event ([STT service connection error.] for a request error of the HTTP
    client, [Server error processing audio.] for anything else), the row is
    marked [Error] and stamped, no other row changes, and the loop is left.
    Both variants behave so. *)
Theorem stt_request_failure_ends_call (session_id : string) (s : Session) (w : World)
    (r : Row) (e : exn) :
  store_healthy w -> w.(ws_faults) = [] ->
  w.(rows) !! session_id = Some r -> r.(handled_by) = AI ->
  let failed := fold_left assign [set_status Error; set_last_update_time w.(clock)] r in
  let w' := with_rows (fun _ => <[session_id := failed]> w.(rows))
              (with_clock (w.(clock) + 1)
                 (with_sent (w.(sent) ++ [send_json (error (stt_failure_message e))]) w)) in
  (forall env, env.(Main.stt) = stt_raises e ->
     Main.loop_iteration session_id (recv_bytes env) s w = (w', Ok (s, Break)))
  /\ (forall env, env.(SttTranslate.stt) = stt_raises e ->
        SttTranslate.loop_iteration session_id (recv_bytes env) s w
        = (w', Ok (s, Break))).
Proof.
  intros Hh Hw Hr Ha failed w'.
  assert (Hg : handled_by <$> w.(rows) !! session_id = Some AI) by by rewrite Hr, <- Ha.
  split; intros env Henv.
  - unfold Main.loop_iteration, Main.on_bytes.
    erewrite try_except_ok; [reflexivity|].
    erewrite try_except_raise; cycle 1.
    { unfold Main.process_audio.
      rewrite (bind_ok _ _ _ _ _ (db_fetch_healthy session_id handled_by w Hh)).
      rewrite Hg, Henv. cbn [current_handler].
      rewrite bool_decide_eq_false_2 by done. reflexivity. }
    destruct e; by rewrite (on_bytes_handler_run _ _ _ _ r).
  - unfold SttTranslate.loop_iteration, SttTranslate.on_bytes.
    erewrite try_except_ok; [reflexivity|].
    erewrite try_except_raise; cycle 1.
    { unfold SttTranslate.process_audio.
      rewrite (bind_ok _ _ _ _ _ (db_fetch_healthy session_id handled_by w Hh)).
      rewrite Hg, Henv. cbn [current_handler].
      rewrite bool_decide_eq_false_2 by done. reflexivity. }
    destruct e; by rewrite (on_bytes_handler_run _ _ _ _ r).
Qed.

Lemma stt_request_failure_ends_call_witness :
  status <$> (Main.loop_iteration "S1" (recv_bytes main_turn_stt_down) fresh_session
                world_S1).1.(rows) !! "S1" = Some Error.
Proof.
  rewrite (proj1 (stt_request_failure_ends_call "S1" fresh_session world_S1 active_row
                    RequestException ltac:(split; reflexivity) eq_refl eq_refl eq_refl)
             main_turn_stt_down eq_refl).
  reflexivity.
Defined.

(** ** What a turn records *)

Section AfterTranscript.
Variable sid : string.

Lemma heard_kept_refl t : heard_kept sid t t.
Proof. intros r Hr. by exists r. Qed.

Lemma heard_kept_trans t1 t2 t3 :
  heard_kept sid t1 t2 -> heard_kept sid t2 t3 -> heard_kept sid t1 t3.
Proof.
  intros H1 H2 r Hr. destruct (H1 r Hr) as (r' & Hr' & ? & ? & ? & ?).
  destruct (H2 r' Hr') as (r'' & Hr'' & ? & ? & ? & ?).
  exists r''. repeat split; congruence.
Qed.

Lemma fold_late_assign data r :
  Forall late_assign data ->
  let r' := fold_left assign data r in
  r'.(last_transcript) = r.(last_transcript)
  /\ r'.(detected_language) = r.(detected_language)
  /\ r'.(caller_name) = r.(caller_name)
  /\ r'.(routing_label) = r.(routing_label).
Proof.
  intros H. revert r. induction H as [|a data Ha _ IH]; intros r; simpl; [done|].
  destruct (IH (assign r a)) as (? & ? & ? & ?).
  destruct a; simpl in *; done.
Qed.

Lemma heard_kept_update k data now t :
  Forall late_assign data ->
  heard_kept sid t (sql_update k (data ++ [set_last_update_time now]) t).1.
Proof.
  intros Hd r Hr. unfold sql_update.
  destruct (t !! k) as [rk|] eqn:Hk; simpl; [|by exists r].
  destruct (decide (k = sid)) as [->|Hne].
  - rewrite lookup_insert_eq. eexists. split; [done|].
    assert (rk = r) as -> by congruence.
    apply fold_late_assign. apply Forall_app. split; [done|]. by constructor.
  - rewrite lookup_insert_ne by done. by exists r.
Qed.

Lemma late_update k data :
  Forall late_assign data -> keeps (heard_kept sid) (update_call_data k data).
Proof.
  intros Hd.
  apply (keeps_update_call_data (heard_kept sid) (fun _ data => Forall late_assign data)
           heard_kept_refl heard_kept_trans); [|done].
  intros k' data' now t Hd'. by apply heard_kept_update.
Qed.

Ltac late_step :=
  lazymatch goal with
  | |- keeps _ (ret _) => apply keeps_ret, heard_kept_refl
  | |- keeps _ (raise _) => apply keeps_raise, heard_kept_refl
  | |- keeps _ (bind _ _) => apply keeps_bind; [apply heard_kept_trans| |intros ?]
  | |- keeps _ (try_except _ _) =>
      apply keeps_try_except; [apply heard_kept_trans| |intros ?]
  | |- keeps _ (ws_send _) => apply keeps_ws_op, heard_kept_refl
  | |- keeps _ (ask_dialogue _) => apply keeps_ask_dialogue, heard_kept_refl
  | |- keeps _ (update_call_data _ _) => apply late_update; repeat constructor
  | |- keeps _ (Main.chat _ _) =>
      apply keeps_main_chat; [apply heard_kept_refl|apply heard_kept_trans]
  | |- keeps _ (match ?x with _ => _ end) => destruct x
  | |- keeps _ (let _ := _ in _) => cbv zeta
  end.

Lemma late_on_bytes_handler (s : Session) e :
  keeps (heard_kept sid)
    (match e with
     | RequestException =>
         ws_send (error "STT service connection error.") ;;
         update_call_data sid [set_status Error] ;;
         ret (s, Break)
     | _ =>
         ws_send (error "Server error processing audio.") ;;
         update_call_data sid [set_status Error] ;;
         ret (s, Break)
     end).
Proof. repeat late_step. Qed.

Lemma late_loop_handler (s : Session) e :
  keeps (heard_kept sid)
    (match e with
     | WebSocketDisconnect => ret (s, Break)
     | _ =>
         try_except (ws_send (error "Internal server error.")) (fun _ => ret tt) ;;
         ret (s, Break)
     end).
Proof. repeat late_step. Qed.

Lemma late_main_rest env said s label :
  keeps (heard_kept sid)
    (ws_send (routing_info label) ;;
     prompt <- Main.determine_prompt sid label s ;;
     let '(system_content, _, s) := prompt in
     ai_response_content <-
       try_except
         (chat_resp <- Main.chat env.(Main.groq)
                         (Main.mkChatRequest sid said (Some system_content)) ;;
          ret chat_resp.(Main.response_text))
         (fun _ => ret "I apologize, I encountered a problem. Could you please repeat?") ;;
     Main.respond sid ai_response_content env.(Main.tts) ;;
     ret (s, Continue)).
Proof.
  unfold Main.determine_prompt, Main.respond, Main.TTSRequest, Main.synthesize_speech.
  repeat late_step.
Qed.

Lemma late_stt_rest env said s label :
  keeps (heard_kept sid)
    (ws_send (routing_info label) ;;
     prompt <- SttTranslate.determine_prompt sid label s ;;
     let '(system_content, _, s) := prompt in
     ask_dialogue (llama_payload sid said system_content) ;;
     let ai_response_content :=
       match env.(SttTranslate.llama) with
       | Some response_text => strip (get_default response_text "")
       | None => "I apologize, I encountered a problem. Could you please repeat?"
       end in
     let s := match env.(SttTranslate.llama) with
              | Some _ =>
                  if truthy ai_response_content
                  then SttTranslate.history_append (mkMsg assistant ai_response_content) s
                  else s
              | None => s
              end in
     let translated_ai_response_content :=
       SttTranslate.translate_response ai_response_content env.(SttTranslate.translate) in
     let text_for_tts := clean_text_for_tts translated_ai_response_content in
     SttTranslate.respond sid translated_ai_response_content text_for_tts
       env.(SttTranslate.tts) ;;
     ret (s, Continue)).
Proof.
  unfold SttTranslate.determine_prompt, SttTranslate.respond.
  repeat late_step.
Qed.

End AfterTranscript.

Lemma try_except_congr {A} (c c' : M A) h w w' :
  c w = c' w' -> try_except c h w = try_except c' h w'.
Proof. intros H. unfold try_except. by rewrite H. Qed.

(** The world after the update and the transcript event of [process_stt]. *)
Lemma update_then_send_run {A} session_id data e (x : A) w :
  store_healthy w -> w.(ws_faults) = [] -> data <> [] ->
  (update_call_data session_id data ;; ws_send e ;; ret x) w
  = (with_sent (w.(sent) ++ [send_json e])
       (with_rows (fun _ => (sql_update session_id
                               (data ++ [set_last_update_time w.(clock)]) w.(rows)).1)
          (with_clock (w.(clock) + 1) w)),
     Ok x).
Proof.
  intros Hh Hw Hd.
  rewrite (bind_ok _ _ _ _ _ (update_call_data_healthy session_id data w Hh Hd)).
  unfold bind, ret, ws_send, ws_op. simpl. by rewrite Hw.
Qed.

Lemma process_stt_payload_columns (result_json : SttBody) (s : Session) (said : string)
    now r :
  said <> "" ->
  let update_payload := [set_last_transcript said] in
  let update_payload :=
    match result_json.(stt_language_code) with
    | Some l => if truthy l
                then (update_payload ++ [set_detected_language l])%list
                else update_payload
    | None => update_payload
    end in
  let store_name := s.(awaiting_name) && truthy said && negb s.(caller_name_known) in
  let update_payload :=
    if store_name
    then (update_payload ++ [set_caller_name (slice_to 255 said)])%list
    else update_payload in
  update_payload <> []
  /\ turn_recorded result_json None s said r
       (fold_left assign (update_payload ++ [set_last_update_time now]) r).
Proof.
  intros Hs. assert (Ht : truthy said = true) by by apply truthy_true_iff.
  cbv zeta. rewrite Ht, andb_true_r. unfold turn_recorded.
  destruct (stt_language_code result_json) as [l|]; [destruct (truthy l)|];
    destruct (awaiting_name s), (caller_name_known s); simpl; done.
Qed.

(** The routing stage on a working store, and what the stages after it
    leave of the row. *)
Lemma routed_then_late {A} sid (routing : option (option string))
    (rest : string -> M A) (h1 h2 : exn -> M A) w r :
  store_healthy w -> w.(rows) !! sid = Some r ->
  (forall label, keeps (heard_kept sid) (rest label)) ->
  (forall e, keeps (heard_kept sid) (h1 e)) ->
  (forall e, keeps (heard_kept sid) (h2 e)) ->
  let routing_stage :=
    match routing with
    | Some forwarded_to =>
        update_call_data sid [set_routing_label (get_default forwarded_to "Unknown")] ;;
        ret (get_default forwarded_to "Unknown")
    | None => ret "Unknown"
    end in
  exists r',
    (try_except (try_except (label <- routing_stage ;; rest label) h1) h2 w).1.(rows) !! sid
    = Some r'
    /\ r'.(last_transcript) = r.(last_transcript)
    /\ r'.(detected_language) = r.(detected_language)
    /\ r'.(caller_name) = r.(caller_name)
    /\ r'.(routing_label)
       = match routing with
         | Some forwarded_to => get_default forwarded_to "Unknown"
         | None => r.(routing_label)
         end.
Proof.
  intros Hh Hr Hrest H1 H2 routing_stage.
  assert (Hk : forall label, keeps (heard_kept sid)
                               (try_except (try_except (rest label) h1) h2)).
  { intros label. apply keeps_try_except; [apply heard_kept_trans| |done].
    apply keeps_try_except; [apply heard_kept_trans|done|done]. }
  subst routing_stage. destruct routing as [forwarded_to|].
  - set (label := get_default forwarded_to "Unknown").
    pose proof (update_call_data_healthy sid [set_routing_label label] w Hh ltac:(done))
      as Hu.
    set (w2 := with_rows _ _) in Hu.
    assert (Hc : (x <- (update_call_data sid [set_routing_label label] ;; ret label) ;;
                  rest x) w = rest label w2).
    { unfold bind at 1 2. by rewrite Hu. }
    rewrite (try_except_congr _ _ _ _ _ (try_except_congr _ _ _ _ _ Hc)).
    destruct (Hk label w2 (fold_left assign
                             ([set_routing_label label] ++ [set_last_update_time w.(clock)]) r))
      as (r' & Hr' & ? & ? & ? & ?).
    { subst w2. simpl. unfold sql_update. rewrite Hr. simpl. by rewrite lookup_insert_eq. }
    exists r'. by repeat split.
  - assert (Hc : (x <- ret "Unknown" ;; rest x) w = rest "Unknown" w) by done.
    rewrite (try_except_congr _ _ _ _ _ (try_except_congr _ _ _ _ _ Hc)).
    destruct (Hk "Unknown" w r Hr) as (r' & Hr' & ? & ? & ? & ?).
    exists r'. by repeat split.
Qed.

Lemma turn_recorded_routed result_json routing s said r r1 r' :
  turn_recorded result_json None s said r r1 ->
  r'.(last_transcript) = r1.(last_transcript) ->
  r'.(detected_language) = r1.(detected_language) ->
  r'.(caller_name) = r1.(caller_name) ->
  r'.(routing_label)
  = match routing with
    | Some forwarded_to => get_default forwarded_to "Unknown"
    | None => r1.(routing_label)
    end ->
  turn_recorded result_json routing s said r r'.
Proof.
  intros (H1 & H2 & H3 & H4) E1 E2 E3 E4. unfold turn_recorded.
  rewrite E1, E2, E3, E4, H1, H2, H4. repeat split; try done.
  by destruct routing.
Qed.

(** X25: what a turn records.  With the gate open, a working store and
    channel and a 200 answer of the STT service with a transcript that is
    not empty, the row of the session holds after the iteration, whatever
    dialogue generation, translation and synthesis did and even when the
    iteration ended the loop: the transcript in [last_transcript]; the
    language the STT service named, if it named one, and the former one
    otherwise; the department of the classifier, and the former one when the
    routing call failed (the event then says [Unknown], the row does not);
    and as [caller_name] the first 255 characters of the transcript
    ([slice_to], which counts characters, not bytes) when the loop awaited a
    name that it did not know, the former name otherwise.  Both variants
    behave so. *)
Theorem turn_records_what_was_heard (session_id : string) (s : Session) (w : World)
    (r : Row) (result_json : SttBody) (routing : option (option string)) :
  store_healthy w -> w.(ws_faults) = [] ->
  w.(rows) !! session_id = Some r -> r.(handled_by) = AI ->
  let said := strip (get_default result_json.(stt_transcript) "") in
  said <> "" ->
  (forall env,
     env.(Main.stt) = stt_http 200 (Some result_json) -> env.(Main.routing) = routing ->
     exists r',
       (Main.loop_iteration session_id (recv_bytes env) s w).1.(rows) !! session_id
       = Some r'
       /\ turn_recorded result_json routing s said r r')
  /\ (forall env,
        env.(SttTranslate.stt) = stt_http 200 (Some result_json) ->
        env.(SttTranslate.routing) = routing ->
        exists r',
          (SttTranslate.loop_iteration session_id (recv_bytes env) s w).1.(rows)
            !! session_id = Some r'
          /\ turn_recorded result_json routing s said r r').
Proof.
  intros Hh Hw Hr Ha said Hsaid.
  assert (Hg : handled_by <$> w.(rows) !! session_id = Some AI) by by rewrite Hr, <- Ha.
  assert (Ht : truthy said = true) by by apply truthy_true_iff.
  set (s0 := mkSession s.(confirmation_given_this_session) s.(awaiting_name)
                       s.(caller_name_known) AI s.(chat_history)).
  destruct (process_stt_payload_columns result_json s0 said w.(clock) r Hsaid)
    as [Hne Hcols].
  cbv zeta in Hne, Hcols.
  split; intros env Henv Hrouting.
  - unfold Main.loop_iteration, Main.on_bytes.
    match goal with |- context [try_except (try_except ?c ?h1) ?h2 w] =>
      assert (Hc : exists w1 s1 r1,
                 c w = Main.stages_after_stt session_id env said s1 w1
                 /\ store_healthy w1 /\ w1.(rows) !! session_id = Some r1
                 /\ turn_recorded result_json None s said r r1)
    end.
    { unfold Main.process_audio.
      rewrite (bind_ok _ _ _ _ _ (db_fetch_healthy session_id handled_by w Hh)).
      rewrite Hg, Henv. fold s0. cbn [current_handler s0].
      rewrite bool_decide_eq_false_2 by done. cbn [negb Nat.eqb].
      unfold Main.process_stt. cbv zeta. fold said.
      eexists _, _, _. split.
      { rewrite (bind_ok _ _ _ _ _ (update_then_send_run session_id _ _ _ w Hh Hw Hne)).
        cbv beta iota. rewrite Ht. cbn [negb]. reflexivity. }
      split; [by destruct Hh|]. split; [|exact Hcols].
      simpl. unfold sql_update. rewrite Hr. simpl. by rewrite lookup_insert_eq, Ht. }
    destruct Hc as (w1 & s1 & r1 & Hc & Hh1 & Hr1 & Hcols1).
    rewrite (try_except_congr _ _ _ _ _ (try_except_congr _ _ _ _ _ Hc)).
    unfold Main.stages_after_stt. rewrite Hrouting.
    match goal with |- context [try_except (try_except (bind _ ?rest) ?h1) ?h2 w1] =>
      edestruct (routed_then_late session_id routing rest h1 h2 w1 r1 Hh1 Hr1)
        as (r' & Hr' & E1 & E2 & E3 & E4)
    end.
    4: { exists r'. split; [exact Hr'|]. by eapply turn_recorded_routed. }
    + intros label. apply (late_main_rest session_id env said s1 label).
    + intros e. apply late_on_bytes_handler.
    + intros e. apply late_loop_handler.
  - unfold SttTranslate.loop_iteration, SttTranslate.on_bytes.
    match goal with |- context [try_except (try_except ?c ?h1) ?h2 w] =>
      assert (Hc : exists w1 s1 r1,
                 c w = SttTranslate.stages_after_stt session_id env said s1 w1
                 /\ store_healthy w1 /\ w1.(rows) !! session_id = Some r1
                 /\ turn_recorded result_json None s said r r1)
    end.
    { unfold SttTranslate.process_audio.
      rewrite (bind_ok _ _ _ _ _ (db_fetch_healthy session_id handled_by w Hh)).
      rewrite Hg, Henv. fold s0. cbn [current_handler s0].
      rewrite bool_decide_eq_false_2 by done. cbn [negb Nat.eqb].
      unfold SttTranslate.process_stt. cbv zeta. fold said.
      eexists _, _, _. split.
      { rewrite (bind_ok _ _ _ _ _ (update_then_send_run session_id _ _ _ w Hh Hw Hne)).
        cbv beta iota. rewrite Ht. cbn [negb andb]. reflexivity. }
      split; [by destruct Hh|]. split; [|exact Hcols].
      simpl. unfold sql_update. rewrite Hr. simpl. by rewrite lookup_insert_eq, Ht. }
    destruct Hc as (w1 & s1 & r1 & Hc & Hh1 & Hr1 & Hcols1).
    rewrite (try_except_congr _ _ _ _ _ (try_except_congr _ _ _ _ _ Hc)).
    unfold SttTranslate.stages_after_stt. rewrite Hrouting.
    match goal with |- context [try_except (try_except (bind _ ?rest) ?h1) ?h2 w1] =>
      edestruct (routed_then_late session_id routing rest h1 h2 w1 r1 Hh1 Hr1)
        as (r' & Hr' & E1 & E2 & E3 & E4)
    end.
    4: { exists r'. split; [exact Hr'|]. by eapply turn_recorded_routed. }
    + intros label. apply (late_stt_rest session_id env said s1 label).
    + intros e. apply late_on_bytes_handler.
    + intros e. apply late_loop_handler.
Qed.

(** A name of 300 Malayalam letters is recorded as its first 255 letters,
    next to the department of the turn. *)
Lemma turn_records_what_was_heard_witness :
  let w' := (Main.loop_iteration "S1"
               (recv_bytes (main_turn (letters 300) "Fire Department" "Hello"))
               (mkSession false true false AI []) world_S1).1 in
  routing_label <$> w'.(rows) !! "S1" = Some "Fire Department"
  /\ caller_name <$> w'.(rows) !! "S1" = Some (letters 255).
Proof.
  destruct (proj1 (turn_records_what_was_heard "S1" (mkSession false true false AI [])
                     world_S1 active_row
                     (mkSttBody (Some (letters 300)) (Some "ml-IN"))
                     (Some (Some "Fire Department"))
                     ltac:(split; reflexivity) eq_refl eq_refl eq_refl
                     ltac:(vm_compute; discriminate))
              (main_turn (letters 300) "Fire Department" "Hello") eq_refl eq_refl)
    as (r' & Hr' & _ & _ & Hl & Hn).
  cbv zeta. rewrite Hr'. simpl. rewrite Hl, Hn. split; reflexivity.
Defined.

(** ** Results and requests of a computation *)

Lemma yields_ret {A} (a : A) (Q : A -> Prop) : Q a -> yields (ret a) Q.
Proof. intros H w a' E. simpl in E. by simplify_eq. Qed.

Lemma yields_raise {A} e (Q : A -> Prop) : yields (raise e) Q.
Proof. intros w a E. discriminate. Qed.

Lemma yields_bind {A B} (c : M A) (k : A -> M B) (Q1 : A -> Prop) (Q : B -> Prop) :
  yields c Q1 -> (forall a, Q1 a -> yields (k a) Q) -> yields (bind c k) Q.
Proof.
  intros Hc Hk w b. unfold bind. specialize (Hc w).
  destruct (c w) as [w1 [a|e]]; simpl in *; [|discriminate].
  apply Hk. by apply Hc.
Qed.

Lemma yields_try_except {A} (c : M A) h (Q : A -> Prop) :
  yields c Q -> (forall e, yields (h e) Q) -> yields (try_except c h) Q.
Proof.
  intros Hc Hh w a. unfold try_except. specialize (Hc w).
  destruct (c w) as [w1 [a'|e]]; simpl in *; [|apply Hh].
  intros E. apply Hc. done.
Qed.

Lemma yields_any {A} (c : M A) : yields c (fun _ => True).
Proof. done. Qed.

Lemma yields_impl {A} (c : M A) (Q Q' : A -> Prop) :
  yields c Q -> (forall a, Q a -> Q' a) -> yields c Q'.
Proof. intros Hc HQ w a E. apply HQ. by eapply Hc. Qed.












Lemma emits_ask (P : DialogueRequest -> Prop) q : P q -> emits P (ask_dialogue q).
Proof. intros H w. exists [q]. split; [done|]. by constructor. Qed.


(** ** The confirmation through the loop (main.py) *)


(** The gate, the STT stage and the update that follows it, on a working
    store and channel. *)
Lemma main_process_audio_run session_id env s w r result_json :
  store_healthy w -> w.(ws_faults) = [] ->
  w.(rows) !! session_id = Some r -> r.(handled_by) = AI ->
  env.(Main.stt) = stt_http 200 (Some result_json) ->
  let said := strip (get_default result_json.(stt_transcript) "") in
  said <> "" ->
  exists w1 s1 r1,
    Main.process_audio session_id env s w
    = Main.stages_after_stt session_id env said s1 w1
    /\ store_healthy w1 /\ w1.(ws_faults) = []
    /\ w1.(dialogue_requests) = w.(dialogue_requests)
    /\ w1.(rows) !! session_id = Some r1
    /\ turn_recorded result_json None s said r r1
    /\ s1.(confirmation_given_this_session) = s.(confirmation_given_this_session)
    /\ s1.(caller_name_known) = s.(caller_name_known) || s.(awaiting_name)
    /\ s1.(awaiting_name) = s.(awaiting_name) && s.(caller_name_known).
Proof.
  intros Hh Hw Hr Ha Henv said Hsaid.
  assert (Hg : handled_by <$> w.(rows) !! session_id = Some AI) by by rewrite Hr, <- Ha.
  assert (Ht : truthy said = true) by by apply truthy_true_iff.
  set (s0 := mkSession s.(confirmation_given_this_session) s.(awaiting_name)
                       s.(caller_name_known) AI s.(chat_history)).
  destruct (process_stt_payload_columns result_json s0 said w.(clock) r Hsaid)
    as [Hne Hcols].
  cbv zeta in Hne, Hcols.
  unfold Main.process_audio.
  rewrite (bind_ok _ _ _ _ _ (db_fetch_healthy session_id handled_by w Hh)).
  rewrite Hg, Henv. fold s0. cbn [current_handler s0].
  rewrite bool_decide_eq_false_2 by done. cbn [negb Nat.eqb].
  unfold Main.process_stt. cbv zeta. fold said.
  eexists _, _, _. split.
  { rewrite (bind_ok _ _ _ _ _ (update_then_send_run session_id _ _ _ w Hh Hw Hne)).
    cbv beta iota. rewrite Ht. cbn [negb]. reflexivity. }
  split; [by destruct Hh|]. split; [done|]. split; [done|].
  split; [|split; [exact Hcols|]].
  - simpl. unfold sql_update. rewrite Hr. simpl. by rewrite lookup_insert_eq, Ht.
  - subst s0. simpl. destruct (awaiting_name s), (caller_name_known s); by simpl.
Qed.







Lemma yields_on_bytes_handler session_id (s : Session) I e :
  yields (match e with
          | RequestException =>
              ws_send (error "STT service connection error.") ;;
              update_call_data session_id [set_status Error] ;;
              ret (s, Break)
          | _ =>
              ws_send (error "Server error processing audio.") ;;
              update_call_data session_id [set_status Error] ;;
              ret (s, Break)
          end) (goes_on I).
Proof.
  destruct e;
    (eapply yields_bind; [apply yields_any|intros ? _];
     eapply yields_bind; [apply yields_any|intros ? _];
     by apply yields_ret).
Qed.

Lemma yields_loop_handler (s : Session) I e :
  yields (match e with
          | WebSocketDisconnect => ret (s, Break)
          | _ =>
              try_except (ws_send (error "Internal server error.")) (fun _ => ret tt) ;;
              ret (s, Break)
          end) (goes_on I).
Proof.
  destruct e; try (by apply yields_ret);
    (eapply yields_bind; [apply yields_any|intros ? _]; by apply yields_ret).
Qed.










Lemma bind_congr {A B} (c c' : M A) (k : A -> M B) w w' :
  c w = c' w' -> bind c k w = bind c' k w'.
Proof. intros H. unfold bind. by rewrite H. Qed.

(** Proves [keeps T c] for code put together from the primitives, from the
    three facts about [T]. *)
Ltac kept_step Hrefl Htrans Hupd :=
  lazymatch goal with
  | |- keeps _ (ret _) => apply keeps_ret, Hrefl
  | |- keeps _ (raise _) => apply keeps_raise, Hrefl
  | |- keeps _ (bind _ _) => apply keeps_bind; [apply Htrans| |intros ?]
  | |- keeps _ (try_except _ _) => apply keeps_try_except; [apply Htrans| |intros ?]
  | |- keeps _ (ws_send _) => apply keeps_ws_op, Hrefl
  | |- keeps _ (ask_dialogue _) => apply keeps_ask_dialogue, Hrefl
  | |- keeps _ (db_run (sql_fetch _ _)) => apply keeps_db_fetch, Hrefl
  | |- keeps _ (update_call_data _ _) =>
      apply Hupd; repeat case_match; simpl; repeat constructor; done
  | |- keeps _ (Main.chat _ _) => apply keeps_main_chat; [apply Hrefl|apply Htrans]
  | |- keeps _ (match ?x with _ => _ end) => destruct x
  | |- keeps _ (let _ := _ in _) => cbv zeta
  end.




(** ** The caller's name through the loop *)

Lemma keeps_bind_yields (T : gmap string Row -> gmap string Row -> Prop) {A B}
    (c : M A) (k : A -> M B) (Q : A -> Prop) :
  (forall t1 t2 t3, T t1 t2 -> T t2 t3 -> T t1 t3) ->
  keeps T c -> yields c Q -> (forall a, Q a -> keeps T (k a)) -> keeps T (bind c k).
Proof.
  intros Ht Hc Hy Hk w. unfold bind. specialize (Hc w). specialize (Hy w).
  destruct (c w) as [w1 [a|e]]; simpl in *; [|done].
  eapply Ht; [exact Hc|]. by apply Hk, Hy.
Qed.

Section CallerName.
Variable sid : string.

Lemma name_kept_refl t : name_kept sid t t.
Proof. intros r Hr. by exists r. Qed.

Lemma name_kept_trans t1 t2 t3 :
  name_kept sid t1 t2 -> name_kept sid t2 t3 -> name_kept sid t1 t3.
Proof.
  intros H1 H2 r Hr. destruct (H1 r Hr) as (r' & Hr' & ?).
  destruct (H2 r' Hr') as (r'' & Hr'' & ?). exists r''. split; congruence.
Qed.

Lemma fold_no_name data r :
  Forall no_name data -> (fold_left assign data r).(caller_name) = r.(caller_name).
Proof.
  intros H. revert r. induction H as [|a data Ha _ IH]; intros r; simpl; [done|].
  rewrite IH. by destruct a.
Qed.

Lemma name_kept_update k data now t :
  Forall no_name data ->
  name_kept sid t (sql_update k (data ++ [set_last_update_time now]) t).1.
Proof.
  intros Hd r Hr. unfold sql_update.
  destruct (t !! k) as [rk|] eqn:Hk; simpl; [|by exists r].
  destruct (decide (k = sid)) as [->|Hne].
  - rewrite lookup_insert_eq. eexists. split; [done|].
    assert (rk = r) as -> by congruence.
    apply fold_no_name. apply Forall_app. split; [done|]. by constructor.
  - rewrite lookup_insert_ne by done. by exists r.
Qed.

Lemma name_update_call_data k data :
  Forall no_name data -> keeps (name_kept sid) (update_call_data k data).
Proof.
  intros Hd.
  apply (keeps_update_call_data (name_kept sid) (fun _ => Forall no_name)
           name_kept_refl name_kept_trans); [|done].
  intros k' data' now t. apply name_kept_update.
Qed.

Ltac name_step := kept_step name_kept_refl name_kept_trans name_update_call_data.

Lemma name_on_bytes_handler (s : Session) e :
  keeps (name_kept sid)
    (match e with
     | RequestException =>
         ws_send (error "STT service connection error.") ;;
         update_call_data sid [set_status Error] ;;
         ret (s, Break)
     | _ =>
         ws_send (error "Server error processing audio.") ;;
         update_call_data sid [set_status Error] ;;
         ret (s, Break)
     end).
Proof. repeat name_step. Qed.

Lemma name_loop_handler (s : Session) e :
  keeps (name_kept sid)
    (match e with
     | WebSocketDisconnect => ret (s, Break)
     | _ =>
         try_except (ws_send (error "Internal server error.")) (fun _ => ret tt) ;;
         ret (s, Break)
     end).
Proof. repeat name_step. Qed.

(** No stage after STT writes the name. *)
Lemma name_main_stages env said s :
  keeps (name_kept sid) (Main.stages_after_stt sid env said s).
Proof.
  unfold Main.stages_after_stt, Main.determine_prompt, Main.respond, Main.TTSRequest,
    Main.synthesize_speech.
  repeat name_step.
Qed.

Lemma name_stt_stages env said s :
  keeps (name_kept sid) (SttTranslate.stages_after_stt sid env said s).
Proof.
  unfold SttTranslate.stages_after_stt, SttTranslate.determine_prompt,
    SttTranslate.respond.
  repeat name_step.
Qed.

(** With the name known, the STT stage does not write it again. *)
Lemma name_main_process_stt result_json s :
  knows s ->
  keeps (name_kept sid) (Main.process_stt sid result_json s)
  /\ yields (Main.process_stt sid result_json s) (fun heard => knows heard.2).
Proof.
  intros Hn. unfold Main.process_stt. cbv zeta. rewrite Hn, andb_false_r. split.
  - repeat name_step.
  - eapply yields_bind; [apply yields_any|intros ? _].
    eapply yields_bind; [apply yields_any|intros ? _]. by apply yields_ret.
Qed.

Lemma name_stt_process_stt result_json s :
  knows s ->
  keeps (name_kept sid) (SttTranslate.process_stt sid result_json s)
  /\ yields (SttTranslate.process_stt sid result_json s) (fun heard => knows heard.2).
Proof.
  intros Hn. unfold SttTranslate.process_stt. cbv zeta. rewrite Hn, andb_false_r. split.
  - repeat name_step.
  - eapply yields_bind; [apply yields_any|intros ? _].
    eapply yields_bind; [apply yields_any|intros ? _].
    apply yields_ret. by destruct (truthy _).
Qed.

(** The stages after STT do not forget that the name is known. *)
Lemma knows_main_stages env said s :
  knows s -> yields (Main.stages_after_stt sid env said s) (goes_on knows).
Proof.
  intros Hn. unfold Main.stages_after_stt.
  eapply yields_bind; [apply yields_any|intros label _].
  eapply yields_bind; [apply yields_any|intros ? _].
  apply (yields_bind _ _ (fun p => knows p.2)).
  - unfold Main.determine_prompt. rewrite Hn. cbn [negb]. cbv zeta.
    destruct (_ && _).
    + eapply yields_bind; [apply yields_any|intros ? _]. by apply yields_ret.
    + by apply yields_ret.
  - intros [[prompt phase] s'] Hs'.
    eapply yields_bind; [apply yields_any|intros ? _].
    eapply yields_bind; [apply yields_any|intros ? _].
    apply yields_ret. intros _. exact Hs'.
Qed.

Lemma knows_stt_stages env said s :
  knows s -> yields (SttTranslate.stages_after_stt sid env said s) (goes_on knows).
Proof.
  intros Hn. unfold SttTranslate.stages_after_stt.
  eapply yields_bind; [apply yields_any|intros label _].
  eapply yields_bind; [apply yields_any|intros ? _].
  apply (yields_bind _ _ (fun p => knows p.2)).
  - unfold SttTranslate.determine_prompt.
    destruct (SttTranslate.first_turn s); [by apply yields_ret|]. cbv zeta.
    destruct (_ && _).
    + eapply yields_bind; [apply yields_any|intros ? _]. by apply yields_ret.
    + by apply yields_ret.
  - intros [[prompt phase] s'] Hs'. cbv zeta.
    eapply yields_bind; [apply yields_any|intros ? _].
    eapply yields_bind; [apply yields_any|intros ? _].
    apply yields_ret. intros _. simpl.
    destruct (SttTranslate.llama env); [destruct (truthy _)|]; exact Hs'.
Qed.

Lemma knows_gate (s : Session) (handler_status : option Handler) :
  knows s ->
  knows match handler_status with
        | Some h => mkSession s.(confirmation_given_this_session) s.(awaiting_name)
                              s.(caller_name_known) h s.(chat_history)
        | None => s
        end.
Proof. by destruct handler_status. Qed.

Lemma name_main_loop_iteration message s :
  knows s ->
  keeps (name_kept sid) (Main.loop_iteration sid message s)
  /\ yields (Main.loop_iteration sid message s) (goes_on knows).
Proof.
  intros Hs. unfold Main.loop_iteration. split.
  - apply keeps_try_except; [apply name_kept_trans| |apply name_loop_handler].
    destruct message as [e| |env| |]; try (by repeat name_step).
    unfold Main.on_bytes.
    apply keeps_try_except; [apply name_kept_trans| |apply name_on_bytes_handler].
    unfold Main.process_audio.
    apply keeps_bind; [apply name_kept_trans|by repeat name_step|intros handler_status].
    cbv zeta. pose proof (knows_gate s handler_status Hs) as Hs'.
    set (s' := match handler_status with Some _ => _ | None => _ end) in *.
    case_bool_decide; [by repeat name_step|].
    destruct (Main.stt env) as [e|status_code [result_json|]]; try (by repeat name_step).
    destruct (negb (status_code =? 200)%nat); [by repeat name_step|].
    eapply keeps_bind_yields;
      [apply name_kept_trans|by apply name_main_process_stt
      |by apply name_main_process_stt|intros [heard s1] Hs1].
    destruct (negb (truthy heard)); [by repeat name_step|]. apply name_main_stages.
  - apply yields_try_except; [|intros e; apply yields_loop_handler].
    destruct message as [e| |env| |];
      try (apply yields_ret; intros _; exact Hs); try (by apply yields_ret);
      try apply yields_raise.
    unfold Main.on_bytes.
    apply yields_try_except; [|intros e; apply yields_on_bytes_handler].
    unfold Main.process_audio.
    eapply yields_bind; [apply yields_any|intros handler_status _].
    cbv zeta. pose proof (knows_gate s handler_status Hs) as Hs'.
    set (s' := match handler_status with Some _ => _ | None => _ end) in *.
    case_bool_decide; [apply yields_ret; intros _; exact Hs'|].
    destruct (Main.stt env) as [e|status_code [result_json|]]; try apply yields_raise.
    + destruct (negb (status_code =? 200)%nat).
      * eapply yields_bind; [apply yields_any|intros ? _].
        apply yields_ret. intros _; exact Hs'.
      * eapply yields_bind; [by apply name_main_process_stt|intros [heard s1] Hs1].
        destruct (negb (truthy heard)); [apply yields_ret; intros _; exact Hs1|].
        by apply knows_main_stages.
    + destruct (negb (status_code =? 200)%nat); [|apply yields_raise].
      eapply yields_bind; [apply yields_any|intros ? _].
      apply yields_ret. intros _; exact Hs'.
Qed.

Lemma name_stt_loop_iteration message s :
  knows s ->
  keeps (name_kept sid) (SttTranslate.loop_iteration sid message s)
  /\ yields (SttTranslate.loop_iteration sid message s) (goes_on knows).
Proof.
  intros Hs. unfold SttTranslate.loop_iteration. split.
  - apply keeps_try_except; [apply name_kept_trans| |apply name_loop_handler].
    destruct message as [e| |env| |]; try (by repeat name_step).
    unfold SttTranslate.on_bytes.
    apply keeps_try_except; [apply name_kept_trans| |apply name_on_bytes_handler].
    unfold SttTranslate.process_audio.
    apply keeps_bind; [apply name_kept_trans|by repeat name_step|intros handler_status].
    cbv zeta. pose proof (knows_gate s handler_status Hs) as Hs'.
    set (s' := match handler_status with Some _ => _ | None => _ end) in *.
    case_bool_decide; [by repeat name_step|].
    destruct (SttTranslate.stt env) as [e|status_code [result_json|]];
      try (by repeat name_step).
    destruct (negb (status_code =? 200)%nat); [by repeat name_step|].
    eapply keeps_bind_yields;
      [apply name_kept_trans|by apply name_stt_process_stt
      |by apply name_stt_process_stt|intros [heard s1] Hs1].
    destruct (_ && _); [by repeat name_step|]. apply name_stt_stages.
  - apply yields_try_except; [|intros e; apply yields_loop_handler].
    destruct message as [e| |env| |];
      try (apply yields_ret; intros _; exact Hs); try (by apply yields_ret);
      try apply yields_raise.
    unfold SttTranslate.on_bytes.
    apply yields_try_except; [|intros e; apply yields_on_bytes_handler].
    unfold SttTranslate.process_audio.
    eapply yields_bind; [apply yields_any|intros handler_status _].
    cbv zeta. pose proof (knows_gate s handler_status Hs) as Hs'.
    set (s' := match handler_status with Some _ => _ | None => _ end) in *.
    case_bool_decide; [apply yields_ret; intros _; exact Hs'|].
    destruct (SttTranslate.stt env) as [e|status_code [result_json|]];
      try apply yields_raise.
    + destruct (negb (status_code =? 200)%nat).
      * eapply yields_bind; [apply yields_any|intros ? _].
        apply yields_ret. intros _; exact Hs'.
      * eapply yields_bind; [by apply name_stt_process_stt|intros [heard s1] Hs1].
        destruct (_ && _); [apply yields_ret; intros _; exact Hs1|].
        by apply knows_stt_stages.
    + destruct (negb (status_code =? 200)%nat); [|apply yields_raise].
      eapply yields_bind; [apply yields_any|intros ? _].
      apply yields_ret. intros _; exact Hs'.
Qed.

Lemma name_main_loop traffic s :
  knows s -> keeps (name_kept sid) (Main.main_loop sid traffic s).
Proof.
  revert s. induction traffic as [|message rest IH]; intros s Hs; simpl.
  - apply keeps_bind; [apply name_kept_trans|by apply name_main_loop_iteration|].
    intros ?. apply keeps_ret, name_kept_refl.
  - eapply keeps_bind_yields;
      [apply name_kept_trans|by apply name_main_loop_iteration
      |by apply name_main_loop_iteration|].
    intros [s' []] Hgo; simpl; [apply IH; by apply Hgo|apply keeps_ret, name_kept_refl].
Qed.

Lemma name_stt_loop traffic s :
  knows s -> keeps (name_kept sid) (SttTranslate.main_loop sid traffic s).
Proof.
  revert s. induction traffic as [|message rest IH]; intros s Hs; simpl.
  - apply keeps_bind; [apply name_kept_trans|by apply name_stt_loop_iteration|].
    intros ?. apply keeps_ret, name_kept_refl.
  - eapply keeps_bind_yields;
      [apply name_kept_trans|by apply name_stt_loop_iteration
      |by apply name_stt_loop_iteration|].
    intros [s' []] Hgo; simpl; [apply IH; by apply Hgo|apply keeps_ret, name_kept_refl].
Qed.

End CallerName.

Lemma stt_process_audio_run session_id env s w r result_json :
  store_healthy w -> w.(ws_faults) = [] ->
  w.(rows) !! session_id = Some r -> r.(handled_by) = AI ->
  env.(SttTranslate.stt) = stt_http 200 (Some result_json) ->
  let said := strip (get_default result_json.(stt_transcript) "") in
  said <> "" ->
  exists w1 s1 r1,
    SttTranslate.process_audio session_id env s w
    = SttTranslate.stages_after_stt session_id env said s1 w1
    /\ store_healthy w1 /\ w1.(ws_faults) = []
    /\ w1.(dialogue_requests) = w.(dialogue_requests)
    /\ w1.(rows) !! session_id = Some r1
    /\ turn_recorded result_json None s said r r1
    /\ s1.(confirmation_given_this_session) = s.(confirmation_given_this_session)
    /\ s1.(caller_name_known) = s.(caller_name_known) || s.(awaiting_name)
    /\ s1.(awaiting_name) = s.(awaiting_name) && s.(caller_name_known)
    /\ s1.(chat_history) = (s.(chat_history) ++ [mkMsg user said])%list.
Proof.
  intros Hh Hw Hr Ha Henv said Hsaid.
  assert (Hg : handled_by <$> w.(rows) !! session_id = Some AI) by by rewrite Hr, <- Ha.
  assert (Ht : truthy said = true) by by apply truthy_true_iff.
  set (s0 := mkSession s.(confirmation_given_this_session) s.(awaiting_name)
                       s.(caller_name_known) AI s.(chat_history)).
  destruct (process_stt_payload_columns result_json s0 said w.(clock) r Hsaid)
    as [Hne Hcols].
  cbv zeta in Hne, Hcols.
  unfold SttTranslate.process_audio.
  rewrite (bind_ok _ _ _ _ _ (db_fetch_healthy session_id handled_by w Hh)).
  rewrite Hg, Henv. fold s0. cbn [current_handler s0].
  rewrite bool_decide_eq_false_2 by done. cbn [negb Nat.eqb].
  unfold SttTranslate.process_stt. cbv zeta. fold said.
  eexists _, _, _. split.
  { rewrite (bind_ok _ _ _ _ _ (update_then_send_run session_id _ _ _ w Hh Hw Hne)).
    cbv beta iota. rewrite Ht. cbn [negb andb]. reflexivity. }
  split; [by destruct Hh|]. split; [done|]. split; [done|].
  split; [|split; [exact Hcols|]].
  - simpl. unfold sql_update. rewrite Hr. simpl. by rewrite lookup_insert_eq, Ht.
  - subst s0. simpl. destruct (awaiting_name s), (caller_name_known s); by simpl.
Qed.

Lemma len_slice_to_min (n : nat) (text : string) :
  len (slice_to n text) = Nat.min n (len text).
Proof.
  revert n. induction text as [|c text IH]; intros n; simpl.
  - by rewrite Nat.min_0_r.
  - destruct (is_continuation c) eqn:E.
    + simpl. by rewrite E, IH.
    + destruct n as [|n]; simpl; [done|]. by rewrite E, IH.
Qed.

Lemma slice_to_prefix (n : nat) (text : string) :
  exists rest, text = slice_to n text ++ rest.
Proof.
  revert n. induction text as [|c text IH]; intros n; simpl.
  - by exists "".
  - destruct (is_continuation c).
    + destruct (IH n) as [rest Hrest]. exists rest.
      rewrite string_app_cons. by f_equal.
    + destruct n as [|n]; [by eexists|].
      destruct (IH n) as [rest Hrest]. exists rest.
      rewrite string_app_cons. by f_equal.
Qed.

(** ** Leaving the handler *)

Lemma main_after_set_up session_id traffic w :
  (try_finally
     (try_except
        (s <- Main.fetch_initial_state session_id ;;
         Main.main_loop session_id traffic s)
        (fun _ => try_except (ws_close 1011) (fun _ => ret tt)))
     (update_call_data session_id [set_status Ended]) w).2 = Ok tt.
Proof.
  unfold try_finally.
  assert (Hb : (try_except
                  (s <- Main.fetch_initial_state session_id ;;
                   Main.main_loop session_id traffic s)
                  (fun _ => try_except (ws_close 1011) (fun _ => ret tt)) w).2 = Ok tt).
  { unfold try_except at 1, bind.
    destruct (Main.fetch_initial_state session_id w) as [w2 [s|e]].
    - pose proof (main_main_loop_never_raises session_id traffic s w2) as H.
      destruct (Main.main_loop session_id traffic s w2) as [w3 r]. simpl in H. by subst.
    - destruct (close_guarded w2) as [w3 ->]. done. }
  destruct (try_except _ _ w) as [w2 r2]. simpl in Hb. subst r2.
  pose proof (update_call_data_never_raises session_id [set_status Ended] w2) as Hn.
  destruct (update_call_data session_id [set_status Ended] w2) as [w3 r3].
  simpl in Hn. by subst.
Qed.

Lemma stt_after_set_up session_id traffic w :
  (try_finally
     (try_except
        (s <- SttTranslate.fetch_initial_state session_id ;;
         SttTranslate.main_loop session_id traffic s)
        (fun _ => try_except (ws_close 1011) (fun _ => ret tt)))
     (update_call_data session_id [set_status Ended]) w).2 = Ok tt.
Proof.
  unfold try_finally.
  assert (Hb : (try_except
                  (s <- SttTranslate.fetch_initial_state session_id ;;
                   SttTranslate.main_loop session_id traffic s)
                  (fun _ => try_except (ws_close 1011) (fun _ => ret tt)) w).2 = Ok tt).
  { unfold try_except at 1, bind.
    destruct (SttTranslate.fetch_initial_state session_id w) as [w2 [s|e]].
    - pose proof (stt_main_loop_never_raises session_id traffic s w2) as H.
      destruct (SttTranslate.main_loop session_id traffic s w2) as [w3 r].
      simpl in H. by subst.
    - destruct (close_guarded w2) as [w3 ->]. done. }
  destruct (try_except _ _ w) as [w2 r2]. simpl in Hb. subst r2.
  pose proof (update_call_data_never_raises session_id [set_status Ended] w2) as Hn.
  destruct (update_call_data session_id [set_status Ended] w2) as [w3 r3].
  simpl in Hn. by subst.
Qed.

(** The upsert that opens a connection raises only through the unguarded
    [close(1011)] that answers its failure. *)
Lemma initialise_call_outcome session_id w :
  w.(db_pool) = true ->
  (Main.initialise_call session_id w).2
  = match w.(db_faults), w.(ws_faults) with
    | true :: _, Some e :: _ => Raise e
    | true :: _, _ => Ok false
    | _, _ => Ok true
    end.
Proof.
  intros Hp. unfold Main.initialise_call, try_except, bind, ret, datetime_now, db_run,
    ws_close, ws_op. simpl. rewrite Hp. simpl.
  destruct (db_faults w) as [|[] rest]; simpl.
  - by destruct (sql_init_call _ _ _) as [t []].
  - by destruct (ws_faults w) as [|[e|] rest'].
  - by destruct (sql_init_call _ _ _) as [t []].
Qed.

(** X8: an exception leaves a connection handler only from its set-up.  With
    the pool up, [call_endpoint] raises [e] exactly when [accept()] raises
    [e], or when [accept()] succeeds, the upsert fails and the
    [close(1011)] that answers the failure raises [e]; without a pool it
    returns before [accept()].  In every other run the handler returns
    normally, whatever the traffic, the collaborators and the later faults
    of store and channel are.  Both variants behave so. *)
Theorem call_endpoint_raises_in_set_up_only (session_id : string) (w : World) :
  let outcome : result unit :=
    if negb w.(db_pool) then Ok tt
    else match w.(ws_faults), w.(db_faults) with
         | Some e :: _, _ => Raise e
         | None :: Some e :: _, true :: _ => Raise e
         | _, _ => Ok tt
         end in
  (forall traffic, (Main.call_endpoint session_id traffic w).2 = outcome)
  /\ (forall traffic, (SttTranslate.call_endpoint session_id traffic w).2 = outcome).
Proof.
  intros outcome. subst outcome.
  split; intros traffic.
  - unfold Main.call_endpoint. destruct (db_pool w) eqn:Hp; [|done]. cbn [negb].
    unfold bind at 1, ws_accept, ws_op.
    destruct (ws_faults w) as [|[e|] rest] eqn:Ew; [|done|].
    + set (w0 := with_sent _ _).
      pose proof (initialise_call_outcome session_id w0 Hp) as Hi.
      subst w0. simpl in Hi. rewrite Ew in Hi.
      unfold bind at 1.
      destruct (Main.initialise_call session_id _) as [w1 r1]. simpl in Hi. subst r1.
      destruct (db_faults w) as [|[] rest']; cbn [negb]; try done;
        apply main_after_set_up.
    + set (w0 := with_sent _ _).
      pose proof (initialise_call_outcome session_id w0 Hp) as Hi.
      subst w0. simpl in Hi.
      unfold bind at 1.
      destruct (Main.initialise_call session_id _) as [w1 r1]. simpl in Hi. subst r1.
      destruct (db_faults w) as [|[] rest']; cbn [negb];
        rewrite ?main_after_set_up; by destruct rest as [|[e|] rest''].
  - unfold SttTranslate.call_endpoint, SttTranslate.initialise_call.
    fold (Main.initialise_call session_id).
    destruct (db_pool w) eqn:Hp; [|done]. cbn [negb].
    unfold bind at 1, ws_accept, ws_op.
    destruct (ws_faults w) as [|[e|] rest] eqn:Ew; [|done|].
    + set (w0 := with_sent _ _).
      pose proof (initialise_call_outcome session_id w0 Hp) as Hi.
      subst w0. simpl in Hi. rewrite Ew in Hi.
      unfold bind at 1.
      destruct (Main.initialise_call session_id _) as [w1 r1]. simpl in Hi. subst r1.
      destruct (db_faults w) as [|[] rest']; cbn [negb]; try done;
        apply stt_after_set_up.
    + set (w0 := with_sent _ _).
      pose proof (initialise_call_outcome session_id w0 Hp) as Hi.
      subst w0. simpl in Hi.
      unfold bind at 1.
      destruct (Main.initialise_call session_id _) as [w1 r1]. simpl in Hi. subst r1.
      destruct (db_faults w) as [|[] rest']; cbn [negb];
        rewrite ?stt_after_set_up; by destruct rest as [|[e|] rest''].
Qed.

(** The channel closes with an exception after a failed upsert: the
    exception leaves both handlers. *)
Lemma call_endpoint_raises_in_set_up_only_witness :
  let w := with_ws_faults [None; Some Exception] (with_db_faults [true] world_S1) in
  (Main.call_endpoint "S1" [recv_bytes (main_turn "Fire" "Fire Department" "Where?")] w).2
  = Raise Exception
  /\ (SttTranslate.call_endpoint "S1"
        [recv_bytes (stt_turn "Fire" "Fire Department" "Where?")] w).2
     = Raise Exception
  /\ (Main.call_endpoint "S1" [recv_raises Exception]
        (with_ws_faults [None; Some WebSocketDisconnect; Some Exception] world_S1)).2
     = Ok tt.
Proof.
  split; [|split].
  - exact (proj1 (call_endpoint_raises_in_set_up_only "S1"
                    (with_ws_faults [None; Some Exception]
                       (with_db_faults [true] world_S1))) _).
  - exact (proj2 (call_endpoint_raises_in_set_up_only "S1"
                    (with_ws_faults [None; Some Exception]
                       (with_db_faults [true] world_S1))) _).
  - exact (proj1 (call_endpoint_raises_in_set_up_only "S1"
                    (with_ws_faults [None; Some WebSocketDisconnect; Some Exception]
                       world_S1)) _).
Defined.

(** ** The name that is never asked for again *)

(** C3 fails in stt_translate.py, by a slip.  The caller greets, is silent
    on the second audio unit and then says a name.  The silent unit is
    processed with the name unknown: the request to the dialogue service
    carries the standard prompt, not the ask-for-name prompt, and line 315
    clears the awaiting-name flag.  The third utterance is processed with
    the name still unknown and the request carries the confirmation prompt;
    the name is never stored and the row shows a confirmation given to a
    caller called Unknown.  main.py, on the same utterances, sends the
    ask-for-name prompt while the name is unknown, skips the silent unit and
    stores the name. *)
Theorem stt_translate_stops_asking_for_name :
  let greeted := mkSession false true false AI
                   [mkMsg user "Hello"; mkMsg assistant "Could I please get your name?"] in
  let silent := SttTranslate.loop_iteration "S1"
                  (recv_bytes (stt_turn "" "Unknown" "Are you there?")) greeted world_S1 in
  let w := (SttTranslate.call_endpoint "S1"
              [recv_bytes (stt_turn "Hello" "Unknown" "Could I please get your name?");
               recv_bytes (stt_turn "" "Unknown" "Are you there?");
               recv_bytes (stt_turn "Anu" "Fire Department" "Where are you?")]
              world_empty).1 in
  let w' := (Main.call_endpoint "S1"
               [recv_bytes (main_turn "Hello" "Unknown" "Could I please get your name?");
                recv_bytes (main_turn "" "Unknown" "Are you there?");
                recv_bytes (main_turn "Anu" "Fire Department" "Where are you?")]
               world_empty).1 in
  silent.2
  = Ok (mkSession false false false AI
          [mkMsg user "Hello"; mkMsg assistant "Could I please get your name?";
           mkMsg assistant "Are you there?"], Continue)
  /\ system_prompt_of <$> silent.1.(dialogue_requests) = [Some STANDARD_SYSTEM_PROMPT]
  /\ system_prompt_of <$> w.(dialogue_requests)
     = [Some INITIAL_SYSTEM_PROMPT; Some STANDARD_SYSTEM_PROMPT;
        Some (SttTranslate.create_confirmation_system_prompt "Fire Department")]
  /\ caller_name <$> w.(rows) !! "S1" = Some "Unknown"
  /\ confirmation_given <$> w.(rows) !! "S1" = Some true
  /\ last_transcript <$> w.(rows) !! "S1" = Some (Some "Anu")
  /\ system_prompt_of <$> w'.(dialogue_requests)
     = [Some INITIAL_SYSTEM_PROMPT; Some Main.EMOTION_PROMPT;
        Some (Main.create_confirmation_system_prompt "Fire Department");
        Some Main.EMOTION_PROMPT]
  /\ caller_name <$> w'.(rows) !! "S1" = Some "Anu".
Proof. vm_compute. repeat split; reflexivity. Qed.

(** ** Confirmation on a connection *)



(** ** A long name in another script *)

Lemma len_letters n : len (letters n) = n.
Proof. induction n as [|n IH]; [done|]. simpl. by rewrite IH. Qed.

Lemma length_letters n : String.length (letters n) = (3 * n)%nat.
Proof. induction n as [|n IH]; [done|]. simpl. rewrite IH. lia. Qed.

Lemma slice_to_letters n m : (n <= m)%nat -> slice_to n (letters m) = letters n.
Proof.
  revert m. induction n as [|n IH]; intros [|m] Hm; try done; try lia.
  simpl. rewrite IH by lia. done.
Qed.

Lemma unknown_stt_stages session_id env said s :
  yields (SttTranslate.stages_after_stt session_id env said s)
         (fun sc => sc.1.(caller_name_known) = s.(caller_name_known)).
Proof.
  unfold SttTranslate.stages_after_stt.
  eapply yields_bind; [apply yields_any|intros label _].
  eapply yields_bind; [apply yields_any|intros ? _].
  apply (yields_bind _ _ (fun p => p.2.(caller_name_known) = s.(caller_name_known))).
  - unfold SttTranslate.determine_prompt.
    destruct (SttTranslate.first_turn s); [by apply yields_ret|]. cbv zeta.
    destruct (_ && _).
    + eapply yields_bind; [apply yields_any|intros ? _]. by apply yields_ret.
    + by apply yields_ret.
  - intros [[prompt phase] s'] Hs'. cbv zeta.
    eapply yields_bind; [apply yields_any|intros ? _].
    eapply yields_bind; [apply yields_any|intros ? _].
    apply yields_ret. simpl.
    destruct (SttTranslate.llama env); [destruct (truthy _)|]; exact Hs'.
Qed.

(** X15: capture of the caller's name.  A turn is processed on a working
    store and channel while the loop awaits a name that it does not know.
    The transcript, when it is not empty, is written to [caller_name], cut
    to its first 255 characters (characters, not bytes: [len] and
    [slice_to] count them), and no later turn of the connection writes the
    column again, whatever the later traffic is: when the loop is left the
    row still holds that name.  Both variants behave so.  An empty
    transcript is never taken for a name: in main.py it changes neither the
    column nor the locals and the loop goes on; in stt_translate.py the
    column stays as it is and the name is still unknown when the loop goes
    on. *)
Theorem caller_name_capture (session_id : string) (result_json : SttBody)
    (s : Session) (w : World) (r : Row) :
  store_healthy w -> w.(ws_faults) = [] ->
  w.(rows) !! session_id = Some r -> r.(handled_by) = AI ->
  s.(awaiting_name) = true -> s.(caller_name_known) = false ->
  let said := strip (get_default result_json.(stt_transcript) "") in
  let asked := mkSession s.(confirmation_given_this_session) true false AI
                         s.(chat_history) in
  (len (slice_to 255 said) = Nat.min 255 (len said)
   /\ exists rest, said = slice_to 255 said ++ rest)
  /\ (said <> "" ->
      (forall env rest, env.(Main.stt) = stt_http 200 (Some result_json) ->
         caller_name
           <$> (Main.main_loop session_id (recv_bytes env :: rest) s w).1.(rows)
               !! session_id
         = Some (slice_to 255 said))
      /\ (forall env rest, env.(SttTranslate.stt) = stt_http 200 (Some result_json) ->
            caller_name
              <$> (SttTranslate.main_loop session_id (recv_bytes env :: rest) s w).1.(rows)
                  !! session_id
            = Some (slice_to 255 said)))
  /\ (said = "" ->
      (forall env, env.(Main.stt) = stt_http 200 (Some result_json) ->
         exists w',
           Main.loop_iteration session_id (recv_bytes env) s w = (w', Ok (asked, Continue))
           /\ caller_name <$> w'.(rows) !! session_id = Some r.(caller_name))
      /\ (forall env, env.(SttTranslate.stt) = stt_http 200 (Some result_json) ->
            let out := SttTranslate.loop_iteration session_id (recv_bytes env) s w in
            caller_name <$> out.1.(rows) !! session_id = Some r.(caller_name)
            /\ exists s' control,
                 out.2 = Ok (s', control)
                 /\ (control = Continue -> s'.(caller_name_known) = false))).
Proof.
  intros Hh Hw Hr Ha Haw Hkn said asked.
  split; [split; [apply len_slice_to_min|apply slice_to_prefix]|].
  assert (Hg : handled_by <$> w.(rows) !! session_id = Some AI) by by rewrite Hr, <- Ha.
  split.
  - intros Hsaid. split; intros env rest Henv.
    + destruct (main_process_audio_run session_id env s w r result_json Hh Hw Hr Ha Henv
                  Hsaid) as (w1 & s1 & r1 & Hpa & _ & _ & _ & Hr1 & Hcols & _ & Hn1 & _).
      destruct Hcols as (_ & _ & _ & Hname). rewrite Haw, Hkn in Hname, Hn1.
      cbn in Hname, Hn1.
      cbn [Main.main_loop]. unfold Main.loop_iteration, Main.on_bytes.
      rewrite (bind_congr _ _ _ _ _
                 (try_except_congr _ _ _ _ _ (try_except_congr _ _ _ _ _ Hpa))).
      match goal with |- context [bind ?c ?k w1] =>
        assert (Hk : keeps (name_kept session_id) (bind c k)) end.
      { eapply keeps_bind_yields; [apply name_kept_trans| | |].
        - apply keeps_try_except; [apply name_kept_trans| |apply name_loop_handler].
          apply keeps_try_except;
            [apply name_kept_trans|apply name_main_stages|apply name_on_bytes_handler].
        - apply yields_try_except; [|intros e; apply yields_loop_handler].
          apply yields_try_except; [|intros e; apply yields_on_bytes_handler].
          by apply knows_main_stages.
        - intros [s' []] Hgo; simpl;
            [apply name_main_loop; by apply Hgo|apply keeps_ret, name_kept_refl]. }
      destruct (Hk w1 r1 Hr1) as (r' & Hr' & Hname'). rewrite Hr'. simpl.
      by rewrite Hname', Hname.
    + destruct (stt_process_audio_run session_id env s w r result_json Hh Hw Hr Ha Henv
                  Hsaid) as (w1 & s1 & r1 & Hpa & _ & _ & _ & Hr1 & Hcols & _ & Hn1 & _).
      destruct Hcols as (_ & _ & _ & Hname). rewrite Haw, Hkn in Hname, Hn1.
      cbn in Hname, Hn1.
      cbn [SttTranslate.main_loop]. unfold SttTranslate.loop_iteration, SttTranslate.on_bytes.
      rewrite (bind_congr _ _ _ _ _
                 (try_except_congr _ _ _ _ _ (try_except_congr _ _ _ _ _ Hpa))).
      match goal with |- context [bind ?c ?k w1] =>
        assert (Hk : keeps (name_kept session_id) (bind c k)) end.
      { eapply keeps_bind_yields; [apply name_kept_trans| | |].
        - apply keeps_try_except; [apply name_kept_trans| |apply name_loop_handler].
          apply keeps_try_except;
            [apply name_kept_trans|apply name_stt_stages|apply name_on_bytes_handler].
        - apply yields_try_except; [|intros e; apply yields_loop_handler].
          apply yields_try_except; [|intros e; apply yields_on_bytes_handler].
          by apply knows_stt_stages.
        - intros [s' []] Hgo; simpl;
            [apply name_stt_loop; by apply Hgo|apply keeps_ret, name_kept_refl]. }
      destruct (Hk w1 r1 Hr1) as (r' & Hr' & Hname'). rewrite Hr'. simpl.
      by rewrite Hname', Hname.
  - intros Hsaid. assert (Ht : truthy said = false) by by apply truthy_false_iff.
    assert (Hrun : forall data (x : string * Session), data <> [] ->
               exists w',
                 (update_call_data session_id data ;; ws_send (transcript said) ;; ret x) w
                 = (w', Ok x)
                 /\ w'.(rows) !! session_id
                    = Some (fold_left assign (data ++ [set_last_update_time w.(clock)]) r)).
    { intros data x Hd. rewrite (update_then_send_run session_id data _ x w Hh Hw Hd).
      eexists. split; [done|]. simpl. unfold sql_update. rewrite Hr. simpl.
      by rewrite lookup_insert_eq. }
    set (data := match result_json.(stt_language_code) with
                 | Some l => if truthy l
                             then ([set_last_transcript said] ++ [set_detected_language l])%list
                             else [set_last_transcript said]
                 | None => [set_last_transcript said]
                 end).
    assert (Hd : data <> []).
    { subst data. by destruct (stt_language_code result_json) as [l|]; [destruct (truthy l)|]. }
    destruct (Hrun data (said, asked) Hd) as (w' & Hw' & Hr').
    assert (Hname : caller_name <$> w'.(rows) !! session_id = Some r.(caller_name)).
    { rewrite Hr'. simpl. rewrite fold_left_app. simpl. subst data.
      by destruct (stt_language_code result_json) as [l|]; [destruct (truthy l)|]. }
    split; intros env Henv.
    + exists w'. split; [|exact Hname].
      unfold Main.loop_iteration, Main.on_bytes.
      erewrite try_except_ok; [reflexivity|]. erewrite try_except_ok; [reflexivity|].
      unfold Main.process_audio.
      rewrite (bind_ok _ _ _ _ _ (db_fetch_healthy session_id handled_by w Hh)).
      rewrite Hg, Henv. cbn [current_handler].
      rewrite bool_decide_eq_false_2 by done. cbn [negb Nat.eqb].
      unfold Main.process_stt. cbv zeta. fold said. rewrite Ht, Haw, Hkn. cbn [andb negb].
      fold data. unfold asked in Hw'. rewrite (bind_ok _ _ _ _ _ Hw'). cbv beta iota.
      by rewrite Ht.
    + intros out.
      assert (Hpa : SttTranslate.process_audio session_id env s w
                    = (if bool_decide (s.(chat_history) = [])
                       then ret (asked, Continue)
                       else SttTranslate.stages_after_stt session_id env said asked) w').
      { unfold SttTranslate.process_audio.
        rewrite (bind_ok _ _ _ _ _ (db_fetch_healthy session_id handled_by w Hh)).
        rewrite Hg, Henv. cbn [current_handler].
        rewrite bool_decide_eq_false_2 by done. cbn [negb Nat.eqb].
        unfold SttTranslate.process_stt. cbv zeta. fold said. rewrite Ht, Haw, Hkn.
        cbn [andb negb]. fold data. unfold asked in Hw'.
        rewrite (bind_ok _ _ _ _ _ Hw'). cbv beta iota.
        rewrite Ht. cbn [negb andb chat_history]. reflexivity. }
      subst out. unfold SttTranslate.loop_iteration, SttTranslate.on_bytes.
      rewrite (try_except_congr _ _ _ _ _ (try_except_congr _ _ _ _ _ Hpa)).
      split.
      * match goal with |- context [try_except (try_except ?c ?h1) ?h2 w'] =>
          assert (Hk : keeps (name_kept session_id) (try_except (try_except c h1) h2)) end.
        { apply keeps_try_except;
            [apply name_kept_trans| |intros e; apply name_loop_handler].
          apply keeps_try_except;
            [apply name_kept_trans| |intros e; apply name_on_bytes_handler].
          case_bool_decide; [apply keeps_ret, name_kept_refl|apply name_stt_stages]. }
        destruct (w'.(rows) !! session_id) as [r1|] eqn:Hr1; [|done].
        destruct (Hk w' r1 Hr1) as (r2 & -> & Hr2). simpl. rewrite Hr2. exact Hname.
      * match goal with |- context [try_except (try_except ?c ?h1) ?h2 w'] =>
          assert (Hy : yields (try_except (try_except c h1) h2)
                         (goes_on (fun s' => s'.(caller_name_known) = false)));
          [|destruct (handler_never_raises (try_except c h1) (s, Break) w') as [[s' control] Hr2]]
        end.
        { apply yields_try_except; [|intros e; apply yields_loop_handler].
          apply yields_try_except; [|intros e; apply yields_on_bytes_handler].
          case_bool_decide; [by apply yields_ret|].
          eapply yields_impl; [apply unknown_stt_stages|]. intros sc Hsc _. exact Hsc. }
        exists s', control. split; [exact Hr2|]. by apply (Hy w' (s', control) Hr2).
Qed.

(** A caller gives a name of 300 Malayalam letters while the loop awaits
    it: the row holds its first 255 letters, also after the next turn. *)
Lemma caller_name_capture_witness :
  caller_name
    <$> (Main.main_loop "S1"
           [recv_bytes (main_turn (letters 300) "Unknown" "Thank you");
            recv_bytes (main_turn "Fire" "Fire Department" "Where?")]
           (mkSession false true false AI []) world_S1).1.(rows) !! "S1"
  = Some (letters 255).
Proof.
  assert (Hsaid : strip (get_default (Some (letters 300)) "") <> "")
    by (vm_compute; discriminate).
  pose proof (proj1 (proj1 (proj2 (caller_name_capture "S1"
                (mkSttBody (Some (letters 300)) (Some "ml-IN"))
                (mkSession false true false AI []) world_S1 active_row
                ltac:(split; reflexivity) eq_refl eq_refl eq_refl eq_refl eq_refl))
              Hsaid)
              (main_turn (letters 300) "Unknown" "Thank you")
              [recv_bytes (main_turn "Fire" "Fire Department" "Where?")] eq_refl) as H.
  exact H.
Defined.
